(** * tensorflow-rl: the agent loop, the n-step accumulator, the two agent
    variants (dqn.py, ne1.py) and the population search, embedded from
    [src/base.py], [src/dqn.py] and [src/ne1.py].

    Numbers: Python floats are modelled by rationals [Q] (every property
    below is about which values are combined and how, not about rounding).
    Python exceptions are the [Raise] results of a state-and-exception
    monad in which the mutations made before an exception stay.  What the
    repository imports and does not define (the replay [Memory], the reward
    engine, the TensorFlow networks, numpy's [exp], [log] and power, the
    file copies of [save]) is a class of collaborators, [Base.Externals];
    the calls with an effect on them are recorded in a log.  The random generators are tapes of the
    values they return next. *)

From Stdlib Require Import String Bool ZArith QArith Qabs Qminmax Qround Qpower Lia Lqa.
From Stdlib Require Import RelationClasses List Sorted Permutation.
Import ListNotations.

Set Implicit Arguments.

(** ** Python exceptions and fallible results *)

Inductive exn : Set :=
| AttributeError (attr : string)
| IndexError
| ValueError
| TypeError
| NameError (var : string)
| ZeroDivisionError
| OverflowError
| FileNotFoundError
| InvalidArgumentError.

Inductive result (A : Type) : Type :=
| Ok (a : A)
| Raise (e : exn).

Arguments Ok {A} a.
Arguments Raise {A} e.

Definition rbind {A B : Type} (c : result A) (k : A -> result B) : result B :=
  match c with
  | Ok a => k a
  | Raise e => Raise e
  end.

Declare Scope py_scope.
Delimit Scope py_scope with py.
Notation "'let?' x := c 'in' k" := (rbind c (fun x => k))
  (at level 10, x name, c at level 100, k at level 200) : py_scope.
Open Scope py_scope.

(** Code that mutates an object and may raise: the mutations made before an
    exception stay (Python has no rollback), so the state is returned on
    both outcomes. *)
Definition py (S A : Type) : Type := S -> result A * S.

Definition ret {S A : Type} (a : A) : py S A := fun s => (Ok a, s).

Definition raise {S A : Type} (e : exn) : py S A := fun s => (Raise e, s).

Definition bind {S A B : Type} (c : py S A) (k : A -> py S B) : py S B :=
  fun s => match c s with
           | (Ok a, s') => k a s'
           | (Raise e, s') => (Raise e, s')
           end.

Notation "x <- c ;; k" := (bind c (fun x => k))
  (at level 61, c at next level, right associativity) : py_scope.
Notation "' p <- c ;; k" := (bind c (fun x => match x with p => k end))
  (at level 61, p pattern, c at next level, right associativity) : py_scope.
Notation "c ;;; k" := (bind c (fun _ => k))
  (at level 61, right associativity) : py_scope.

Definition get {S : Type} : py S S := fun s => (Ok s, s).
Definition modify {S : Type} (f : S -> S) : py S unit := fun s => (Ok tt, f s).
Definition lift {S A : Type} (c : result A) : py S A := fun s => (c, s).

(** Running a method of a component object held in a field. *)
Definition zoom {S T A : Type} (proj : S -> T) (upd : T -> S -> S)
    (c : py T A) : py S A :=
  fun s => let '(r, t) := c (proj s) in (r, upd t s).

(** [for x in xs: body x] *)
Fixpoint for_each {S A : Type} (xs : list A) (body : A -> py S unit) : py S unit :=
  match xs with
  | [] => ret tt
  | x :: xs' => body x ;;; for_each xs' body
  end.

(** [[f x for x in xs]] *)
Fixpoint comprehension {S A B : Type} (xs : list A) (f : A -> py S B) : py S (list B) :=
  match xs with
  | [] => ret []
  | x :: xs' => y <- f x ;; ys <- comprehension xs' f ;; ret (y :: ys)
  end.

Fixpoint rmap {A B : Type} (f : A -> result B) (xs : list A) : result (list B) :=
  match xs with
  | [] => Ok []
  | x :: xs' => let? y := f x in let? ys := rmap f xs' in Ok (y :: ys)
  end.

(** ** Python sequences: indexing, slicing, [range], unpacking *)

Section Sequences.
Context {A : Type}.

(** [l[i]]: a negative index counts from the end; out of range raises. *)
Definition py_index (l : list A) (i : Z) : result A :=
  let len := Z.of_nat (length l) in
  let j := (if i <? 0 then i + len else i)%Z in
  if ((j <? 0) || (len <=? j))%Z then Raise IndexError
  else match nth_error l (Z.to_nat j) with
       | Some x => Ok x
       | None => Raise IndexError
       end.

Fixpoint replace_nth (k : nat) (v : A) (l : list A) : list A :=
  match l, k with
  | [], _ => []
  | _ :: l', O => v :: l'
  | x :: l', S k' => x :: replace_nth k' v l'
  end.

(** [l[i] = v] *)
Definition py_setitem (l : list A) (i : Z) (v : A) : result (list A) :=
  let len := Z.of_nat (length l) in
  let j := (if i <? 0 then i + len else i)%Z in
  if ((j <? 0) || (len <=? j))%Z then Raise IndexError
  else Ok (replace_nth (Z.to_nat j) v l).

(** The way a slice bound is clipped into [0, len]. *)
Definition clip_bound (len i : Z) : nat :=
  Z.to_nat (if i <? 0 then Z.max 0 (i + len) else Z.min i len)%Z.

(** [l[a:b]]: never raises. *)
Definition py_slice (l : list A) (a b : Z) : list A :=
  let len := Z.of_nat (length l) in
  skipn (clip_bound len a) (firstn (clip_bound len b) l).

(** [l[a:]] *)
Definition py_slice_from (l : list A) (a : Z) : list A :=
  skipn (clip_bound (Z.of_nat (length l)) a) l.

(** [a, b = t], [a, b, c = t], [a, b, c, d, e = t] *)
Definition unpack2 (t : list A) : result (A * A) :=
  match t with
  | [a; b] => Ok (a, b)
  | _ => Raise ValueError
  end.

Definition unpack3 (t : list A) : result (A * A * A) :=
  match t with
  | [a; b; c] => Ok (a, b, c)
  | _ => Raise ValueError
  end.

Definition unpack5 (t : list A) : result (A * A * A * A * A) :=
  match t with
  | [a; b; c; d; e] => Ok (a, b, c, d, e)
  | _ => Raise ValueError
  end.
End Sequences.

(** [range(a, b)] *)
Definition py_range (a b : Z) : list Z :=
  map (fun k => (a + Z.of_nat k)%Z) (seq 0 (Z.to_nat (b - a))).

(** [int(x)] on a float: truncation towards zero. *)
Definition py_int (x : Q) : Z := Z.quot (Qnum x) (Zpos (Qden x)).

Definition Qltb (a b : Q) : bool := negb (Qle_bool b a).

(** ** The arrays the loop handles *)

(** One row of the market-data array [x]: a window of feature rows. *)
Definition feature : Type := list (list Q).

Definition matrix : Type := list (list Q).

(** Network weights: a list of 2-d tensors. *)
Definition weights : Type := list matrix.

(** List and array values passed around by the loop: a vector of action
    indices (what the value-based [policy] returns), a vector of floats, or
    an N x 2 matrix (what the actor-critic [policy] returns). *)
Inductive ndarray : Type :=
| IntVec (v : list Z)
| FloatVec (v : list Q)
| Mat (m : matrix).

Inductive elem : Type :=
| IntElem (z : Z)
| FloatElem (x : Q)
| RowElem (r : list Q).

Definition nd_index (a : ndarray) (i : Z) : result elem :=
  match a with
  | IntVec v => let? x := py_index v i in Ok (IntElem x)
  | FloatVec v => let? x := py_index v i in Ok (FloatElem x)
  | Mat m => let? r := py_index m i in Ok (RowElem r)
  end.

(** [np.array(rows)] of a list of rows: of the empty list numpy makes a
    1-d array of shape (0,), not a matrix. *)
Definition np_array (rows : list (list Q)) : ndarray :=
  match rows with
  | [] => FloatVec []
  | _ :: _ => Mat rows
  end.

(** [a[:, j]]: only a 2-d array has a second axis. *)
Definition column (a : ndarray) (j : Z) : result (list Q) :=
  match a with
  | Mat m => rmap (fun row => py_index row j) m
  | _ => Raise IndexError
  end.

(** [np.argmax] of a row: the first index of the maximum. *)
Fixpoint argmax_from (best : Q) (besti : nat) (k : nat) (xs : list Q) : nat :=
  match xs with
  | [] => besti
  | x :: xs' =>
      if Qltb best x then argmax_from x k (S k) xs'
      else argmax_from best besti (S k) xs'
  end.

Definition argmax (row : list Q) : result Z :=
  match row with
  | [] => Raise ValueError
  | x :: xs => Ok (Z.of_nat (argmax_from x 0 1 xs))
  end.

(** ** The random sources *)

(** [np.random], [random] and the action space's generator, as the tapes of
    what they return next. *)
Record RNG : Type := mkRNG {
  ints : list Z;            (* raw draws behind np.random.randint *)
  uniforms : list Q;        (* np.random.rand() *)
  normals : list Q;         (* np.random.randn / normal *)
  boxes : list (list Q);    (* Box(-1, 1, (2,)).sample() *)
  picks : list (list nat)   (* the positions drawn by random.sample and
                               np.random.choice *)
}.

Definition pop {A : Type} (d : A) (l : list A) : A * list A :=
  match l with
  | [] => (d, [])
  | x :: l' => (x, l')
  end.

(** ** base.py *)

Module Base.

(** The name [r] in [nstep] is first the array passed in and, once the
    [for r in r] loop has run an iteration, the element last visited. *)
Inductive pyr : Type :=
| PArr (a : list Q)
| PNum (x : Q).

(** A stored transition [(df[tau], q[tau], r, df[tau + n])]. *)
Record transition : Type := mkTransition {
  t_state : feature;
  t_action : elem;
  t_return : pyr;
  t_next : feature
}.

(** Calls with an effect outside the agent object, in the order made. *)
Inductive call : Type :=
| CMemoryNew (capacity : Z)
| CMemoryStore (t : transition) (priority : Q)
| CMemorySample (k : Z)
| CMemoryBatchUpdate (tree_idx : list Z) (priorities : list Q)
| CReward (args : list ndarray)
| CRewardReset
| CApplyGradients (grads : list (list Q))
| CSave (i : Z).

(** What the repository imports and does not define: [memory.Memory],
    [new_rewards.Reward]/[Reward2], numpy's transcendental functions, the
    file copies of [save] and the TensorFlow networks, gradient and
    optimizer. *)
Class Externals : Type := {
  (* memory.py *)
  Memory : Type;
  Memory_new : Z -> Memory;
  Memory_store : Memory -> transition -> Q -> result Memory;
  Memory_sample : Memory -> Z -> RNG -> result (list Z * list transition) * RNG;
  Memory_batch_update : Memory -> list Z -> list Q -> result Memory;
  (* new_rewards.py *)
  Reward : Type;
  Reward_reward : Reward -> list ndarray -> result Reward;
  Reward_growth_rate : Reward -> list Q;
  Reward_total_gain : Reward -> list Q;
  Reward_reset : Reward -> Reward;
  (* numpy *)
  np_exp : Q -> Q;
  np_log : Q -> Q;                  (* on a positive argument *)
  np_pow : Q -> Q -> Q;
  (* what an operation on tensors raises when the shapes of its operands do
     not broadcast: numpy's ValueError, TensorFlow's InvalidArgumentError *)
  shape_error : exn;
  (* shutil.copy(src, dst) and distutils' copy_tree(src, dst): they raise
     FileNotFoundError where [src] does not exist *)
  shutil_copy : string -> string -> result unit;
  copy_tree : string -> string -> result unit;
  (* tensorflow *)
  dqn_forward : weights -> list feature -> matrix;
  actor_forward : weights -> list feature -> matrix;
  critic_q1 : weights -> list feature -> matrix -> list Q;
  critic_q2 : weights -> list feature -> matrix -> list Q;
  critic_v : weights -> list feature -> matrix -> list Q;
  actor_get_weights : weights;      (* np.array(actor().get_weights()) *)
  tape_gradient : weights -> list feature -> matrix -> list (list Q);
  apply_gradients : Q -> weights -> list (list Q) -> weights
}.

Section WithExternals.
Context {E : Externals}.

(** What is shared by everything that runs: the random sources and the log
    of calls made. *)
Record world : Type := mkWorld {
  rng : RNG;
  log : list call
}.

Class HasWorld (S : Type) : Type := {
  get_world : S -> world;
  set_world : world -> S -> S
}.

(** The attributes [Base_Agent.__init__] sets and the loop or the methods
    assign later. *)
Record attrs : Type := mkAttrs {
  gamma : Q;
  random : Z;
  restore : bool;
  saved_i : option Z;          (* self.i, set by a restoring build or by save *)
  rewards : Reward;
  memory : Memory
}.

(** An agent object: the base attributes and those its subclass adds. *)
Record object (Sub : Type) : Type := mkObject {
  env : world;
  self : attrs;
  sub : Sub
}.

Arguments mkObject {Sub} env self sub.
Arguments env {Sub} o.
Arguments self {Sub} o.
Arguments sub {Sub} o.

(** The attributes never assigned after construction. [types] is what
    [build] leaves in [self.types], if anything. *)
Record config : Type := mkConfig {
  step_size : Z;
  n : Z;
  lr : Q;
  types : option string;
  x : list feature;
  y : list Q;
  atr : list Q;
  scale_atr : list Q;
  high : list Q;
  low : list Q
}.

(** The methods a subclass overrides. *)
Record methods (Sub : Type) : Type := mkMethods {
  policy : list feature -> Z -> py (object Sub) ndarray;
  sample : list transition -> py (object Sub) (list Q);
  train : py (object Sub) unit;
  lr_decay : Z -> py (object Sub) unit;
  gamma_updae : Z -> py (object Sub) unit;
  save : Z -> py (object Sub) unit
}.

Definition set_env {Sub : Type} (w : world) (o : object Sub) : object Sub :=
  mkObject w (self o) (sub o).

Definition set_self {Sub : Type} (a : attrs) (o : object Sub) : object Sub :=
  mkObject (env o) a (sub o).

Definition set_sub {Sub : Type} (s : Sub) (o : object Sub) : object Sub :=
  mkObject (env o) (self o) s.

Definition set_gamma (g : Q) (a : attrs) : attrs :=
  mkAttrs g (random a) (restore a) (saved_i a) (rewards a) (memory a).

Definition set_random (r : Z) (a : attrs) : attrs :=
  mkAttrs (gamma a) r (restore a) (saved_i a) (rewards a) (memory a).

Definition set_saved (i : Z) (a : attrs) : attrs :=
  mkAttrs (gamma a) (random a) true (Some i) (rewards a) (memory a).

Definition set_rewards (r : Reward) (a : attrs) : attrs :=
  mkAttrs (gamma a) (random a) (restore a) (saved_i a) r (memory a).

Definition set_memory (m : Memory) (a : attrs) : attrs :=
  mkAttrs (gamma a) (random a) (restore a) (saved_i a) (rewards a) m.

#[export] Instance object_world (Sub : Type) : HasWorld (object Sub) := {
  get_world := env;
  set_world := set_env
}.

#[export] Instance pair_world (T : Type) : HasWorld (world * T) := {
  get_world := fst;
  set_world := fun w s => (w, snd s)
}.

Section World.
Context {S : Type} {HW : HasWorld S}.

Definition emit (c : call) : py S unit :=
  modify (fun s => set_world (mkWorld (rng (get_world s)) (log (get_world s) ++ [c])) s).

Definition with_rng {A : Type} (f : RNG -> A * RNG) : py S A :=
  fun s => let '(a, g) := f (rng (get_world s)) in
           (Ok a, set_world (mkWorld g (log (get_world s))) s).

(** [np.random.randint(lo, hi)]: a value in [lo, hi). *)
Definition np_random_randint (lo hi : Z) : py S Z :=
  if (hi <=? lo)%Z then raise ValueError
  else with_rng (fun g =>
         let '(z, rest) := pop 0%Z (ints g) in
         ((lo + z mod (hi - lo))%Z,
          mkRNG rest (uniforms g) (normals g) (boxes g) (picks g))).

(** [np.random.rand()] *)
Definition np_random_rand : py S Q :=
  with_rng (fun g =>
    let '(u, rest) := pop 0%Q (uniforms g) in
    (u, mkRNG (ints g) rest (normals g) (boxes g) (picks g))).

(** One normal deviate. *)
Definition np_random_normal : py S Q :=
  with_rng (fun g =>
    let '(u, rest) := pop 0%Q (normals g) in
    (u, mkRNG (ints g) (uniforms g) rest (boxes g) (picks g))).

(** [np.random.randn(rows, cols)] *)
Definition np_random_randn (rows cols : nat) : py S matrix :=
  comprehension (seq 0 rows) (fun _ =>
    comprehension (seq 0 cols) (fun _ => np_random_normal)).

(** [self.aciton_space.sample()] for [Box(-1, 1, (2,))] *)
Definition box_sample : py S (list Q) :=
  with_rng (fun g =>
    let '(b, rest) := pop [0%Q; 0%Q] (boxes g) in
    (b, mkRNG (ints g) (uniforms g) (normals g) rest (picks g))).

Fixpoint distinctb (l : list nat) : bool :=
  match l with
  | [] => true
  | a :: l' => negb (existsb (Nat.eqb a) l') && distinctb l'
  end.

(** The positions a draw of [k] out of [len] takes, among those [allowed]
    (positive probability), pairwise distinct unless [replace]: the next
    entry of the tape when it is such a draw, the first positions allowed
    otherwise. *)
Definition draw_positions (len k : nat) (replace : bool) (allowed : nat -> bool)
    : py S (list nat) :=
  with_rng (fun g =>
    let '(p, rest) := pop [] (picks g) in
    let ok := (length p =? k)%nat
              && forallb (fun a => (a <? len)%nat && allowed a) p
              && (replace || distinctb p) in
    let support := filter allowed (seq 0 len) in
    (if ok then p
     else if replace then repeat (hd 0%nat support) k
     else firstn k support,
     mkRNG (ints g) (uniforms g) (normals g) (boxes g) rest)).

(** [random.sample(population, k)] *)
Definition random_sample {A : Type} (population : list A) (k : Z) : py S (list A) :=
  if ((k <? 0) || (Z.of_nat (length population) <? k))%Z then raise ValueError
  else
    ps <- draw_positions (length population) (Z.to_nat k) false (fun _ => true) ;;
    lift (rmap (fun p => py_index population (Z.of_nat p)) ps).

Definition Qsum (l : list Q) : Q := fold_right Qplus 0%Q l.

(** [np.random.choice(a, size, replace, p)], as the positions in [a] of the
    elements drawn. *)
Definition np_random_choice (len : nat) (size : Z) (replace : bool) (p : list Q)
    : py S (list nat) :=
  let positive := fun i => Qltb 0 (nth i p 0%Q) in
  if negb (length p =? len)%nat then raise ValueError
  else if existsb (fun v => Qltb v 0) p then raise ValueError
  else if negb (Qeq_bool (Qsum p) 1) then raise ValueError
  else if (size <? 0)%Z then raise ValueError
  else if negb replace
          && (Z.of_nat (length (filter positive (seq 0 len))) <? size)%Z then raise ValueError
  else if (len =? 0)%nat && (0 <? size)%Z then raise ValueError
  else draw_positions len (Z.to_nat size) replace positive.
End World.

(** The returns that are all numbers, and those that are all arrays. *)
Fixpoint scalars (rs : list pyr) : option (list Q) :=
  match rs with
  | [] => Some []
  | PNum v :: rs' => option_map (cons v) (scalars rs')
  | PArr _ :: _ => None
  end.

Fixpoint arrays (rs : list pyr) : option (list (list Q)) :=
  match rs with
  | [] => Some []
  | PArr a :: rs' => option_map (cons a) (arrays rs')
  | PNum _ :: _ => None
  end.

(** [np.array([a[2] for a in memory], np.float32).reshape((-1, 1))], as
    both [sample] and both [train] write it: numbers give one entry each,
    arrays of one length are laid end to end, and anything else (numbers
    mixed with arrays, arrays of different lengths) is refused by
    [np.array] with a [ValueError]. *)
Definition returns_of (memory : list transition) : result (list Q) :=
  let rs := map t_return memory in
  match scalars rs with
  | Some v => Ok v
  | None =>
      match arrays rs with
      | Some (a :: rest) =>
          if forallb (fun b => (length b =? length a)%nat) rest then Ok (concat (a :: rest))
          else Raise ValueError
      | _ => Raise ValueError
      end
  end.

(** [tf.clip_by_value(grad, lo, hi)] *)
Definition clip_by_value (grad : list Q) (lo hi : Q) : list Q :=
  map (fun g => Qmin (Qmax g lo) hi) grad.

(** *** [__init__], [huber_loss], [nstep], [pg_action] *)

(** [__init__]: [self.gamma = 0.4] and [self.random = 0], then [build] (which
    may assign [gamma] again and may leave [self.types] unset), then the
    reward engine chosen by [self.types] and the buffer. *)
Definition init (restore : bool) (saved_i : option Z) (build_gamma : Q -> Q)
    (types : option string) (Reward_new Reward2_new : Reward) : result attrs :=
  let gamma := build_gamma (4 # 10) in
  match types with
  | None => Raise (AttributeError "types")
  | Some ty =>
      Ok (mkAttrs gamma 0 restore saved_i
                  (if String.eqb ty "DQN" then Reward_new else Reward2_new)
                  (Memory_new 5000000))
  end.

Definition huber_loss (q_backup q delta : Q) : Q :=
  let error := Qabs (q_backup - q) in
  if Qltb error delta then error ^ 2 * (1 # 2)
  else delta * error - (1 # 2) * delta ^ 2.

(** The body of the [for r in r] loop: [discount_r += 0.99 * r]. *)
Fixpoint nstep_loop (xs : list Q) (discount_r : Q) (r : pyr) : Q * pyr :=
  match xs with
  | [] => (discount_r, r)
  | v :: xs' => nstep_loop xs' (discount_r + (99 # 100) * v)%Q (PNum v)
  end.

(** The local [discount_r] when the loop ends (the function drops it). *)
Definition nstep_discount_r (r : list Q) : Q := fst (nstep_loop r 0%Q (PArr r)).

(** [nstep]: [return r]. *)
Definition nstep (r : list Q) : pyr := snd (nstep_loop r 0%Q (PArr r)).

Definition pg_action (action : ndarray) : result (list ndarray) :=
  let q := action in
  let? a0 := column action 0 in
  let? a1 := column action 1 in
  let leverage := map (fun i => if Qltb 0 i then i * (5 # 2) else i * (1 # 2))%Q a1 in
  let action := map (fun i => if Qltb (1 # 2) i then 0 else 1)%Z a0 in
  Ok [IntVec action; FloatVec leverage; q].



(** *** [run] *)

(** The loop [for t in range(0, len(trend) - 1)] of [run], appending to the
    local deque [memory]; [q] is unbound when neither branch on
    [self.types] ran. *)
Fixpoint accumulate (ts : list Z) (n : Z) (df : list feature) (q : option ndarray)
    (rewards : list Q) (memory : list transition) : result (list transition) :=
  match ts with
  | [] => Ok memory
  | t :: ts' =>
      let tau := (t - n + 1)%Z in
      if (0 <=? tau)%Z then
        let r := nstep (py_slice rewards (tau + 1) (tau + n)) in
        let? s := py_index df tau in
        let? a := match q with
                  | Some q => nd_index q tau
                  | None => Raise (NameError "q")
                  end in
        let? s' := py_index df (tau + n) in
        accumulate ts' n df q rewards (memory ++ [mkTransition s a r s'])
      else accumulate ts' n df q rewards memory
  end.

Definition nstep_transitions (n : Z) (trend_len : nat) (df : list feature)
    (q : option ndarray) (rewards : list Q) : result (list transition) :=
  accumulate (py_range 0 (Z.of_nat trend_len - 1)) n df q rewards [].

(** [r / prev] on Python floats, which [total_gain] is taken to hold. *)
Definition py_div (r prev : Q) : result Q :=
  if Qeq_bool prev 0 then Raise ZeroDivisionError else Ok (r / prev)%Q.

(** [int(rewards[index] * 10 ** 3)], where [rewards[index]] is
    [np.log(ratio) * 100]: the logarithm of a negative ratio is NaN and that
    of 0 is minus infinity, and [int] raises on both. *)
Definition int_of_log (ratio : Q) : result Z :=
  if Qltb ratio 0 then Raise ValueError
  else if Qeq_bool ratio 0 then Raise OverflowError
  else Ok (py_int (np_log ratio * 100 * 1000)).

(** The [for index, r in enumerate(self.rewards.total_gain)] loop filling
    [rewards]; [prev] is [total_gain[index - 1]].  Line 153 assigns
    [rewards[index]] before line 154 calls [int]. *)
Fixpoint reward_loop (index : nat) (prev : Q) (gains : list Q) (rewards : list Q)
    : result (list Q) :=
  match gains with
  | [] => Ok rewards
  | r :: rest =>
      let? rewards' :=
        (if (index =? 0)%nat then py_setitem rewards (Z.of_nat index) 0%Q
         else
           let? ratio := py_div r prev in
           let? rewards1 := py_setitem rewards (Z.of_nat index) (np_log ratio * 100)%Q in
           let? k := int_of_log ratio in
           py_setitem rewards1 (Z.of_nat index) (inject_Z k * (1 # 100))%Q) in
      reward_loop (S index) r rest rewards'
  end.

Definition reward_signal (growth_rate total_gain : list Q) : result (list Q) :=
  reward_loop 0 0%Q total_gain (repeat 0%Q (length growth_rate)).

Section Loop.
Variable Sub : Type.
Variable M : methods Sub.
Variable cfg : config.

Definition set_attr (f : attrs -> attrs) : py (object Sub) unit :=
  modify (fun o => set_self (f (self o)) o).

Definition window {A : Type} (l : list A) (h : Z) : list A :=
  py_slice l h (h + step_size cfg).

(** The bound [self.x.shape[0] - self.x.shape[0] * 0.2], as an integer. *)
Definition train_rows : Q :=
  (inject_Z (Z.of_nat (length (x cfg))) - inject_Z (Z.of_nat (length (x cfg))) * (2 # 10))%Q.

Definition choose_h (i h : Z) : py (object Sub) Z :=
  if ((i + 1) mod 5 =? 0)%Z then
    np_random_randint (py_int train_rows)
                      (Z.of_nat (length (x cfg)) - step_size cfg * 5)
  else if negb (i mod 5 =? 0)%Z then
    np_random_randint 0 (py_int (train_rows - inject_Z (step_size cfg)))
  else ret h.

(** [self.rewards.reward(...)] *)
Definition call_reward (args : list ndarray) : py (object Sub) unit :=
  emit (CReward args) ;;;
  o <- get ;;
  r <- lift (Reward_reward (rewards (self o)) args) ;;
  set_attr (set_rewards r).

(** Lines 133-139: the action and, per variant, the reward call; returns
    [action] and [q]. *)
Definition act (i : Z) (df : list feature) (trend high low atr scale_atr : list Q)
    : py (object Sub) (ndarray * option ndarray) :=
  action <- policy M df i ;;
  match types cfg with
  | None => raise (AttributeError "types")
  | Some ty =>
      if String.eqb ty "PG" then
        tup <- lift (pg_action action) ;;
        ' (action, leverage, lc, tp, q) <- lift (unpack5 tup) ;;
        call_reward [FloatVec trend; FloatVec high; FloatVec low; action;
                     leverage; lc; tp; FloatVec atr; FloatVec scale_atr] ;;;
        ret (action, Some q)
      else if String.eqb ty "DQN" then
        call_reward [FloatVec trend; FloatVec high; FloatVec low; action;
                     FloatVec atr; FloatVec scale_atr] ;;;
        ret (action, Some action)
      else ret (action, None)
  end.

Definition rebuild_due (reset : Z) : bool := ((reset + 1) mod 10000 =? 0)%Z.

(** Lines 141-143; returns the local [reset]. *)
Definition rebuild (reset : Z) : py (object Sub) Z :=
  if rebuild_due reset then
    emit (CMemoryNew 5000000) ;;;
    set_attr (set_memory (Memory_new 5000000)) ;;;
    ret 0%Z
  else ret reset.

(** [self.memory.store(transition, priority)] *)
Definition store (t : transition) (priority : Q) : py (object Sub) unit :=
  emit (CMemoryStore t priority) ;;;
  o <- get ;;
  m <- lift (Memory_store (memory (self o)) t priority) ;;
  set_attr (set_memory m).

(** [self.memory.sample(k)] *)
Definition memory_sample (k : Z) : py (object Sub) (list Z * list transition) :=
  emit (CMemorySample k) ;;;
  o <- get ;;
  let '(r, g) := Memory_sample (memory (self o)) k (rng (env o)) in
  modify (set_env (mkWorld g (log (env o)))) ;;;
  lift r.

(** [self.memory.batch_update(tree_idx, ae)] *)
Definition memory_batch_update (tree_idx : list Z) (ae : list Q) : py (object Sub) unit :=
  emit (CMemoryBatchUpdate tree_idx ae) ;;;
  o <- get ;;
  m <- lift (Memory_batch_update (memory (self o)) tree_idx ae) ;;
  set_attr (set_memory m).

(** Lines 146-171: the transitions of the window go to the buffer.  (The
    assignment [self.mem = memory] of line 165, an attribute that nothing
    reads, is left out.) *)
Definition memory_append (i : Z) (q : option ndarray) (df : list feature)
    (trend : list Q) : py (object Sub) unit :=
  o <- get ;;
  let growth_rate := Reward_growth_rate (rewards (self o)) in
  if negb ((i + 1) mod 5 =? 0)%Z && negb (length growth_rate =? 0)%nat then
    rewards <- lift (reward_signal growth_rate (Reward_total_gain (rewards (self o)))) ;;
    memory <- lift (nstep_transitions (n cfg) (length trend) df q rewards) ;;
    memory <- random_sample memory (py_int (inject_Z (step_size cfg) * (1 # 2))) ;;
    ae <- sample M memory ;;
    for_each (py_range 0 (Z.of_nat (length ae))) (fun e =>
      t <- lift (py_index memory e) ;;
      p <- lift (py_index ae e) ;;
      store t p)
  else ret tt.

(** The local [reset] after [reset += 1]. *)
Definition next_reset (reset : Z) : Z :=
  ((if rebuild_due reset then 0 else reset) + 1)%Z.

(** One iteration of the [for i in range(start, i)] loop; the locals
    [reset] and [h] go in and out.  The console output ([clear_output], the
    report printed every 5 iterations) is left out. *)
Definition run_iter (i : Z) (loc : Z * Z) : py (object Sub) (Z * Z) :=
  let '(reset, h) := loc in
  h <- choose_h i h ;;
  let df := window (x cfg) h in
  let trend := window (y cfg) h in
  let atr := window (atr cfg) h in
  let scale_atr := window (scale_atr cfg) h in
  let high := window (high cfg) h in
  let low := window (low cfg) h in
  ' (action, q) <- act i df trend high low atr scale_atr ;;
  reset <- rebuild reset ;;
  memory_append i q df trend ;;;
  (if (50 <? reset)%Z then train M else ret tt) ;;;
  lr_decay M i ;;;
  gamma_updae M i ;;;
  let reset := (reset + 1)%Z in
  (if ((i + 1) mod 500 =? 0)%Z then save M i else ret tt) ;;;
  modify (fun o => set_self (set_rewards (Reward_reset (rewards (self o))) (self o)) o) ;;;
  emit CRewardReset ;;;
  ret (reset, h).

Fixpoint run_loop (iters : list Z) (loc : Z * Z) : py (object Sub) (Z * Z) :=
  match iters with
  | [] => ret loc
  | i :: rest => loc' <- run_iter i loc ;; run_loop rest loc'
  end.

(** [run(train)] *)
Definition run (train : bool) : py (object Sub) (Z * Z) :=
  let i := (if train then 10000000 else 6)%Z in
  o <- get ;;
  start <- (if negb (restore (self o)) then ret 0%Z
            else match saved_i (self o) with
                 | Some k => ret k
                 | None => raise (AttributeError "i")
                 end) ;;
  let start := (if train then start else i - 1)%Z in
  h <- np_random_randint 0 (py_int (train_rows - inject_Z (step_size cfg))) ;;
  run_loop (py_range start i) (0%Z, h).
End Loop.

End WithExternals.

End Base.


(** ** dqn.py *)

Module DQN.
Import Base.

Section WithExternals.
Context {E : Externals}.

(** The attributes [build] adds: the online and target networks and the
    learning rate held by the optimizer. *)
Record fields : Type := mkFields {
  model : weights;
  target_model : weights;
  optimizer_lr : Q
}.

Definition agent : Type := object fields.

(** [build] without restore: [w] are the weights [build_model()] starts
    from, [adam_lr] the optimizer's rate. *)
Definition build (w : weights) (adam_lr : Q) : fields := mkFields w w adam_lr.

(** An index taken from an array element. *)
Definition as_index (a : elem) : result Z :=
  match a with
  | IntElem z => Ok z
  | _ => Raise IndexError
  end.

(** The [for i in range(rewards.shape[0])] loop of [loss]. *)
Fixpoint backup_loop (idx : list Z) (gamma : Q) (rewards : list Q) (actions : list elem)
    (target_q arg_q : matrix) (q_backup : matrix) : result matrix :=
  match idx with
  | [] => Ok q_backup
  | i :: rest =>
      let? r := py_index rewards i in
      let? arg_row := py_index arg_q i in
      let? best := argmax arg_row in
      let? target_row := py_index target_q i in
      let? tq := py_index target_row best in
      let? a := py_index actions i in
      let? a := as_index a in
      let? row := py_index q_backup i in
      let? row' := py_setitem row a (r + gamma * tq)%Q in
      let? q_backup' := py_setitem q_backup i row' in
      backup_loop rest gamma rewards actions target_q arg_q q_backup'
  end.

(** [loss]; [q.numpy()] is taken as a copy of the online Q-values. *)
Definition loss (states new_states : list feature) (rewards : list Q)
    (actions : list elem) : py agent (matrix * matrix) :=
  o <- get ;;
  let q := dqn_forward (model (sub o)) states in
  let target_q := dqn_forward (target_model (sub o)) new_states in
  let arg_q := dqn_forward (model (sub o)) new_states in
  q_backup <- lift (backup_loop (py_range 0 (Z.of_nat (length rewards)))
                      (gamma (self o)) rewards actions target_q arg_q q) ;;
  ret (q_backup, q).

(** [tf.reduce_sum(np.abs(q_backup - q), -1)] *)
Definition abs_error (q_backup q : matrix) : list Q :=
  map (fun rows => fold_right Qplus 0%Q
                     (map (fun ab => Qabs (fst ab - snd ab)) (combine (fst rows) (snd rows))))
      (combine q_backup q).

Definition sample (memory : list transition) : py agent (list Q) :=
  let states := map t_state memory in
  let new_states := map t_next memory in
  let actions := map t_action memory in
  rewards <- lift (returns_of memory) ;;
  ' (q_backup, q) <- loss states new_states rewards actions ;;
  ret (abs_error q_backup q).

Definition train : py agent unit :=
  ' (tree_idx, replay) <- memory_sample 128 ;;
  let states := map t_state replay in
  let new_states := map t_next replay in
  let actions := map t_action replay in
  rewards <- lift (returns_of replay) ;;
  ' (q_backup, q) <- loss states new_states rewards actions ;;
  let ae := map (fun e => e + (1 # 10000000000))%Q (abs_error q_backup q) in
  memory_batch_update tree_idx ae ;;;
  o <- get ;;
  let gradients := tape_gradient (model (sub o)) states q_backup in
  let gradients := map (fun grad => clip_by_value grad (-10) 10) gradients in
  emit (CApplyGradients gradients) ;;;
  modify (fun o => set_sub (mkFields (apply_gradients (optimizer_lr (sub o)) (model (sub o)) gradients)
                                     (target_model (sub o)) (optimizer_lr (sub o))) o).

Definition lr_decay (cfg : config) (i : Z) : py agent unit :=
  let lr := (lr cfg * (1 / (1 + (1 # 1000000) * inject_Z i)))%Q in
  modify (fun o => set_sub (mkFields (model (sub o)) (target_model (sub o)) lr) o).

Definition policy (state : list feature) (i : Z) : py agent ndarray :=
  o <- get ;;
  let q := dqn_forward (model (sub o)) state in
  if negb ((i + 1) mod 5 =? 0)%Z then
    action <- comprehension q (fun row =>
                u <- np_random_rand ;;
                if Qltb (1 # 10) u then lift (argmax row)
                else np_random_randint 0 3) ;;
    ret (IntVec action)
  else
    action <- lift (rmap argmax q) ;;
    ret (IntVec action).

(** [save]: the attributes are set and the files written ([CSave]) before
    the two copies to the drive. *)
Definition save (i : Z) : py agent unit :=
  modify (fun o => set_self (set_saved i (self o)) o) ;;;
  emit (CSave i) ;;;
  lift (shutil_copy "/content/dqn.h5" "/content/drive/My Drive") ;;;
  lift (shutil_copy "/content/dqn_epoch.npy" "/content/drive/My Drive").

(** [gamma_updae] is the base class's [pass]. *)
Definition gamma_updae (i : Z) : py agent unit := ret tt.

Definition Agent (cfg : config) : methods fields :=
  mkMethods policy sample train (lr_decay cfg) gamma_updae save.

End WithExternals.
End DQN.

(** ** ne1.py *)

Module NE1.
Import Base.

Section WithExternals.
Context {E : Externals}.

(** [np.max] *)
Definition np_max (v : list Q) : result Q :=
  match v with
  | [] => Raise ValueError
  | a :: rest => Ok (fold_left (fun m b => if Qltb m b then b else m) rest a)
  end.

Definition softmax (v : list Q) : result (list Q) :=
  let? m := np_max v in
  let e_x := map (fun a => np_exp (a - m)) v in
  Ok (map (fun e => e / Qsum e_x)%Q e_x).

(** *** [Actor] and [NeuroEvolution] *)

Record Actor : Type := mkActor {
  w : weights;
  fitness : Q
}.

(** What an attribute of an [Actor] holds. *)
Inductive attr_value : Type :=
| AWeights (v : weights)
| AFitness (f : Q).

(** Attribute lookup on an [Actor]: the class defines [w] and [fitness]
    and nothing else. *)
Definition getattr (a : Actor) (name : string) : result attr_value :=
  if String.eqb name "w" then Ok (AWeights (w a))
  else if String.eqb name "fitness" then Ok (AFitness (fitness a))
  else Raise (AttributeError name).

(** [v[0]] as the bound of a [range]: neither kind of attribute value is a
    tuple of integers. *)
Definition first_dim (v : attr_value) : result nat :=
  match v with
  | AWeights _ => Raise TypeError
  | AFitness _ => Raise TypeError
  end.

Record NeuroEvolution : Type := mkNE {
  population_size : Z;
  mutation_rate : Q;
  n_winners : Z;
  n_parents : Z;
  population : list Actor;
  fittest_individual : option Actor
}.

(** [__init__] then [initialize] without restore; [initial] are the weights
    of the [population_size] networks [actor()] builds. *)
Definition NeuroEvolution_init (population_size : Z) (mutation_rate : Q)
    (initial : list weights) : NeuroEvolution :=
  let n_winners := py_int (inject_Z population_size * (4 # 10)) in
  mkNE population_size mutation_rate n_winners (population_size - n_winners)
       (map (fun v => mkActor v 0) initial) None.

Definition set_population (p : list Actor) (ne : NeuroEvolution) : NeuroEvolution :=
  mkNE (population_size ne) (mutation_rate ne) (n_winners ne) (n_parents ne) p
       (fittest_individual ne).

Definition set_fittest (a : Actor) (ne : NeuroEvolution) : NeuroEvolution :=
  mkNE (population_size ne) (mutation_rate ne) (n_winners ne) (n_parents ne)
       (population ne) (Some a).

(** The methods of [NeuroEvolution] run on the object and the world. *)
Definition NE : Type := (world * NeuroEvolution)%type.

Definition this : py NE NeuroEvolution := fun s => (Ok (snd s), s).

Definition assign (f : NeuroEvolution -> NeuroEvolution) : py NE unit :=
  modify (fun s => (fst s, f (snd s))).

(** [mutate]: the loop bound reads [individual.shape]; the body draws the
    mask and then subscripts the [Actor] itself ([individual[i].shape]).
    Nothing is returned. *)
Definition mutate (individual : Actor) (scale : Q) : py NE unit :=
  shape <- lift (getattr individual "shape") ;;
  count <- lift (first_dim shape) ;;
  ne <- this ;;
  for_each (seq 0 count) (fun i =>
    layer <- lift (py_index (w individual) (Z.of_nat i)) ;;
    mutation_mask <- comprehension layer (fun row =>
                       comprehension row (fun _ =>
                         u <- np_random_rand ;;
                         ret (if Qltb u (mutation_rate ne) then 1%Q else 0%Q))) ;;
    raise TypeError).

Definition inherit_weights (parent child : Actor) : Actor :=
  mkActor (w parent) (fitness child).

(** [dst[:, cutoff:] = src[:, cutoff:]] on one weight tensor. *)
Definition splice_columns (dst src : matrix) (cutoff : Z) : matrix :=
  map (fun rows => py_slice (fst rows) 0 cutoff ++ py_slice_from (snd rows) cutoff)
      (combine dst src).

Definition crossover (parent1 parent2 : Actor) : py NE (Actor * Actor) :=
  let child1 := inherit_weights parent1 (mkActor actor_get_weights 0) in
  let child2 := inherit_weights parent2 (mkActor actor_get_weights 0) in
  shape <- lift (getattr parent1 "shape") ;;
  count <- lift (first_dim shape) ;;
  let fix layers (idx : list nat) (c1 c2 : weights) : py NE (weights * weights) :=
    match idx with
    | [] => ret (c1, c2)
    | i :: rest =>
        p1 <- lift (py_index (w parent1) (Z.of_nat i)) ;;
        p2 <- lift (py_index (w parent2) (Z.of_nat i)) ;;
        cutoff <- np_random_randint 0 (Z.of_nat (length (hd [] p1))) ;;
        c1' <- lift (py_setitem c1 (Z.of_nat i) (splice_columns p1 p2 cutoff)) ;;
        c2' <- lift (py_setitem c2 (Z.of_nat i) (splice_columns p2 p1 cutoff)) ;;
        layers rest c1' c2'
    end in
  ' (c1, c2) <- layers (seq 0 count) (w child1) (w child2) ;;
  ret (mkActor c1 (fitness child1), mkActor c2 (fitness child2)).

(** [np.argsort]: positions in ascending order of the values.  Equal
    values are kept in the order met, as numpy does on up to 16 elements;
    on more, the order numpy leaves among equal values is not specified, and
    nothing below depends on it. *)
Fixpoint insert_by (f : list Q) (i : nat) (sorted : list nat) : list nat :=
  match sorted with
  | [] => [i]
  | j :: rest =>
      if Qltb (nth i f 0%Q) (nth j f 0%Q) then i :: j :: rest
      else j :: insert_by f i rest
  end.

Definition argsort (f : list Q) : list nat :=
  fold_left (fun sorted i => insert_by f i sorted) (seq 0 (length f)) [].

(** [np.abs(fitnesses) / np.sum(np.abs(fitnesses)) * (np.abs(fitnesses) / fitnesses)] *)
Definition signed_scores (fitnesses : list Q) : list Q :=
  let total := Qsum (map Qabs fitnesses) in
  map (fun f => Qabs f / total * (Qabs f / f))%Q fitnesses.

(** A zero fitness makes [np.abs(f) / f] a NaN, and with it every weight. *)
Definition has_nan (fitnesses : list Q) : bool :=
  existsb (fun f => Qeq_bool f 0) fitnesses.

(** [arr += [a, b]] on an array of objects: element-wise addition, which
    needs the shapes to agree and the elements to support [+]. *)
Definition ndarray_iadd (arr : list Actor) (rhs : list unit) : result (list Actor) :=
  if (length arr =? length rhs)%nat then Raise TypeError else Raise ValueError.

(** Lines 98-104 of [evolve]: the sort, the survivors and the draw of the
    parents; returns [next_population] and the positions drawn. *)
Definition select (replace : bool) : py NE (list Actor * list nat) :=
  ne <- this ;;
  let fitnesses := map fitness (population ne) in
  sorted <- lift (rmap (fun i => py_index (population ne) (Z.of_nat i))
                       (rev (argsort fitnesses))) ;;
  assign (set_population sorted) ;;;
  fittest <- lift (py_index sorted 0) ;;
  assign (set_fittest fittest) ;;;
  let next_population := py_slice sorted 0 (n_winners ne) in
  probs <- lift (softmax (signed_scores fitnesses)) ;;
  parents <- (if has_nan fitnesses then raise ValueError
              else np_random_choice (length sorted) (n_parents ne) replace probs) ;;
  ret (next_population, parents).

(** The [for i in range(0, len(parents), 2)] loop. *)
Fixpoint breed (fuel : nat) (i : Z) (sorted : list Actor) (parents : list nat)
    (next_population : list Actor) : py NE (list Actor) :=
  match fuel with
  | O => ret next_population
  | S fuel' =>
      p1 <- lift (py_index parents i) ;;
      p2 <- lift (py_index parents (i + 1)) ;;
      parent1 <- lift (py_index sorted (Z.of_nat p1)) ;;
      parent2 <- lift (py_index sorted (Z.of_nat p2)) ;;
      ' (child1, child2) <- crossover parent1 parent2 ;;
      m1 <- mutate child1 1 ;;
      m2 <- mutate child2 1 ;;
      next_population <- lift (ndarray_iadd next_population [m1; m2]) ;;
      breed fuel' (i + 2) sorted parents next_population
  end.

(** Following the spec's words, not the source: the same selection with the
    parents "drawn with replacement". *)
Definition select_with_replacement : py NE (list Actor * list nat) := select true.

(** [evolve]; the call passes [False] for [replace]. *)
Definition evolve : py NE unit :=
  ' (next_population, parents) <- select false ;;
  ne <- this ;;
  next_population <- breed (Nat.div2 (S (length parents))) 0 (population ne) parents
                       next_population ;;
  assign (set_population next_population).

(** *** [Agent] *)

(** The attributes [build] adds. [self.model] and [self.target_model] each
    hold an actor and a critic. *)
Record fields : Type := mkFields {
  ne : NeuroEvolution;
  epoch : Z;
  actor_w : weights;
  critic_w : weights;
  target_actor_w : weights;
  target_critic_w : weights;
  v_opt_lr : Q
}.

Definition agent : Type := object fields.

(** [build] without restore: [self.gamma = 0.], [self.epoch = 0], the target
    model starts from the model's weights. *)
Definition build (cfg : config) (population : list weights) (actor0 critic0 : weights)
    : fields :=
  mkFields (NeuroEvolution_init 100 (1 # 10) population) 0 actor0 critic0 actor0 critic0
           (lr cfg).

Definition build_gamma (g : Q) : Q := 0.

Definition set_ne (v : NeuroEvolution) (f : fields) : fields :=
  mkFields v (epoch f) (actor_w f) (critic_w f) (target_actor_w f) (target_critic_w f)
           (v_opt_lr f).

Definition set_actor_w (v : weights) (f : fields) : fields :=
  mkFields (ne f) (epoch f) v (critic_w f) (target_actor_w f) (target_critic_w f)
           (v_opt_lr f).

Definition set_critic_w (v : weights) (f : fields) : fields :=
  mkFields (ne f) (epoch f) (actor_w f) v (target_actor_w f) (target_critic_w f)
           (v_opt_lr f).

Definition set_target (a c : weights) (f : fields) : fields :=
  mkFields (ne f) (epoch f) (actor_w f) (critic_w f) a c (v_opt_lr f).

Definition set_v_opt_lr (v : Q) (f : fields) : fields :=
  mkFields (ne f) (epoch f) (actor_w f) (critic_w f) (target_actor_w f) (target_critic_w f) v.

Definition assign_field (f : fields -> fields) : py agent unit :=
  modify (fun o => set_sub (f (sub o)) o).

(** Running a method of [self.ne]. *)
Definition on_ne {A : Type} (c : py NE A) : py agent A :=
  zoom (fun o : agent => (env o, ne (sub o)))
       (fun s o => mkObject (fst s) (self o) (set_ne (snd s) (sub o))) c.

(** [critic.predict_on_batch([states, action])]: the outputs [q1, q2, v] of
    the model [critic] builds. *)
Definition critic_predict (cw : weights) (states : list feature) (action : matrix)
    : list (list Q) :=
  [critic_q1 cw states action; critic_q2 cw states action; critic_v cw states action].

(** [np.array([a[1] for a in memory]).reshape((-1, 2))] *)
Fixpoint pairs (flat : list Q) : result matrix :=
  match flat with
  | [] => Ok []
  | a :: b :: rest => let? m := pairs rest in Ok ([a; b] :: m)
  | [_] => Raise ValueError
  end.

Definition actions_of (memory : list transition) : result matrix :=
  pairs (flat_map (fun t => match t_action t with
                            | IntElem z => [inject_Z z]
                            | FloatElem v => [v]
                            | RowElem r => r
                            end) memory).

Definition zip_with {A B C : Type} (f : A -> B -> C) (a : list A) (b : list B) : list C :=
  map (fun ab => f (fst ab) (snd ab)) (combine a b).

Definition np_mean (v : list Q) : Q := (Qsum v / inject_Z (Z.of_nat (length v)))%Q.

(** An operation entry by entry on two column vectors (shapes (N, 1) and
    (M, 1)): the shapes must agree, or one of the two have a single row,
    which is then used for every row of the other. *)
Definition broadcast (f : Q -> Q -> Q) (a b : list Q) : result (list Q) :=
  if (length a =? length b)%nat then Ok (zip_with f a b)
  else match a, b with
       | [u], _ => Ok (map (f u) b)
       | _, [v] => Ok (map (fun u => f u v) a)
       | _, _ => Raise shape_error
       end.

Definition sample (memory : list transition) : py agent (list Q) :=
  let states := map t_state memory in
  let new_states := map t_next memory in
  actions <- lift (actions_of memory) ;;
  rewards <- lift (returns_of memory) ;;
  o <- get ;;
  ' (q1, q2, _) <- lift (unpack3 (critic_predict (critic_w (sub o)) states actions)) ;;
  q <- lift (broadcast (fun a b => (a + b) / 2)%Q q1 q2) ;;
  ' (_, _, target_v) <- lift (unpack3 (critic_predict (target_critic_w (sub o)) states actions)) ;;
  q_backup <- lift (broadcast (fun r v => r + gamma (self o) * v)%Q rewards target_v) ;;
  lift (broadcast (fun b a => huber_loss b a 4) q_backup q).

(** What [set_weights] may be handed. *)
Inductive weights_arg : Type :=
| OfWeights (v : weights)
| OfActor (a : option Actor).

(** [self.model.actor.set_weights(arg)]: a list of arrays is required. *)
Definition actor_set_weights (arg : weights_arg) : py agent unit :=
  match arg with
  | OfWeights v => assign_field (set_actor_w v)
  | OfActor _ => raise TypeError
  end.

(** [(1 - 0.005) * target + 0.005 * online], element by element. *)
Definition soft_update (target online : weights) : weights :=
  zip_with (zip_with (zip_with (fun t o => (1 - (5 # 1000)) * t + (5 # 1000) * o)%Q))
           target online.

(** The body of [if self.epoch >= 50 and self.epoch % 2 == 0]. *)
Definition evolution (states : list feature) : py agent unit :=
  o <- get ;;
  for_each (py_range 0 (population_size (ne (sub o)))) (fun i =>
    o <- get ;;
    individual <- lift (py_index (population (ne (sub o))) i) ;;
    actor_set_weights (OfWeights (w individual)) ;;;
    o <- get ;;
    let policy := actor_forward (actor_w (sub o)) states in
    ' (q1_pi, q2_pi) <- lift (unpack2 (critic_predict (critic_w (sub o)) states policy)) ;;
    q_pi <- lift (broadcast Qplus q1_pi q2_pi) ;;
    let f := (np_mean q_pi / 2)%Q in
    o <- get ;;
    population' <- lift (py_setitem (population (ne (sub o))) i
                           (mkActor (w individual) f)) ;;
    assign_field (set_ne (set_population population' (ne (sub o))))) ;;;
  on_ne evolve ;;;
  o <- get ;;
  actor_set_weights (OfActor (fittest_individual (ne (sub o)))) ;;;
  o <- get ;;
  let target := soft_update (target_actor_w (sub o) ++ target_critic_w (sub o))
                            (actor_w (sub o) ++ critic_w (sub o)) in
  assign_field (set_target (firstn (length (target_actor_w (sub o))) target)
                           (skipn (length (target_actor_w (sub o))) target)).

Definition evolution_due (epoch : Z) : bool := ((50 <=? epoch) && (epoch mod 2 =? 0))%Z.

Definition train : py agent unit :=
  ' (tree_idx, replay) <- memory_sample 128 ;;
  let states := map t_state replay in
  let new_states := map t_next replay in
  actions <- lift (actions_of replay) ;;
  rewards <- lift (returns_of replay) ;;
  o <- get ;;
  let policy := actor_forward (actor_w (sub o)) states in
  ' (q1_pi, q2_pi, _) <- lift (unpack3 (critic_predict (critic_w (sub o)) states policy)) ;;
  q_pi <- lift (broadcast Qplus q1_pi q2_pi) ;;
  let mean_q_pi := (np_mean q_pi / 2)%Q in
  ' (_, _, target_v) <- lift (unpack3 (critic_predict (target_critic_w (sub o)) new_states actions)) ;;
  ' (q1, q2, v) <- lift (unpack3 (critic_predict (critic_w (sub o)) states actions)) ;;
  q_backup <- lift (broadcast (fun r t => r + gamma (self o) * t)%Q rewards target_v) ;;
  q1_loss <- lift (broadcast (fun b a => huber_loss b a 4) q_backup q1) ;;
  q2_loss <- lift (broadcast (fun b a => huber_loss b a 4) q_backup q2) ;;
  (if evolution_due (epoch (sub o)) then evolution states else ret tt) ;;;
  o <- get ;;
  let gradients := tape_gradient (critic_w (sub o)) states [q_backup] in
  let gradients := map (fun grad => clip_by_value grad (-10) 10) gradients in
  emit (CApplyGradients gradients) ;;;
  assign_field (set_critic_w (apply_gradients (v_opt_lr (sub o)) (critic_w (sub o)) gradients)).

Definition lr_decay (cfg : config) (i : Z) : py agent unit :=
  let lr := (lr cfg * np_pow (1 # 10000) (inject_Z i / 10000000))%Q in
  assign_field (set_v_opt_lr lr).

Definition gamma_updae (i : Z) : py agent unit :=
  modify (fun o => set_self
    (set_gamma (1 - ((8 # 10) + (1 - (8 # 10)) * np_exp (- (1 # 100000) * inject_Z i)))%Q
               (self o)) o).

Definition policy (state : list feature) (i : Z) : py agent ndarray :=
  if (100 <? i)%Z then
    o <- get ;;
    let policy := actor_forward (actor_w (sub o)) state in
    if negb ((i + 1) mod 5 =? 0)%Z then
      let epislon := (if negb (random (self o) mod 5 =? 0)%Z then 1 # 10 else 5 # 10)%Q in
      noise <- np_random_randn (length policy) (length (hd [] policy)) ;;
      let policy := zip_with (zip_with (fun p z => p + epislon * z)%Q) policy noise in
      let epislon := (if negb (random (self o) mod 5 =? 0)%Z then 0 else 5 # 10)%Q in
      policy <- comprehension policy (fun row =>
                  u <- np_random_rand ;;
                  if Qltb epislon u then ret row else box_sample) ;;
      modify (fun o => set_self (set_random (random (self o) + 1) (self o)) o) ;;;
      ret (np_array policy)
    else ret (Mat policy)
  else
    policy <- comprehension state (fun _ => box_sample) ;;
    ret (np_array policy).

(** [save]: the attributes are set and the files written ([CSave]) before
    the copy of the directory to the drive. *)
Definition save (i : Z) : py agent unit :=
  modify (fun o => set_self (set_saved i (self o)) o) ;;;
  emit (CSave i) ;;;
  lift (copy_tree "/content/ne1" "/content/drive/My Drive").

Definition Agent (cfg : config) : methods fields :=
  mkMethods policy sample train (lr_decay cfg) gamma_updae save.

End WithExternals.
End NE1.

(** ** A concrete set of collaborators, to run the model on examples *)

Module Fixture.
Import Base.

(** A buffer that keeps what was stored with its priority. *)
Definition buffer : Type := list (transition * Q).

Definition buffer_sample (m : buffer) (k : Z) (g : RNG)
    : result (list Z * list transition) * RNG :=
  let taken := firstn (Z.to_nat k) m in
  (if (length m =? 0)%nat then Raise ValueError
   else Ok (map Z.of_nat (seq 0 (length taken)), map fst taken), g).

Fixpoint buffer_update (m : buffer) (idx : list Z) (ps : list Q) : buffer :=
  match idx, ps with
  | i :: idx', p :: ps' =>
      match nth_error m (Z.to_nat i) with
      | Some tp => buffer_update (replace_nth (Z.to_nat i) (fst tp, p) m) idx' ps'
      | None => buffer_update m idx' ps'
      end
  | _, _ => m
  end.

(** A reward engine whose [reward] records a gain of one tenth per step. *)
Record engine : Type := mkEngine {
  growth_rate : list Q;
  total_gain : list Q
}.

Definition engine_reward (e : engine) (args : list ndarray) : result engine :=
  Ok (mkEngine [1; 1; 1; 1; 1] [1; 11 # 10; 12 # 10; 13 # 10; 14 # 10]).

(** Networks that answer with the first row of their first weight tensor. *)
Definition first_row (v : weights) : list Q := hd [] (hd [] v).

Definition externals : Externals := {|
  Memory := buffer;
  Memory_new := fun _ => [];
  Memory_store := fun m t p => Ok (m ++ [(t, p)]);
  Memory_sample := buffer_sample;
  Memory_batch_update := fun m idx ps => Ok (buffer_update m idx ps);
  Reward := engine;
  Reward_reward := engine_reward;
  Reward_growth_rate := growth_rate;
  Reward_total_gain := total_gain;
  Reward_reset := fun _ => mkEngine [] [];
  np_exp := fun v => Qpower 2 (Qfloor v);
  np_log := fun v => v - 1;
  np_pow := fun a b => a;
  shape_error := InvalidArgumentError;
  shutil_copy := fun src dst => Ok tt;
  copy_tree := fun src dst => Ok tt;
  dqn_forward := fun v states => map (fun _ => first_row v) states;
  actor_forward := fun v states => map (fun _ => firstn 2 (first_row v)) states;
  critic_q1 := fun v states action => map (fun _ => 1) states;
  critic_q2 := fun v states action => map (fun _ => 3) states;
  critic_v := fun v states action => map (fun _ => 2) states;
  actor_get_weights := [];
  tape_gradient := fun v states target => [[100; -100; 1 # 2]];
  apply_gradients := fun rate v grads => v
|}.

Definition no_draws : RNG := mkRNG [] [] [] [] [].

#[local] Existing Instance externals.

Definition world0 : world := mkWorld no_draws [].

(** 160 rows of market data, windows of 6 rows, n = 3. *)
Definition market : list Q := repeat 1 160.

Definition cfg_of (types : option string) : config :=
  mkConfig 6 3 (1 # 1000) types (repeat [[1; 2]; [3; 4]] 160)
           market market market market market.


Definition attrs0 : attrs := mkAttrs (4 # 10) 0 false None (mkEngine [] []) [].

(** A value-based agent whose network answers [0, 2, 1] on every state. *)
Definition dqn_agent : DQN.agent :=
  mkObject world0 attrs0 (DQN.build [[[0; 2; 1]]] (1 # 1000)).

(** An actor-critic agent as [build] leaves it, with a population of ten. *)
Definition pg_agent : NE1.agent :=
  mkObject world0 (set_gamma (NE1.build_gamma (4 # 10)) attrs0)
           (NE1.build (cfg_of (Some "PG"%string)) (repeat [[[1; 2]]] 10)
                      [[[1 # 2; 1 # 4]]] [[[1]]]).

(** A value-based agent whose online network prefers action 1 and whose
    target network values that action 2 (and another one higher). *)
Definition dqn_agent_double : DQN.agent :=
  mkObject world0 attrs0 (DQN.mkFields [[[0; 2; 1]]] [[[5; 2; 7]]] (1 # 1000)).

(** The value-based agent after a call of the reward engine. *)
Definition dqn_agent_rewarded : DQN.agent :=
  mkObject world0
           (set_rewards (mkEngine [1; 1; 1; 1; 1] [1; 11 # 10; 12 # 10; 13 # 10; 14 # 10]) attrs0)
           (DQN.build [[[0; 2; 1]]] (1 # 1000)).

(** The actor-critic agent with other draws ahead in the action space's
    generator. *)
Definition pg_agent_other_draws : NE1.agent :=
  mkObject (mkWorld (mkRNG [] [] [] [[1; 1]] []) []) (self pg_agent) (sub pg_agent).

(** A population of ten with the fitnesses 1 to 10, each individual
    recognisable by its weights. *)
Definition population10 : list NE1.Actor :=
  map (fun k => NE1.mkActor [[[inject_Z k]]] (inject_Z k)) (py_range 1 11).

Definition ne10 : NE1.NeuroEvolution :=
  NE1.set_population population10 (NE1.NeuroEvolution_init 10 (1 # 10) (repeat [] 10)).

(** A world in which the next draw of positions is six times position 0. *)
Definition world_repeated_pick : world :=
  mkWorld (mkRNG [] [] [] [] [[0; 0; 0; 0; 0; 0]%nat]) [].

End Fixture.

(** [np.sign] *)
Definition Qsign (f : Q) : Q :=
  if Qltb 0 f then 1 else if Qltb f 0 then - (1) else 0.

(** ** The local [reset] along the loop *)

(** [reset] at the start of the [j]-th iteration the loop runs (counted from
    0), as long as no iteration raised. *)
Definition reset_at (j : nat) : Z := Nat.iter j Base.next_reset 0%Z.

(** What [loss] leaves at position [i]: the row of [q] with the entry of the
    action taken replaced by the backup. *)
Definition backed_up (gamma : Q) (rewards : list Q) (actions : list elem)
    (target_q arg_q : matrix) (i : nat) (old row : list Q) : Prop :=
  exists (r tv : Q) (a best : nat) (arow trow : list Q),
    nth_error rewards i = Some r
    /\ nth_error actions i = Some (IntElem (Z.of_nat a))
    /\ nth_error arg_q i = Some arow
    /\ argmax arow = Ok (Z.of_nat best)
    /\ nth_error target_q i = Some trow
    /\ nth_error trow best = Some tv
    /\ (a < length old)%nat
    /\ row = replace_nth a (r + gamma * tv)%Q old.

(** ** Frames *)

(** [c] keeps the state related by [I] to the one it started in, whether it
    returns or raises. *)
Definition preserves {S A : Type} (I : S -> S -> Prop) (c : py S A) : Prop :=
  forall s, I s (snd (c s)).

(** [I] does not look at the random sources. *)
Class BlindToDraws {S : Type} {HW : Base.HasWorld S} (I : S -> S -> Prop) : Prop :=
  blind_to_draws :
    forall (s : S) (g : RNG), I s (Base.set_world (Base.mkWorld g (Base.log (Base.get_world s))) s).

(** Gradients within the clipping range. *)
Definition clipped (grads : list (list Q)) : Prop :=
  Forall (Forall (fun v => (- (10) <= v)%Q /\ (v <= 10)%Q)) grads.

(** The frame of the population search inside [train]: the base attributes
    (the replay buffer among them) and the log of calls. *)
Definition same_base {E : Base.Externals} (o o' : NE1.agent) : Prop :=
  Base.self o' = Base.self o /\ Base.log (Base.env o') = Base.log (Base.env o).

Definition same_log {E : Base.Externals} (s s' : NE1.NE) : Prop :=
  Base.log (fst s') = Base.log (fst s).

(** ** Sequences of calls on the actor-critic agent *)

(** A call of one of the agent's methods, as the loop or any other caller
    makes it. *)
Inductive method_call : Type :=
| CallPolicy (state : list feature) (i : Z)
| CallSample (memory : list Base.transition)
| CallTrain
| CallLrDecay (i : Z)
| CallGammaUpdate (i : Z)
| CallSave (i : Z).

(** The agent after the call, whether it returned or raised. *)
Definition perform {E : Base.Externals} (cfg : Base.config) (c : method_call)
    (o : NE1.agent) : NE1.agent :=
  match c with
  | CallPolicy state i => snd (NE1.policy state i o)
  | CallSample memory => snd (NE1.sample memory o)
  | CallTrain => snd (NE1.train o)
  | CallLrDecay i => snd (NE1.lr_decay cfg i o)
  | CallGammaUpdate i => snd (NE1.gamma_updae i o)
  | CallSave i => snd (NE1.save i o)
  end.

Definition after_calls {E : Base.Externals} (cfg : Base.config)
    (calls : list method_call) (o : NE1.agent) : NE1.agent :=
  fold_left (fun o c => perform cfg c o) calls o.

(** ** Sequences of calls on the value-based agent *)

Definition dqn_perform {E : Base.Externals} (cfg : Base.config) (c : method_call)
    (o : DQN.agent) : DQN.agent :=
  match c with
  | CallPolicy state i => snd (DQN.policy state i o)
  | CallSample memory => snd (DQN.sample memory o)
  | CallTrain => snd (DQN.train o)
  | CallLrDecay i => snd (DQN.lr_decay cfg i o)
  | CallGammaUpdate i => snd (DQN.gamma_updae i o)
  | CallSave i => snd (DQN.save i o)
  end.

Definition dqn_after_calls {E : Base.Externals} (cfg : Base.config)
    (calls : list method_call) (o : DQN.agent) : DQN.agent :=
  fold_left (fun o c => dqn_perform cfg c o) calls o.

(** The attributes the subclass added are the same. *)
Definition same_sub {E : Base.Externals} (o o' : NE1.agent) : Prop :=
  Base.sub o' = Base.sub o.

(** What no call changes while the population search is not due. *)
Definition untouched {E : Base.Externals} (o o' : NE1.agent) : Prop :=
  NE1.epoch (Base.sub o') = NE1.epoch (Base.sub o)
  /\ NE1.ne (Base.sub o') = NE1.ne (Base.sub o)
  /\ NE1.actor_w (Base.sub o') = NE1.actor_w (Base.sub o)
  /\ NE1.target_actor_w (Base.sub o') = NE1.target_actor_w (Base.sub o)
  /\ NE1.target_critic_w (Base.sub o') = NE1.target_critic_w (Base.sub o).

(** ** Gains whose ratios have a logarithm *)

(** Every gain of [gains] divided by the one before it ([prev] before the
    first) is a positive number. *)
Fixpoint ratios_positive (prev : Q) (gains : list Q) : Prop :=
  match gains with
  | [] => True
  | r :: rest => (~ (prev == 0)%Q /\ (0 < r / prev)%Q) /\ ratios_positive r rest
  end.

(** The ratios [total_gain[k] / total_gain[k - 1]], for k >= 1. *)
Definition positive_ratios (total_gain : list Q) : Prop :=
  match total_gain with
  | [] => True
  | g0 :: rest => ratios_positive g0 rest
  end.

(** ** What the value-based agent's methods leave alone *)

(** The target network and the discount are the same. *)
Definition same_target {E : Base.Externals} (o o' : DQN.agent) : Prop :=
  DQN.target_model (Base.sub o') = DQN.target_model (Base.sub o)
  /\ Base.gamma (Base.self o') = Base.gamma (Base.self o).

(** [o'] is [o] with other draws ahead in its random sources. *)
Definition drew {E : Base.Externals} {Sub : Type} (o o' : Base.object Sub) : Prop :=
  exists g, o' = Base.set_env (Base.mkWorld g (Base.log (Base.env o))) o.

(** ** Saving *)

(** [M] with another [save]. *)
Definition with_save {E : Base.Externals} {Sub : Type} (M : Base.methods Sub)
    (save' : Z -> py (Base.object Sub) unit) : Base.methods Sub :=
  Base.mkMethods (Base.policy M) (Base.sample M) (Base.train M) (Base.lr_decay M)
                 (Base.gamma_updae M) save'.

(** The agent once [save(i)] has set [restore] and [i] and written its
    files. *)
Definition saved {E : Base.Externals} {Sub : Type} (i : Z) (o : Base.object Sub)
    : Base.object Sub :=
  Base.mkObject (Base.mkWorld (Base.rng (Base.env o)) (Base.log (Base.env o) ++ [Base.CSave i]))
                (Base.set_saved i (Base.self o)) (Base.sub o).

(** The agent once the loop has called [self.rewards.reset()]. *)
Definition rewards_reset {E : Base.Externals} {Sub : Type} (o : Base.object Sub)
    : Base.object Sub :=
  Base.mkObject (Base.mkWorld (Base.rng (Base.env o))
                              (Base.log (Base.env o) ++ [Base.CRewardReset]))
                (Base.set_rewards (Base.Reward_reset (Base.rewards (Base.self o)))
                                  (Base.self o))
                (Base.sub o).

(** The outcome [y] of an iteration is the outcome [x] of the iteration
    without [save], with [save(i)] called just before the reset of the
    reward engine. *)
Definition saved_before_reset {E : Base.Externals} {Sub : Type} (M : Base.methods Sub)
    (i : Z) (x y : result (Z * Z) * Base.object Sub) : Prop :=
  match x with
  | (Ok loc', o_skip) =>
      exists o1,
        o_skip = rewards_reset o1
        /\ y = match Base.save M i o1 with
               | (Ok _, o2) => (Ok loc', rewards_reset o2)
               | (Raise e, o2) => (Raise e, o2)
               end
  | (Raise e, o_e) => y = (Raise e, o_e)
  end.

(** * Properties *)

Import Base.
Unset Implicit Arguments.

(** ** Sequences *)

Lemma py_range_0 (k : nat) : py_range 0 (Z.of_nat k) = map Z.of_nat (seq 0 k).
Proof.
  unfold py_range. rewrite Z.sub_0_r, Nat2Z.id. apply map_ext. intros a. lia.
Qed.

(** ** The n-step accumulator *)

Lemma nstep_loop_snoc (xs : list Q) (v d : Q) (r : pyr) :
  snd (nstep_loop (xs ++ [v]) d r) = PNum v.
Proof.
  revert d r. induction xs as [| a xs IH]; intros d r; simpl; [reflexivity | apply IH].
Qed.

(** On a slice that is not empty [nstep] returns its last element. *)
Lemma nstep_last (xs : list Q) (v : Q) : nstep (xs ++ [v]) = PNum v.
Proof. unfold nstep. apply nstep_loop_snoc. Qed.

Lemma nstep_loop_sum (xs : list Q) (d : Q) (r : pyr) :
  (fst (nstep_loop xs d r) == d + (99 # 100) * Qsum xs)%Q.
Proof.
  revert d r. induction xs as [| a xs IH]; intros d r; simpl.
  - ring.
  - rewrite IH. ring.
Qed.

(** The sum the spec describes is what the local [discount_r] holds. *)
Lemma nstep_discount_r_sum (xs : list Q) :
  (nstep_discount_r xs == (99 # 100) * Qsum xs)%Q.
Proof. unfold nstep_discount_r. rewrite nstep_loop_sum. ring. Qed.

(** C1 (the code departs from the claim).  For the rewards [0, 1, 2, 3, 4]
    and n = 3 the loop of [run] emits the transitions for tau = 0 and
    tau = 1; [nstep] accumulates 0.99 * 1 + 0.99 * 2 = 2.97 and
    0.99 * 2 + 0.99 * 3 = 4.95 in [discount_r] but returns [r], the last
    reward of the slice: the returns stored are 2 and 3, further than 1e-6
    from the sums the claim states.  On every slice that is not empty
    [nstep] returns the last reward, while [discount_r] holds 0.99 times the
    sum of the slice. *)
Theorem nstep_returns_last_reward_not_sum :
  forall (f0 f1 f2 f3 f4 : feature) (q0 q1 q2 q3 q4 : Z),
    nstep_transitions 3 5 [f0; f1; f2; f3; f4]
                      (Some (IntVec [q0; q1; q2; q3; q4])) [0; 1; 2; 3; 4]
    = Ok [mkTransition f0 (IntElem q0) (PNum 2) f3;
          mkTransition f1 (IntElem q1) (PNum 3) f4]
    /\ (forall (xs : list Q) (v : Q),
          nstep (xs ++ [v]) = PNum v
          /\ (nstep_discount_r (xs ++ [v]) == (99 # 100) * Qsum (xs ++ [v]))%Q)
    /\ nstep [1; 2] = PNum 2 /\ nstep [2; 3] = PNum 3
    /\ (nstep_discount_r [1; 2] == 297 # 100)%Q
    /\ (nstep_discount_r [2; 3] == 495 # 100)%Q
    /\ ~ (Qabs (2 - (297 # 100)) <= 1 # 1000000)%Q
    /\ ~ (Qabs (3 - (495 # 100)) <= 1 # 1000000)%Q.
Proof.
  intros. split; [reflexivity |]. split.
  { intros xs v. split; [apply nstep_last | apply nstep_discount_r_sum]. }
  repeat split; try reflexivity; intros H; vm_compute in H; apply H; reflexivity.
Qed.

(** ** The buffer reset *)

Lemma reset_at_closed (j : nat) :
  reset_at (S j) = (Z.of_nat j mod 9999 + 1)%Z.
Proof.
  induction j as [| j IH].
  - reflexivity.
  - change (reset_at (S (S j))) with (next_reset (reset_at (S j))).
    rewrite IH. unfold next_reset, rebuild_due.
    rewrite Nat2Z.inj_succ.
    pose proof (Z.mod_pos_bound (Z.of_nat j) 9999 ltac:(lia)) as Hb.
    destruct (Z.eq_dec (Z.of_nat j mod 9999) 9998) as [H9 | H9].
    + rewrite H9. simpl.
      assert (Z.succ (Z.of_nat j) mod 9999 = 0)%Z as ->; [| reflexivity].
      apply Z.mod_divide; [lia |].
      exists (Z.of_nat j / 9999 + 1)%Z.
      pose proof (Z.div_mod (Z.of_nat j) 9999 ltac:(lia)). lia.
    + assert (((Z.of_nat j mod 9999 + 1 + 1) mod 10000 =? 0) = false)%Z as ->.
      { apply Z.eqb_neq. rewrite Z.mod_small; lia. }
      assert (Z.succ (Z.of_nat j) mod 9999 = Z.of_nat j mod 9999 + 1)%Z as ->; [| reflexivity].
      symmetry. apply Z.mod_unique_pos with (q := (Z.of_nat j / 9999)%Z); [lia |].
      pose proof (Z.div_mod (Z.of_nat j) 9999 ltac:(lia)). lia.
Qed.

(** The buffer is rebuilt in the iterations whose number, counted from the
    start of the loop, is a positive multiple of 9999. *)
Lemma rebuild_due_closed (j : nat) :
  rebuild_due (reset_at j) = (0 <? j)%nat && (Z.of_nat j mod 9999 =? 0)%Z.
Proof.
  destruct j as [| j]; [reflexivity |].
  rewrite reset_at_closed. unfold rebuild_due. rewrite Nat2Z.inj_succ.
  change (0 <? S j)%nat with true. cbn [andb].
  pose proof (Z.mod_pos_bound (Z.of_nat j) 9999 ltac:(lia)) as Hb.
  pose proof (Z.div_mod (Z.of_nat j) 9999 ltac:(lia)) as Hd.
  destruct (Z.eq_dec (Z.of_nat j mod 9999) 9998) as [H9 | H9].
  - rewrite H9. simpl. symmetry. apply Z.eqb_eq.
    apply Z.mod_divide; [lia |]. exists (Z.of_nat j / 9999 + 1)%Z. lia.
  - transitivity false.
    + apply Z.eqb_neq. rewrite Z.mod_small; lia.
    + symmetry. apply Z.eqb_neq.
      rewrite <- (Z.mod_unique_pos (Z.succ (Z.of_nat j)) 9999 (Z.of_nat j / 9999)
                    (Z.of_nat j mod 9999 + 1)); lia.
Qed.

(** ** Reasoning about code that may raise *)

Lemma bind_ok {S A B : Type} (c : py S A) (k : A -> py S B) (s s2 : S) (b : B) :
  bind c k s = (Ok b, s2) -> exists a s1, c s = (Ok a, s1) /\ k a s1 = (Ok b, s2).
Proof.
  unfold bind. destruct (c s) as [[a | e] s1]; intros H.
  - exists a, s1. split; [reflexivity | exact H].
  - discriminate.
Qed.

Lemma bind_raise_first {S A B : Type} (c : py S A) (k : A -> py S B) (s s1 : S) (e : exn) :
  c s = (Raise e, s1) -> bind c k s = (Raise e, s1).
Proof. unfold bind. intros ->. reflexivity. Qed.

Lemma bind_ok_first {S A B : Type} (c : py S A) (k : A -> py S B) (s s1 : S) (a : A) :
  c s = (Ok a, s1) -> bind c k s = k a s1.
Proof. unfold bind. intros ->. reflexivity. Qed.

Lemma rbind_ok {A B : Type} (c : result A) (k : A -> result B) (b : B) :
  rbind c k = Ok b -> exists a, c = Ok a /\ k a = Ok b.
Proof.
  destruct c as [a | e]; simpl; intros H; [exists a; auto | discriminate].
Qed.

Ltac bind_inv H :=
  let a := fresh "a" in
  let s := fresh "s" in
  let Hc := fresh "Hc" in
  apply bind_ok in H; destruct H as (a & s & Hc & H).

(** ** The buffer reset, in the loop *)

Section LoopFacts.
Context {E : Externals} {Sub : Type}.
Variable M : methods Sub.
Variable cfg : config.

Lemma rebuild_effect (reset : Z) (o : object Sub) :
  rebuild reset o =
  if rebuild_due reset
  then (Ok 0%Z,
        mkObject (mkWorld (rng (env o)) (log (env o) ++ [CMemoryNew 5000000]))
                 (set_memory (Memory_new 5000000) (self o)) (sub o))
  else (Ok reset, o).
Proof.
  unfold rebuild. destruct (rebuild_due reset); reflexivity.
Qed.

Lemma run_iter_next_reset (i reset h reset' h' : Z) (o o' : object Sub) :
  run_iter M cfg i (reset, h) o = (Ok (reset', h'), o') -> reset' = next_reset reset.
Proof.
  unfold run_iter. intros H.
  bind_inv H. bind_inv H. destruct a0 as [action q].
  bind_inv H. rename a0 into reset1.
  rewrite rebuild_effect in Hc1.
  assert (reset1 = if rebuild_due reset then 0%Z else reset) as Hr.
  { destruct (rebuild_due reset); inversion Hc1; reflexivity. }
  do 7 bind_inv H.
  unfold ret in H. inversion H. subst. reflexivity.
Qed.

Lemma run_loop_reset (iters : list Z) :
  forall (reset h reset' h' : Z) (o o' : object Sub),
    run_loop M cfg iters (reset, h) o = (Ok (reset', h'), o') ->
    reset' = Nat.iter (length iters) next_reset reset.
Proof.
  induction iters as [| i iters IH]; intros reset h reset' h' o o' H; simpl in H.
  - inversion H. reflexivity.
  - bind_inv H. destruct a as [r1 h1].
    apply run_iter_next_reset in Hc. apply IH in H. subst.
    simpl. rewrite <- Nat.iter_succ_r. reflexivity.
Qed.

End LoopFacts.

(** C7 (the code departs from the claim).  The local [reset] is set to 0
    when the buffer is rebuilt and incremented at the end of the same
    iteration, so a loop started at [reset = 0] rebuilds the buffer (capacity
    5,000,000) in its iterations number 9999 and 19998 (counted from 0) and
    not in iteration 19999: after the first 10,000 iterations the period is
    9,999, not 10,000.  In general the buffer is rebuilt exactly in the
    iterations whose number is a positive multiple of 9999; [reset_at] is
    the value of the loop's local after that many iterations that ran to
    their end. *)
Theorem buffer_rebuilt_every_9999_iterations :
  rebuild_due (reset_at (Z.to_nat 9999)) = true
  /\ rebuild_due (reset_at (Z.to_nat 19998)) = true
  /\ rebuild_due (reset_at (Z.to_nat 19999)) = false
  /\ (forall j : nat,
        rebuild_due (reset_at j) = (0 <? j)%nat && (Z.of_nat j mod 9999 =? 0)%Z)
  /\ (forall (E : Externals) (Sub : Type) (M : methods Sub) (cfg : config)
             (iters : list Z) (h : Z) (o : object Sub),
        match run_loop M cfg iters (0%Z, h) o with
        | (Ok (reset', _), _) => reset' = reset_at (length iters)
        | (Raise _, _) => True
        end)
  /\ (forall (E : Externals) (Sub : Type) (reset : Z) (o : object Sub),
        rebuild reset o =
        if rebuild_due reset
        then (Ok 0%Z,
              mkObject (mkWorld (rng (env o)) (log (env o) ++ [CMemoryNew 5000000]))
                       (set_memory (Memory_new 5000000) (self o)) (sub o))
        else (Ok reset, o)).
Proof.
  split; [rewrite rebuild_due_closed; reflexivity |].
  split; [rewrite rebuild_due_closed; reflexivity |].
  split; [rewrite rebuild_due_closed; reflexivity |].
  split; [exact rebuild_due_closed |].
  split.
  - intros E Sub M cfg iters h o.
    destruct (run_loop M cfg iters (0%Z, h) o) as [[[reset' h'] | e] o'] eqn:H; [| exact I].
    apply run_loop_reset in H. exact H.
  - intros E Sub reset o. apply rebuild_effect.
Qed.

(** ** The evaluation iterations store nothing *)

(** C10.  In an iteration with (i + 1) % 5 == 0 the storage phase of the
    loop (lines 146-171) does nothing: it returns normally and leaves the
    whole agent object, the replay buffer and the log of calls included, as
    it found it. *)
Theorem evaluation_iteration_stores_nothing :
  forall (E : Externals) (Sub : Type) (M : methods Sub) (cfg : config) (i : Z)
         (q : option ndarray) (df : list feature) (trend : list Q) (o : object Sub),
    ((i + 1) mod 5 = 0)%Z ->
    memory_append M cfg i q df trend o = (Ok tt, o).
Proof.
  intros E Sub M cfg i q df trend o Hi.
  unfold memory_append, bind, get.
  apply Z.eqb_eq in Hi. rewrite Hi. reflexivity.
Qed.

(** ** The actor-critic branch of the loop *)


Lemma rmap_ok {A B : Type} (f : A -> result B) (l : list A) :
  Forall (fun a => exists b, f a = Ok b) l -> exists l', rmap f l = Ok l'.
Proof.
  induction 1 as [| a l [b Hb] _ [l' IH]]; simpl.
  - eauto.
  - rewrite Hb, IH. simpl. eauto.
Qed.

Lemma py_index_in_range {A : Type} (l : list A) (k : nat) :
  (k < length l)%nat -> exists v, py_index l (Z.of_nat k) = Ok v /\ nth_error l k = Some v.
Proof.
  intros Hk. unfold py_index.
  assert ((Z.of_nat k <? 0) = false)%Z as -> by (apply Z.ltb_ge; lia).
  assert ((Z.of_nat k <? 0) || (Z.of_nat (length l) <=? Z.of_nat k) = false)%Z as ->.
  { apply orb_false_intro; [apply Z.ltb_ge | apply Z.leb_gt]; lia. }
  rewrite Nat2Z.id.
  destruct (nth_error l k) as [v |] eqn:Hn; [eauto |].
  apply nth_error_None in Hn. lia.
Qed.

Lemma rmap_map {A B : Type} (f : A -> result B) (g : A -> B) (l : list A) :
  Forall (fun a => f a = Ok (g a)) l -> rmap f l = Ok (map g l).
Proof.
  induction 1 as [| a l Ha _ IH]; simpl; [reflexivity |].
  rewrite Ha, IH. reflexivity.
Qed.

Lemma column_of_matrix (m : matrix) (j : nat) :
  Forall (fun row => (j < length row)%nat) m ->
  column (Mat m) (Z.of_nat j) = Ok (map (fun row => nth j row 0%Q) m).
Proof.
  intros Hm. unfold column. apply rmap_map.
  eapply Forall_impl; [| exact Hm]. intros row Hr. cbv beta in Hr.
  destruct (py_index_in_range row j Hr) as (v & Hv & Hn).
  rewrite Hv. f_equal. symmetry. apply nth_error_nth. exact Hn.
Qed.





Section PgBranch.
Context {E : Externals} {Sub : Type}.
Variable M : methods Sub.
Variable cfg : config.
Hypothesis types_PG : types cfg = Some "PG"%string.


End PgBranch.




Lemma evaluation_iteration_stores_nothing_witness :
  ((4 + 1) mod 5 = 0)%Z
  /\ memory_append (E := Fixture.externals)
       (DQN.Agent (Fixture.cfg_of (Some "DQN"%string))) (Fixture.cfg_of (Some "DQN"%string))
       4 (Some (IntVec [1; 1; 1; 1; 1; 1]%Z)) (repeat [[1; 2]; [3; 4]] 6) (repeat 1 6)
       Fixture.dqn_agent_rewarded
     = (Ok tt, Fixture.dqn_agent_rewarded).
Proof.
  split; [reflexivity |].
  apply (evaluation_iteration_stores_nothing Fixture.externals).
  reflexivity.
Defined.

(** The same phase in the iteration before stores three transitions. *)
Example training_iteration_stores :
  List.length
    (memory (self (snd (memory_append (E := Fixture.externals)
       (DQN.Agent (Fixture.cfg_of (Some "DQN"%string))) (Fixture.cfg_of (Some "DQN"%string))
       3 (Some (IntVec [1; 1; 1; 1; 1; 1]%Z)) (repeat [[1; 2]; [3; 4]] 6) (repeat 1 6)
       Fixture.dqn_agent_rewarded)))) = 3%nat.
Proof. vm_compute. reflexivity. Qed.

(** ** Determinism of [policy] on the evaluation iterations *)

Lemma dqn_policy_evaluation (E : Externals) (state : list feature) (i : Z) (o : DQN.agent) :
  ((i + 1) mod 5 = 0)%Z ->
  DQN.policy state i o =
  (match rmap argmax (dqn_forward (DQN.model (sub o)) state) with
   | Ok action => Ok (IntVec action)
   | Raise e => Raise e
   end, o).
Proof.
  intros Hi. unfold DQN.policy, bind, get, lift, ret.
  apply Z.eqb_eq in Hi. rewrite Hi. simpl.
  destruct (rmap argmax (dqn_forward (DQN.model (sub o)) state)); reflexivity.
Qed.

Lemma pg_policy_evaluation (E : Externals) (state : list feature) (i : Z) (o : NE1.agent) :
  ((i + 1) mod 5 = 0)%Z -> (100 < i)%Z ->
  NE1.policy state i o = (Ok (Mat (actor_forward (NE1.actor_w (sub o)) state)), o).
Proof.
  intros Hi Hw. unfold NE1.policy, bind, get, ret.
  apply Z.eqb_eq in Hi. apply Z.ltb_lt in Hw. rewrite Hi, Hw. reflexivity.
Qed.

(** C8, as amended.  On an iteration with (i + 1) % 5 == 0 the value-based
    [policy] is a function of the state and of the online network's weights
    alone, and so is the actor-critic [policy] once i > 100: the action does
    not depend on the random sources nor on any other attribute, and the
    call leaves the agent as it was. *)
Theorem policy_deterministic_on_evaluation_iterations :
  forall (E : Externals) (state : list feature) (i : Z),
    ((i + 1) mod 5 = 0)%Z ->
    (forall o1 o2 : DQN.agent,
        DQN.model (sub o1) = DQN.model (sub o2) ->
        fst (DQN.policy state i o1) = fst (DQN.policy state i o2)
        /\ snd (DQN.policy state i o1) = o1)
    /\ ((100 < i)%Z ->
        forall a1 a2 : NE1.agent,
          NE1.actor_w (sub a1) = NE1.actor_w (sub a2) ->
          fst (NE1.policy state i a1) = fst (NE1.policy state i a2)
          /\ snd (NE1.policy state i a1) = a1).
Proof.
  intros E state i Hi. split.
  - intros o1 o2 Hw. rewrite !dqn_policy_evaluation by exact Hi.
    simpl. rewrite Hw. split; reflexivity.
  - intros Hwarm a1 a2 Hw. rewrite !pg_policy_evaluation by assumption.
    simpl. rewrite Hw. split; reflexivity.
Qed.

Lemma policy_deterministic_on_evaluation_iterations_witness :
  ((104 + 1) mod 5 = 0)%Z
  /\ fst (NE1.policy (E := Fixture.externals) [[[1; 2]; [3; 4]]] 104 Fixture.pg_agent)
     = fst (NE1.policy (E := Fixture.externals) [[[1; 2]; [3; 4]]] 104
              Fixture.pg_agent_other_draws)
  /\ fst (DQN.policy (E := Fixture.externals) [[[1; 2]; [3; 4]]] 104 Fixture.dqn_agent)
     = fst (DQN.policy (E := Fixture.externals) [[[1; 2]; [3; 4]]] 104
              Fixture.dqn_agent_rewarded).
Proof.
  split; [reflexivity |].
  destruct (policy_deterministic_on_evaluation_iterations Fixture.externals
              [[[1; 2]; [3; 4]]] 104 eq_refl) as [Hd Hp].
  split.
  - exact (proj1 (Hp eq_refl Fixture.pg_agent Fixture.pg_agent_other_draws eq_refl)).
  - exact (proj1 (Hd Fixture.dqn_agent Fixture.dqn_agent_rewarded eq_refl)).
Defined.

(** C8 as stated fails for the actor-critic variant: in iteration 4, an
    iteration with (i + 1) % 5 == 0, the guard [i > 100] sends [policy] to
    the branch sampling the action space, and two agents with the same
    weights and the same state get different actions. *)
Lemma pg_policy_random_at_iteration_4 :
  ((4 + 1) mod 5 = 0)%Z
  /\ sub Fixture.pg_agent = sub Fixture.pg_agent_other_draws
  /\ self Fixture.pg_agent = self Fixture.pg_agent_other_draws
  /\ fst (NE1.policy (E := Fixture.externals) [[[1; 2]; [3; 4]]] 4 Fixture.pg_agent)
     = Ok (Mat [[0; 0]])
  /\ fst (NE1.policy (E := Fixture.externals) [[[1; 2]; [3; 4]]] 4
            Fixture.pg_agent_other_draws)
     = Ok (Mat [[1; 1]]).
Proof. repeat split. Qed.

(** ** The double-DQN backup *)

Section ListFacts.
Context {A : Type}.

Lemma py_index_nth_error (l : list A) (k : nat) (v : A) :
  nth_error l k = Some v -> py_index l (Z.of_nat k) = Ok v.
Proof.
  intros Hn.
  assert (k < length l)%nat as Hk by (apply nth_error_Some; congruence).
  destruct (py_index_in_range l k Hk) as (u & Hu & Hn'). congruence.
Qed.

Lemma length_replace_nth (k : nat) (v : A) (l : list A) :
  length (replace_nth k v l) = length l.
Proof.
  revert k. induction l as [| a l IH]; intros [| k]; simpl; auto.
Qed.

Lemma nth_error_replace_nth_same (k : nat) (v : A) (l : list A) :
  (k < length l)%nat -> nth_error (replace_nth k v l) k = Some v.
Proof.
  revert k. induction l as [| a l IH]; intros [| k] Hk; simpl in *; try lia; auto.
  apply IH. lia.
Qed.

Lemma nth_error_replace_nth_other (k j : nat) (v : A) (l : list A) :
  j <> k -> nth_error (replace_nth k v l) j = nth_error l j.
Proof.
  revert k j.
  induction l as [| a l IH]; intros [| k] [| j] Hjk; simpl; try reflexivity; try congruence.
  apply IH. congruence.
Qed.

Lemma py_setitem_in_range (l : list A) (k : nat) (v : A) :
  (k < length l)%nat -> py_setitem l (Z.of_nat k) v = Ok (replace_nth k v l).
Proof.
  intros Hk. unfold py_setitem.
  assert ((Z.of_nat k <? 0) = false)%Z as -> by (apply Z.ltb_ge; lia).
  assert ((Z.of_nat k <? 0) || (Z.of_nat (length l) <=? Z.of_nat k) = false)%Z as ->.
  { apply orb_false_intro; [apply Z.ltb_ge | apply Z.leb_gt]; lia. }
  rewrite Nat2Z.id. reflexivity.
Qed.

Lemma Forall_nth_error (P : A -> Prop) (l : list A) (k : nat) (v : A) :
  Forall P l -> nth_error l k = Some v -> P v.
Proof.
  intros HF Hn. rewrite Forall_forall in HF. apply HF. eapply nth_error_In. exact Hn.
Qed.

Lemma Forall_replace_nth (P : A -> Prop) (l : list A) (k : nat) (v : A) :
  Forall P l -> P v -> Forall P (replace_nth k v l).
Proof.
  intros HF Hv. revert k. induction HF as [| a l Ha HF IH]; intros [| k]; simpl; auto.
Qed.
End ListFacts.

Lemma argmax_from_bound (xs : list Q) :
  forall (best : Q) (besti k : nat),
    (besti < k)%nat -> (argmax_from best besti k xs < k + length xs)%nat.
Proof.
  induction xs as [| v xs IH]; intros best besti k Hb; simpl.
  - lia.
  - destruct (Qltb best v).
    + specialize (IH v k (S k) ltac:(lia)). lia.
    + specialize (IH best besti (S k) ltac:(lia)). lia.
Qed.

(** [np.argmax] of a row that is not empty is a position of the row. *)
Lemma argmax_in_row (row : list Q) :
  (0 < length row)%nat ->
  exists best, argmax row = Ok (Z.of_nat best) /\ (best < length row)%nat.
Proof.
  destruct row as [| v xs]; simpl; intros Hl; [lia |].
  exists (argmax_from v 0 1 xs). split; [reflexivity |].
  pose proof (argmax_from_bound xs v 0%nat 1%nat ltac:(lia)). lia.
Qed.

Section BackupLoop.
Variables (gamma : Q) (rewards : list Q) (actions : list elem) (target_q arg_q : matrix).
Variable cols : nat.
Hypothesis cols_pos : (0 < cols)%nat.
Hypothesis target_rows : length target_q = length rewards.
Hypothesis arg_rows : length arg_q = length rewards.
Hypothesis action_rows : length actions = length rewards.
Hypothesis target_cols : Forall (fun row => length row = cols) target_q.
Hypothesis arg_cols : Forall (fun row => length row = cols) arg_q.
Hypothesis action_range :
  Forall (fun a => exists k, a = IntElem (Z.of_nat k) /\ (k < cols)%nat) actions.

Lemma backup_loop_spec (k : nat) :
  forall (a : nat) (qb : matrix),
    (a + k <= length rewards)%nat ->
    length qb = length rewards ->
    Forall (fun row => length row = cols) qb ->
    exists qb',
      DQN.backup_loop (map Z.of_nat (seq a k)) gamma rewards actions target_q arg_q qb
      = Ok qb'
      /\ length qb' = length rewards
      /\ Forall (fun row => length row = cols) qb'
      /\ (forall j, (j < a \/ a + k <= j)%nat -> nth_error qb' j = nth_error qb j)
      /\ (forall j, (a <= j < a + k)%nat ->
            exists old row, nth_error qb j = Some old /\ nth_error qb' j = Some row
                            /\ backed_up gamma rewards actions target_q arg_q j old row).
Proof.
  induction k as [| k IH]; intros a qb Hak Hlen Hcols.
  - exists qb. simpl. repeat split; auto. intros j Hj. lia.
  - cbn [seq map DQN.backup_loop].
    destruct (py_index_in_range rewards a ltac:(lia)) as (r & Hr & Hrn).
    destruct (py_index_in_range arg_q a ltac:(lia)) as (arow & Harow & Harown).
    destruct (py_index_in_range target_q a ltac:(lia)) as (trow & Htrow & Htrown).
    destruct (py_index_in_range actions a ltac:(lia)) as (act & Hact & Hactn).
    destruct (py_index_in_range qb a ltac:(lia)) as (old & Hold & Holdn).
    pose proof (Forall_nth_error _ _ _ _ arg_cols Harown) as Hac. cbv beta in Hac.
    pose proof (Forall_nth_error _ _ _ _ target_cols Htrown) as Htc. cbv beta in Htc.
    pose proof (Forall_nth_error _ _ _ _ Hcols Holdn) as Hoc. cbv beta in Hoc.
    destruct (Forall_nth_error _ _ _ _ action_range Hactn) as (ai & -> & Hai).
    destruct (argmax_in_row arow ltac:(lia)) as (best & Hbest & Hbl).
    destruct (py_index_in_range trow best ltac:(lia)) as (tv & Htv & Htvn).
    rewrite Hr, Harow. cbn [rbind]. rewrite Hbest. cbn [rbind].
    rewrite Htrow. cbn [rbind]. rewrite Htv. cbn [rbind].
    rewrite Hact. cbn [rbind DQN.as_index]. rewrite Hold. cbn [rbind].
    rewrite (py_setitem_in_range old ai) by lia. cbn [rbind].
    rewrite (py_setitem_in_range qb a) by lia. cbn [rbind].
    set (row' := replace_nth ai (r + gamma * tv)%Q old).
    destruct (IH (S a) (replace_nth a row' qb)) as (qb' & Hrun & Hl' & Hc' & Hout & Hin).
    + lia.
    + rewrite length_replace_nth. exact Hlen.
    + apply Forall_replace_nth; [exact Hcols |].
      unfold row'. rewrite length_replace_nth. exact Hoc.
    + exists qb'. split; [exact Hrun |]. split; [exact Hl' |]. split; [exact Hc' |]. split.
      * intros j Hj. rewrite Hout by lia.
        apply nth_error_replace_nth_other. lia.
      * intros j Hj. destruct (Nat.eq_dec j a) as [-> | Hne].
        -- exists old, row'. split; [exact Holdn |]. split.
           ++ rewrite Hout by lia. apply nth_error_replace_nth_same. lia.
           ++ exists r, tv, ai, best, arow, trow. repeat split; auto. lia.
        -- destruct (Hin j ltac:(lia)) as (old' & row & Ho & Hrw & Hb).
           exists old', row. split; [| split; assumption].
           rewrite <- Ho. symmetry. apply nth_error_replace_nth_other. exact Hne.
Qed.
End BackupLoop.

(** C6.  On a batch whose arrays have one row per sampled transition and
    whose actions are column indices, [loss] returns the online Q-values [q]
    and a copy [q_backup] in which, for every transition i, the entry of the
    action taken holds rewards[i] + gamma * target_q[i, argmax(arg_q[i])]:
    [arg_q] are the online network's values on the next states, [target_q]
    the target network's, [gamma] the agent's attribute (0.4 as [__init__]
    sets it).  The other entries are those of [q], and the agent is left
    unchanged. *)
Theorem double_dqn_backup :
  forall (E : Externals) (states new_states : list feature) (rewards : list Q)
         (actions : list elem) (o : DQN.agent) (cols : nat),
    let q := dqn_forward (DQN.model (sub o)) states in
    let target_q := dqn_forward (DQN.target_model (sub o)) new_states in
    let arg_q := dqn_forward (DQN.model (sub o)) new_states in
    (0 < cols)%nat ->
    length q = length rewards ->
    length target_q = length rewards ->
    length arg_q = length rewards ->
    length actions = length rewards ->
    Forall (fun row => length row = cols) q ->
    Forall (fun row => length row = cols) target_q ->
    Forall (fun row => length row = cols) arg_q ->
    Forall (fun a => exists k, a = IntElem (Z.of_nat k) /\ (k < cols)%nat) actions ->
    exists q_backup,
      DQN.loss states new_states rewards actions o = (Ok (q_backup, q), o)
      /\ length q_backup = length q
      /\ forall i, (i < length rewards)%nat ->
           exists (r tv : Q) (a best : nat) (arow trow old row : list Q),
             nth_error rewards i = Some r
             /\ nth_error actions i = Some (IntElem (Z.of_nat a))
             /\ nth_error arg_q i = Some arow
             /\ argmax arow = Ok (Z.of_nat best)
             /\ nth_error target_q i = Some trow
             /\ nth_error trow best = Some tv
             /\ nth_error q i = Some old
             /\ nth_error q_backup i = Some row
             /\ nth_error row a = Some (r + gamma (self o) * tv)%Q
             /\ forall c, c <> a -> nth_error row c = nth_error old c.
Proof.
  intros E states new_states rewards actions o cols q target_q arg_q
         Hcols Hq Ht Ha Hact Hqc Htc Hac Harange.
  destruct (backup_loop_spec (gamma (self o)) rewards actions target_q arg_q cols
              Hcols Ht Ha Hact Htc Hac Harange (length rewards) 0%nat q
              ltac:(lia) Hq Hqc)
    as (qb & Hrun & Hlen & _ & _ & Hin).
  exists qb. split; [| split].
  - unfold DQN.loss, bind, get, lift, ret. rewrite py_range_0.
    fold q target_q arg_q. rewrite Hrun. reflexivity.
  - congruence.
  - intros i Hi.
    destruct (Hin i ltac:(lia))
      as (old & row & Hold & Hrow & r & tv & a & best & arow & trow
          & H1 & H2 & H3 & H4 & H5 & H6 & H7 & ->).
    exists r, tv, a, best, arow, trow, old, (replace_nth a (r + gamma (self o) * tv)%Q old).
    repeat split; auto.
    + apply nth_error_replace_nth_same. exact H7.
    + intros c Hc. apply nth_error_replace_nth_other. exact Hc.
Qed.

(** [__init__] reads [self.types] after [build]: a subclass whose [build]
    does not set it (dqn.py's) cannot be constructed as the files stand. *)
Remark init_needs_types :
  forall (E : Externals) (restore : bool) (saved_i : option Z) (build_gamma : Q -> Q)
         (r r2 : Reward),
    init restore saved_i build_gamma None r r2 = Raise (AttributeError "types").
Proof. reflexivity. Qed.

(** [__init__] sets [gamma] to 0.4 and the value-based [build] keeps it. *)
Example init_gamma :
  init (E := Fixture.externals) false None (fun g => g) (Some "DQN"%string)
       (Fixture.mkEngine [] []) (Fixture.mkEngine [] [])
  = Ok Fixture.attrs0
  /\ gamma (E := Fixture.externals) Fixture.attrs0 = 4 # 10.
Proof. split; reflexivity. Qed.

Lemma double_dqn_backup_witness :
  let o := Fixture.dqn_agent_double in
  let s := [[1; 2]; [3; 4]] in
  ((0 < 3)%nat
   /\ length (dqn_forward (Externals := Fixture.externals) (DQN.model (sub o)) [s]) = 1%nat
   /\ Forall (fun a => exists k, a = IntElem (Z.of_nat k) /\ (k < 3)%nat) [IntElem 0])
  /\ exists q_backup row,
       DQN.loss (E := Fixture.externals) [s] [s] [1] [IntElem 0] o
       = (Ok (q_backup, [[0; 2; 1]]), o)
       /\ nth_error q_backup 0 = Some row
       /\ nth_error row 0 = Some (1 + (4 # 10) * 2)%Q
       /\ nth_error row 1 = Some 2 /\ nth_error row 2 = Some 1.
Proof.
  intros o s.
  assert (Hrange : Forall (fun a => exists k, a = IntElem (Z.of_nat k) /\ (k < 3)%nat)
                          [IntElem 0]).
  { constructor; [exists 0%nat; split; [reflexivity | lia] | constructor]. }
  split; [split; [lia | split; [reflexivity | exact Hrange]] |].
  destruct (double_dqn_backup Fixture.externals [s] [s] [1] [IntElem 0] o 3%nat
              ltac:(lia) eq_refl eq_refl eq_refl eq_refl
              ltac:(repeat constructor) ltac:(repeat constructor) ltac:(repeat constructor)
              Hrange)
    as (qb & Hloss & Hlen & Hall).
  destruct (Hall 0%nat ltac:(simpl; lia))
    as (r & tv & a & best & arow & trow & old & row
        & H1 & H2 & H3 & H4 & H5 & H6 & H7 & H8 & H9 & H10).
  cbn in H1, H2, H3, H5, H7.
  injection H1 as <-. injection H3 as <-. injection H5 as <-. injection H7 as <-.
  injection H2 as Ha.
  assert (a = 0%nat) by lia. subst a. clear Ha.
  change (Ok (A := Z) 1%Z = Ok (Z.of_nat best)) in H4. injection H4 as Hb.
  assert (best = 1%nat) by lia. subst best. clear Hb.
  cbn in H6. injection H6 as <-.
  exists qb, row. split; [exact Hloss |]. split; [exact H8 |]. split; [exact H9 |].
  split; [rewrite (H10 1%nat) by lia | rewrite (H10 2%nat) by lia]; reflexivity.
Defined.

(** The backup of the example: 1.0 + 0.4 * 2.0 is 1.8, and not the
    1.0 + 0.4 * 7.0 a maximum over the target network's values would give. *)
Example double_dqn_backup_value :
  fst (DQN.loss (E := Fixture.externals) [[[1; 2]; [3; 4]]] [[[1; 2]; [3; 4]]] [1]
         [IntElem 0] Fixture.dqn_agent_double)
  = Ok ([[(1 + (4 # 10) * 2)%Q; 2; 1]], [[0; 2; 1]])
  /\ (1 + (4 # 10) * 2 == 18 # 10)%Q.
Proof. split; reflexivity. Qed.

(** ** What a computation leaves untouched *)

Section Preservation.
Context {S : Type} (I : S -> S -> Prop) {HI : PreOrder I}.

Lemma preserves_ret {A : Type} (a : A) : preserves I (ret a).
Proof. intros s. reflexivity. Qed.

Lemma preserves_raise {A : Type} (e : exn) : preserves I (raise (A := A) e).
Proof. intros s. reflexivity. Qed.

Lemma preserves_lift {A : Type} (r : result A) : preserves I (lift r).
Proof. intros s. reflexivity. Qed.

Lemma preserves_get : preserves I get.
Proof. intros s. reflexivity. Qed.

Lemma preserves_bind {A B : Type} (c : py S A) (k : A -> py S B) :
  preserves I c -> (forall a, preserves I (k a)) -> preserves I (bind c k).
Proof.
  intros Hc Hk s. unfold bind. specialize (Hc s).
  destruct (c s) as [[a | e] s1]; simpl in Hc.
  - etransitivity; [exact Hc | apply Hk].
  - exact Hc.
Qed.

Lemma preserves_if {A : Type} (b : bool) (c1 c2 : py S A) :
  preserves I c1 -> preserves I c2 -> preserves I (if b then c1 else c2).
Proof. destruct b; auto. Qed.

Lemma preserves_for_each {A : Type} (xs : list A) (body : A -> py S unit) :
  (forall a, preserves I (body a)) -> preserves I (for_each xs body).
Proof.
  intros Hb. induction xs as [| a xs IH]; simpl.
  - apply preserves_ret.
  - apply preserves_bind; [apply Hb | intros _; exact IH].
Qed.

Lemma preserves_comprehension {A B : Type} (xs : list A) (f : A -> py S B) :
  (forall a, preserves I (f a)) -> preserves I (comprehension xs f).
Proof.
  intros Hf. induction xs as [| a xs IH]; simpl.
  - apply preserves_ret.
  - apply preserves_bind; [apply Hf | intros b].
    apply preserves_bind; [exact IH | intros bs; apply preserves_ret].
Qed.

Section Draws.
Context {HW : HasWorld S} {HB : BlindToDraws I}.

Lemma preserves_with_rng {A : Type} (f : RNG -> A * RNG) : preserves I (with_rng f).
Proof.
  intros s. unfold with_rng. destruct (f (rng (get_world s))) as [a g]. apply HB.
Qed.

Lemma preserves_randint (lo hi : Z) : preserves I (np_random_randint lo hi).
Proof.
  unfold np_random_randint. apply preserves_if;
    [apply preserves_raise | apply preserves_with_rng].
Qed.

Lemma preserves_rand : preserves I np_random_rand.
Proof. apply preserves_with_rng. Qed.

Lemma preserves_randn (rows cols : nat) : preserves I (np_random_randn rows cols).
Proof.
  unfold np_random_randn. apply preserves_comprehension. intros _.
  apply preserves_comprehension. intros _. apply preserves_with_rng.
Qed.

Lemma preserves_box_sample : preserves I box_sample.
Proof. apply preserves_with_rng. Qed.

Lemma preserves_random_sample {A : Type} (population : list A) (k : Z) :
  preserves I (random_sample population k).
Proof.
  unfold random_sample. apply preserves_if; [apply preserves_raise |].
  apply preserves_bind; [apply preserves_with_rng | intros ps; apply preserves_lift].
Qed.

Lemma preserves_choice (len : nat) (size : Z) (replace : bool) (p : list Q) :
  preserves I (np_random_choice len size replace p).
Proof.
  unfold np_random_choice.
  repeat (apply preserves_if; [apply preserves_raise |]).
  apply preserves_with_rng.
Qed.
End Draws.
End Preservation.

(** Breaks a goal [preserves I c] along the structure of [c]. *)
Ltac frame_step :=
  first [ apply preserves_ret | apply preserves_raise | apply preserves_lift
        | apply preserves_get | apply preserves_choice | apply preserves_randint
        | apply preserves_rand | apply preserves_randn | apply preserves_box_sample
        | apply preserves_random_sample
        | apply preserves_bind; [| | intros ?]
        | apply preserves_if
        | apply preserves_for_each; [| intros ?]
        | apply preserves_comprehension; [| intros ?]
        | exact _
        | match goal with
          | |- preserves _ (match ?x with (_, _) => _ end) => destruct x
          end ].

(** ** The population search never gets past [crossover] *)

Section Evolution.
Context {E : Externals}.

Lemma crossover_raises (parent1 parent2 : NE1.Actor) (s : NE1.NE) :
  NE1.crossover parent1 parent2 s = (Raise (AttributeError "shape"), s).
Proof. reflexivity. Qed.

Lemma mutate_raises (individual : NE1.Actor) (scale : Q) (s : NE1.NE) :
  NE1.mutate individual scale s = (Raise (AttributeError "shape"), s).
Proof. reflexivity. Qed.

(** The loop over the parents raises in its first round and changes
    nothing. *)
Lemma breed_raises (fuel : nat) (i : Z) (sorted : list NE1.Actor) (parents : list nat)
    (next_population : list NE1.Actor) (s : NE1.NE) :
  exists e, NE1.breed (S fuel) i sorted parents next_population s = (Raise e, s).
Proof.
  cbn [NE1.breed]. unfold bind at 1. unfold lift at 1.
  destruct (py_index parents i) as [p1 | e]; [| eauto].
  unfold bind at 1. unfold lift at 1.
  destruct (py_index parents (i + 1)) as [p2 | e]; [| eauto].
  unfold bind at 1. unfold lift at 1.
  destruct (py_index sorted (Z.of_nat p1)) as [a1 | e]; [| eauto].
  unfold bind at 1. unfold lift at 1.
  destruct (py_index sorted (Z.of_nat p2)) as [a2 | e]; [| eauto].
  unfold bind at 1. rewrite crossover_raises. eauto.
Qed.

Lemma breed_state (fuel : nat) (i : Z) (sorted : list NE1.Actor) (parents : list nat)
    (next_population : list NE1.Actor) (s : NE1.NE) :
  snd (NE1.breed fuel i sorted parents next_population s) = s.
Proof.
  destruct fuel as [| fuel]; [reflexivity |].
  destruct (breed_raises fuel i sorted parents next_population s) as [e ->]. reflexivity.
Qed.

End Evolution.

(** ** The draw of the parents *)

Lemma distinctb_NoDup (l : list nat) : distinctb l = true -> NoDup l.
Proof.
  induction l as [| a l IH]; simpl; intros H; [constructor |].
  apply andb_prop in H as [Ha Hl]. constructor; [| auto].
  intros Hin. apply negb_true_iff in Ha.
  assert (existsb (Nat.eqb a) l = true); [| congruence].
  apply existsb_exists. exists a. split; [exact Hin | apply Nat.eqb_refl].
Qed.

Lemma NoDup_firstn {A : Type} (k : nat) (l : list A) : NoDup l -> NoDup (firstn k l).
Proof.
  intros H. rewrite <- (firstn_skipn k l) in H. eapply NoDup_app_remove_r. exact H.
Qed.

Section Draw.
Context {E : Externals} {S : Type} {HW : HasWorld S}.

(** A draw without replacement returns [k] pairwise distinct positions, all
    of them allowed. *)
Lemma draw_without_replacement (len k : nat) (allowed : nat -> bool) (s : S) :
  (k <= length (filter allowed (seq 0 len)))%nat ->
  exists l s',
    draw_positions len k false allowed s = (Ok l, s')
    /\ length l = k /\ NoDup l
    /\ Forall (fun a => (a < len)%nat /\ allowed a = true) l.
Proof.
  intros Hk. unfold draw_positions, with_rng.
  destruct (pop [] (picks (rng (get_world s)))) as [p rest].
  destruct ((length p =? k)%nat
            && forallb (fun a => (a <? len)%nat && allowed a) p
            && (false || distinctb p)) eqn:Hok.
  - eexists _, _. split; [reflexivity |].
    apply andb_prop in Hok as [Hok Hd]. apply andb_prop in Hok as [Hl Hf].
    split; [apply Nat.eqb_eq; exact Hl |].
    split; [apply distinctb_NoDup; exact Hd |].
    rewrite forallb_forall in Hf. apply Forall_forall. intros a Ha.
    specialize (Hf a Ha). apply andb_prop in Hf as [H1 H2].
    split; [apply Nat.ltb_lt; exact H1 | exact H2].
  - eexists _, _. split; [reflexivity |].
    split; [apply firstn_length_le; exact Hk |].
    split; [apply NoDup_firstn, NoDup_filter, seq_NoDup |].
    apply Forall_forall. intros a Ha.
    assert (In a (filter allowed (seq 0 len))) as Hin.
    { rewrite <- (firstn_skipn k (filter allowed (seq 0 len))).
      apply in_or_app. left. exact Ha. }
    apply filter_In in Hin as [Hs Hal]. apply in_seq in Hs. split; [lia | exact Hal].
Qed.

Lemma choice_without_replacement (len : nat) (size : Z) (p : list Q) (s s' : S)
    (l : list nat) :
  np_random_choice len size false p s = (Ok l, s') ->
  length l = Z.to_nat size /\ NoDup l
  /\ Forall (fun a => (a < len)%nat /\ Qltb 0 (nth a p 0%Q) = true) l
  /\ length p = len /\ Qeq_bool (Qsum p) 1 = true.
Proof.
  unfold np_random_choice. intros H.
  destruct (length p =? len)%nat eqn:Hlen; [| discriminate].
  destruct (existsb (fun v => Qltb v 0) p); [discriminate |].
  destruct (Qeq_bool (Qsum p) 1) eqn:Hsum; [| discriminate].
  destruct (size <? 0)%Z eqn:Hneg; [discriminate |].
  cbn [negb andb] in H.
  destruct (Z.of_nat (length (filter (fun i => Qltb 0 (nth i p 0%Q)) (seq 0 len))) <? size)%Z
    eqn:Hsupp; [discriminate |].
  destruct ((len =? 0)%nat && (0 <? size)%Z); [discriminate |].
  destruct (draw_without_replacement len (Z.to_nat size)
              (fun i => Qltb 0 (nth i p 0%Q)) s) as (l0 & s0 & Hd & Hl & Hn & Hf).
  { apply Z.ltb_ge in Hsupp. apply Z.ltb_ge in Hneg. lia. }
  rewrite Hd in H. inversion H. subst.
  repeat split; auto. apply Nat.eqb_eq. exact Hlen.
Qed.
End Draw.

Lemma rmap_length {A B : Type} (f : A -> result B) (l : list A) (l' : list B) :
  rmap f l = Ok l' -> length l' = length l.
Proof.
  revert l'. induction l as [| a l IH]; simpl; intros l' H.
  - inversion H. reflexivity.
  - apply rbind_ok in H as (b & _ & H). apply rbind_ok in H as (bs & Hbs & H).
    inversion H. simpl. f_equal. apply IH. exact Hbs.
Qed.

Lemma insert_by_length (f : list Q) (i : nat) (sorted : list nat) :
  length (NE1.insert_by f i sorted) = Datatypes.S (length sorted).
Proof.
  induction sorted as [| j rest IH]; simpl; [reflexivity |].
  destruct (Qltb (nth i f 0%Q) (nth j f 0%Q)); simpl; [reflexivity | rewrite IH; reflexivity].
Qed.

Lemma argsort_length (f : list Q) : length (NE1.argsort f) = length f.
Proof.
  unfold NE1.argsort.
  assert (forall idx acc,
             length (fold_left (fun sorted i => NE1.insert_by f i sorted) idx acc)
             = (length idx + length acc)%nat) as H.
  { induction idx as [| i idx IH]; intros acc; simpl; [reflexivity |].
    rewrite IH, insert_by_length. lia. }
  rewrite H, length_seq. simpl. lia.
Qed.

Section Selection.
Context {E : Externals}.

(** What a selection that returns has gone through. *)
Lemma select_ok (replace : bool) (s s1 : NE1.NE) (next_population : list NE1.Actor)
    (parents : list nat) :
  NE1.select replace s = (Ok (next_population, parents), s1) ->
  let ne := snd s in
  let fitnesses := map NE1.fitness (NE1.population ne) in
  exists sorted fittest probs,
    rmap (fun i => py_index (NE1.population ne) (Z.of_nat i)) (rev (NE1.argsort fitnesses))
    = Ok sorted
    /\ py_index sorted 0 = Ok fittest
    /\ NE1.softmax (NE1.signed_scores fitnesses) = Ok probs
    /\ NE1.has_nan fitnesses = false
    /\ next_population = py_slice sorted 0 (NE1.n_winners ne)
    /\ np_random_choice (length sorted) (NE1.n_parents ne) replace probs
         (fst s, NE1.set_fittest fittest (NE1.set_population sorted ne))
       = (Ok parents, s1).
Proof.
  intros H ne fitnesses. unfold NE1.select in H.
  bind_inv H. unfold NE1.this in Hc. injection Hc as <- <-.
  bind_inv H. unfold lift in Hc. injection Hc as Hsorted <-.
  bind_inv H. unfold NE1.assign, modify in Hc. injection Hc as <- <-.
  bind_inv H. unfold lift in Hc. injection Hc as Hfit <-.
  bind_inv H. unfold NE1.assign, modify in Hc. injection Hc as <- <-.
  bind_inv H. unfold lift in Hc. injection Hc as Hprobs <-.
  bind_inv H. unfold ret in H. injection H as <- <- <-.
  cbn [fst snd] in Hc.
  fold ne fitnesses in Hsorted, Hprobs, Hc.
  destruct (NE1.has_nan fitnesses) eqn:Hnan; [discriminate |].
  exists a, a0, a1. repeat split; auto.
Qed.

(** The population once it has been sorted. *)
Lemma select_sorted_length (replace : bool) (s : NE1.NE) (sorted : list NE1.Actor) :
  rmap (fun i => py_index (NE1.population (snd s)) (Z.of_nat i))
       (rev (NE1.argsort (map NE1.fitness (NE1.population (snd s))))) = Ok sorted ->
  length sorted = length (NE1.population (snd s)).
Proof.
  intros H. apply rmap_length in H.
  rewrite H, length_rev, argsort_length, length_map. reflexivity.
Qed.

End Selection.

Lemma Qltb_lt (a b : Q) : Qltb a b = true <-> (a < b)%Q.
Proof.
  unfold Qltb. rewrite negb_true_iff. split.
  - intros H. apply Qnot_le_lt. intros Hle. apply Qle_bool_iff in Hle. congruence.
  - intros H. destruct (Qle_bool b a) eqn:Hle; [| reflexivity].
    apply Qle_bool_iff in Hle. exfalso. exact (Qlt_not_le _ _ H Hle).
Qed.

(** On a fitness that is not zero, [np.abs(f) / f] is the sign of [f]. *)
Lemma abs_over_self (f : Q) : ~ (f == 0)%Q -> (Qabs f / f == Qsign f)%Q.
Proof.
  intros Hf. unfold Qsign.
  destruct (Qltb 0 f) eqn:Hpos.
  - apply Qltb_lt in Hpos. rewrite Qabs_pos by (apply Qlt_le_weak; exact Hpos).
    field. exact Hf.
  - destruct (Qltb f 0) eqn:Hneg.
    + apply Qltb_lt in Hneg. rewrite Qabs_neg by (apply Qlt_le_weak; exact Hneg).
      field. exact Hf.
    + exfalso. apply Hf.
      assert (~ (0 < f)%Q) as H1 by (intros H; apply Qltb_lt in H; congruence).
      assert (~ (f < 0)%Q) as H2 by (intros H; apply Qltb_lt in H; congruence).
      apply Qnot_lt_le in H1. apply Qnot_lt_le in H2. apply Qle_antisym; assumption.
Qed.

Lemma has_nan_false (fitnesses : list Q) :
  NE1.has_nan fitnesses = false -> Forall (fun f => ~ (f == 0)%Q) fitnesses.
Proof.
  unfold NE1.has_nan. induction fitnesses as [| f fs IH]; simpl; intros H; [constructor |].
  apply orb_false_elim in H as [Hf Hfs]. constructor; [| auto].
  intros H0. apply Qeq_bool_iff in H0. congruence.
Qed.

Lemma signed_scores_sign (fitnesses : list Q) :
  Forall (fun f => ~ (f == 0)%Q) fitnesses ->
  Forall2 (fun f score =>
             (score == Qabs f / Qsum (map Qabs fitnesses) * Qsign f)%Q)
          fitnesses (NE1.signed_scores fitnesses).
Proof.
  unfold NE1.signed_scores. generalize (Qsum (map Qabs fitnesses)) as total.
  intros total H. induction H as [| f fs Hf _ IH]; simpl; constructor; [| exact IH].
  rewrite (abs_over_self f Hf). reflexivity.
Qed.

Lemma Forall2_with_left {A B : Type} (P : A -> Prop) (R : A -> B -> Prop)
    (l : list A) (l' : list B) :
  Forall P l -> Forall2 R l l' -> Forall2 (fun a b => P a /\ R a b) l l'.
Proof.
  intros HP HR. induction HR as [| a b l l' Hab _ IH]; constructor.
  - split; [inversion HP; assumption | exact Hab].
  - apply IH. inversion HP; assumption.
Qed.

Lemma softmax_length {E : Externals} (v probs : list Q) :
  NE1.softmax v = Ok probs -> length probs = length v.
Proof.
  unfold NE1.softmax. intros H. apply rbind_ok in H as (m & _ & H).
  injection H as <-. rewrite !length_map. reflexivity.
Qed.

(** A draw changes no attribute of the object it is made on. *)
Lemma choice_keeps_object {E : Externals} {T : Type} (len : nat) (size : Z)
    (replace : bool) (p : list Q) (s : world * T) :
  snd (snd (np_random_choice len size replace p s)) = snd s.
Proof.
  assert (PreOrder (fun a b : world * T => snd b = snd a)) as HI.
  { split; [intros a; reflexivity | intros a b c H1 H2; congruence]. }
  assert (BlindToDraws (HW := pair_world T) (fun a b : world * T => snd b = snd a)) as HB.
  { intros a g. reflexivity. }
  apply (preserves_choice (fun a b : world * T => snd b = snd a)).
Qed.

(** *** The sort *)

Section Argsort.
Variable f : list Q.

(** Position [i] holds a value no greater than position [j]'s. *)
Let below (i j : nat) : Prop := (nth i f 0 <= nth j f 0)%Q.

Lemma insert_by_perm (i : nat) (sorted : list nat) :
  Permutation (NE1.insert_by f i sorted) (i :: sorted).
Proof.
  induction sorted as [| j rest IH]; simpl; [reflexivity |].
  destruct (Qltb (nth i f 0%Q) (nth j f 0%Q)); [reflexivity |].
  etransitivity; [apply perm_skip; exact IH | apply perm_swap].
Qed.

Lemma insert_by_sorted (i : nat) (sorted : list nat) :
  StronglySorted below sorted -> StronglySorted below (NE1.insert_by f i sorted).
Proof.
  induction 1 as [| j rest Hs IH Hj]; simpl.
  - constructor; constructor.
  - destruct (Qltb (nth i f 0%Q) (nth j f 0%Q)) eqn:Hlt.
    + apply Qltb_lt in Hlt. constructor; [constructor; assumption |].
      constructor; [apply Qlt_le_weak; exact Hlt |].
      eapply Forall_impl; [| exact Hj]. intros k Hk. unfold below in *.
      eapply Qle_trans; [apply Qlt_le_weak; exact Hlt | exact Hk].
    + constructor; [exact IH |].
      apply Forall_forall. intros k Hk.
      apply (Permutation_in _ (insert_by_perm i rest)) in Hk. destruct Hk as [<- | Hk].
      * unfold below. apply Qnot_lt_le. intros H. apply Qltb_lt in H. congruence.
      * rewrite Forall_forall in Hj. apply Hj. exact Hk.
Qed.

Lemma fold_insert_by (idx : list nat) :
  forall acc,
    StronglySorted below acc ->
    StronglySorted below (fold_left (fun sorted i => NE1.insert_by f i sorted) idx acc)
    /\ Permutation (fold_left (fun sorted i => NE1.insert_by f i sorted) idx acc)
                   (idx ++ acc).
Proof.
  induction idx as [| i idx IH]; intros acc Hacc; simpl.
  - split; [exact Hacc | reflexivity].
  - destruct (IH (NE1.insert_by f i acc) (insert_by_sorted i acc Hacc)) as [Hs Hp].
    split; [exact Hs |].
    etransitivity; [exact Hp |].
    etransitivity; [apply Permutation_app_head, insert_by_perm |].
    symmetry. apply Permutation_middle.
Qed.

(** [np.argsort] returns the positions, in ascending order of the values. *)
Lemma argsort_sorted :
  StronglySorted below (NE1.argsort f)
  /\ Permutation (NE1.argsort f) (seq 0 (length f)).
Proof.
  destruct (fold_insert_by (seq 0 (length f)) [] (SSorted_nil _)) as [Hs Hp].
  split; [exact Hs |]. rewrite app_nil_r in Hp. exact Hp.
Qed.
End Argsort.

Lemma StronglySorted_snoc {A : Type} (R : A -> A -> Prop) (l : list A) (a : A) :
  StronglySorted R l -> Forall (fun b => R b a) l -> StronglySorted R (l ++ [a]).
Proof.
  induction 1 as [| b l Hs IH Hb]; intros Ha; simpl.
  - constructor; constructor.
  - inversion Ha as [| ? ? Hba Hla]; subst. constructor; [apply IH; exact Hla |].
    apply Forall_app. split; [exact Hb | constructor; [exact Hba | constructor]].
Qed.

Lemma StronglySorted_rev {A : Type} (R : A -> A -> Prop) (l : list A) :
  StronglySorted R l -> StronglySorted (fun a b => R b a) (rev l).
Proof.
  induction 1 as [| a l Hs IH Ha]; simpl; [constructor |].
  apply StronglySorted_snoc; [exact IH | apply Forall_rev; exact Ha].
Qed.

Lemma StronglySorted_map {A B : Type} (R : B -> B -> Prop) (g : A -> B) (l : list A) :
  StronglySorted (fun a b => R (g a) (g b)) l -> StronglySorted R (map g l).
Proof.
  induction 1 as [| a l Hs IH Ha]; simpl; constructor; [exact IH |].
  apply Forall_map. exact Ha.
Qed.

Lemma py_index_ok_nat {A : Type} (l : list A) (k : nat) (v : A) :
  py_index l (Z.of_nat k) = Ok v -> nth_error l k = Some v.
Proof.
  unfold py_index.
  assert ((Z.of_nat k <? 0) = false)%Z as -> by (apply Z.ltb_ge; lia).
  destruct ((Z.of_nat k <? 0) || (Z.of_nat (length l) <=? Z.of_nat k))%Z; [discriminate |].
  rewrite Nat2Z.id. destruct (nth_error l k); [intros H; injection H as <-; reflexivity |].
  discriminate.
Qed.

(** Indexing by a list of positions that succeeds reads those positions. *)
Lemma rmap_index_nth {A : Type} (l : list A) (d : A) (idx : list nat) (l' : list A) :
  rmap (fun i => py_index l (Z.of_nat i)) idx = Ok l' ->
  l' = map (fun i => nth i l d) idx.
Proof.
  revert l'. induction idx as [| i idx IH]; simpl; intros l' H.
  - injection H as <-. reflexivity.
  - apply rbind_ok in H as (v & Hv & H). apply rbind_ok in H as (vs & Hvs & H).
    injection H as <-. apply py_index_ok_nat in Hv.
    rewrite (IH vs Hvs). f_equal. symmetry. apply nth_error_nth. exact Hv.
Qed.

Lemma map_nth_seq {A : Type} (l : list A) (d : A) :
  map (fun i => nth i l d) (seq 0 (length l)) = l.
Proof.
  apply (nth_ext _ _ d d).
  - rewrite length_map, length_seq. reflexivity.
  - intros k Hk. rewrite length_map, length_seq in Hk.
    rewrite (nth_indep _ d (nth 0 l d)) by (rewrite length_map, length_seq; exact Hk).
    rewrite (map_nth (fun i => nth i l d) (seq 0 (length l)) 0%nat k).
    rewrite seq_nth by exact Hk. reflexivity.
Qed.

(** The re-ordered population: the same individuals, in descending order of
    fitness. *)
Lemma sorted_population (pop sorted : list NE1.Actor) :
  rmap (fun i => py_index pop (Z.of_nat i))
       (rev (NE1.argsort (map NE1.fitness pop))) = Ok sorted ->
  StronglySorted (fun a b => (NE1.fitness b <= NE1.fitness a)%Q) sorted
  /\ Permutation sorted pop.
Proof.
  intros H. set (d := NE1.mkActor [] 0).
  apply (rmap_index_nth pop d) in H. subst sorted.
  destruct (argsort_sorted (map NE1.fitness pop)) as [Hs Hp]. split.
  - apply StronglySorted_map. apply StronglySorted_rev in Hs.
    eapply StronglySorted_ind with (P := fun l => StronglySorted _ l);
      [constructor | | exact Hs].
    intros a l Hl IH Ha. constructor; [exact IH |].
    eapply Forall_impl; [| exact Ha]. intros b Hb. cbv beta in Hb.
    change 0%Q with (NE1.fitness d) in Hb. rewrite !map_nth in Hb. exact Hb.
  - rewrite length_map in Hp.
    rewrite <- (map_nth_seq pop d) at 2.
    apply Permutation_map. etransitivity; [symmetry; apply Permutation_rev | exact Hp].
Qed.

(** C3, as amended.  When the selection of [evolve] returns, the survivors
    are the first [n_winners] individuals of the re-ordered population (the
    individuals it had, in descending order of fitness) and the parents
    are [n_parents] positions of that population drawn WITHOUT replacement:
    they are pairwise distinct.  The weights handed to the
    draw are the softmax of |f| / sum|f| * (|f| / f) over the fitness vector
    (read before the sort), no fitness is zero and |f| / f is then the sign
    of f; the weights sum to 1 and every position drawn has a positive
    weight. *)
Theorem parents_drawn_without_replacement :
  forall (E : Externals) (s s1 : NE1.NE) (next_population : list NE1.Actor)
         (parents : list nat),
    NE1.select false s = (Ok (next_population, parents), s1) ->
    let ne := snd s in
    let fitnesses := map NE1.fitness (NE1.population ne) in
    next_population = py_slice (NE1.population (snd s1)) 0 (NE1.n_winners ne)
    /\ StronglySorted (fun a b => (NE1.fitness b <= NE1.fitness a)%Q)
                      (NE1.population (snd s1))
    /\ Permutation (NE1.population (snd s1)) (NE1.population ne)
    /\ length parents = Z.to_nat (NE1.n_parents ne)
    /\ NoDup parents
    /\ Forall (fun p => (p < length (NE1.population ne))%nat) parents
    /\ exists probs,
         NE1.softmax (NE1.signed_scores fitnesses) = Ok probs
         /\ length probs = length fitnesses
         /\ (Qsum probs == 1)%Q
         /\ Forall (fun p => (0 < nth p probs 0)%Q) parents
         /\ Forall2 (fun f score =>
                       ~ (f == 0)%Q
                       /\ (score == Qabs f / Qsum (map Qabs fitnesses) * Qsign f)%Q)
                    fitnesses (NE1.signed_scores fitnesses).
Proof.
  intros E s s1 next_population parents H ne fitnesses.
  destruct (select_ok false s s1 next_population parents H)
    as (sorted & fittest & probs & Hsorted & Hfit & Hprobs & Hnan & Hnext & Hdraw).
  fold ne fitnesses in Hsorted, Hprobs, Hnan, Hnext, Hdraw.
  pose proof (select_sorted_length false s sorted Hsorted) as Hlen. fold ne in Hlen.
  pose proof (choice_keeps_object (length sorted) (NE1.n_parents ne) false probs
                (fst s, NE1.set_fittest fittest (NE1.set_population sorted ne))) as Hobj.
  rewrite Hdraw in Hobj. cbn [fst snd] in Hobj.
  apply choice_without_replacement in Hdraw as (Hl & Hnd & Hall & Hpl & Hsum).
  rewrite Hobj. cbn [NE1.population NE1.set_fittest NE1.set_population].
  destruct (sorted_population (NE1.population ne) sorted Hsorted) as [Hss Hperm].
  split; [exact Hnext |]. split; [exact Hss |]. split; [exact Hperm |]. split; [exact Hl |].
  split; [exact Hnd |]. split.
  { eapply Forall_impl; [| exact Hall]. intros p [Hp _]. lia. }
  exists probs. split; [exact Hprobs |]. split.
  { rewrite (softmax_length _ _ Hprobs). unfold NE1.signed_scores. apply length_map. }
  split; [apply Qeq_bool_iff; exact Hsum |]. split.
  { eapply Forall_impl; [| exact Hall]. intros p [_ Hp]. apply Qltb_lt. exact Hp. }
  pose proof (has_nan_false fitnesses Hnan) as Hnz.
  pose proof (signed_scores_sign fitnesses Hnz) as Hs.
  apply Forall2_with_left; assumption.
Qed.

(** The selection on the population with fitnesses 1 to 10. *)
Example selection_of_ten :
  NE1.select (E := Fixture.externals) false (Fixture.world0, Fixture.ne10)
  = (Ok (firstn 4 (rev Fixture.population10), [0; 1; 2; 3; 4; 5]%nat),
     (Fixture.world0,
      NE1.set_fittest (NE1.mkActor [[[10]]] 10)
        (NE1.set_population (rev Fixture.population10) Fixture.ne10))).
Proof. vm_compute. reflexivity. Qed.

Lemma parents_drawn_without_replacement_witness :
  exists next_population parents s1,
    NE1.select (E := Fixture.externals) false (Fixture.world0, Fixture.ne10)
    = (Ok (next_population, parents), s1)
    /\ length parents = 6%nat /\ NoDup parents.
Proof.
  eexists _, _, _. split; [exact selection_of_ten |].
  destruct (parents_drawn_without_replacement Fixture.externals
              (Fixture.world0, Fixture.ne10) _ _ _ selection_of_ten)
    as (_ & _ & _ & Hl & Hnd & _).
  split; [exact Hl | exact Hnd].
Defined.

(** C3 as stated fails: on the population with fitnesses 1 to 10, when the
    next draw of the generator is position 0 six times, a selection drawing
    with replacement takes the fittest individual six times, and the
    selection [evolve] makes (which passes [False] for [replace]) takes six
    different individuals. *)
Lemma parents_not_drawn_with_replacement :
  fst (NE1.select_with_replacement (E := Fixture.externals)
         (Fixture.world_repeated_pick, Fixture.ne10))
  = Ok (firstn 4 (rev Fixture.population10), [0; 0; 0; 0; 0; 0]%nat)
  /\ fst (NE1.select (E := Fixture.externals) false
            (Fixture.world_repeated_pick, Fixture.ne10))
     = Ok (firstn 4 (rev Fixture.population10), [0; 1; 2; 3; 4; 5]%nat)
  /\ ~ NoDup [0; 0; 0; 0; 0; 0]%nat.
Proof.
  split; [vm_compute; reflexivity |]. split; [vm_compute; reflexivity |].
  intros H. inversion H as [| a l Hin _]. apply Hin. left. reflexivity.
Qed.

(** ** One generation of the population search *)

(** [evolve] raises whenever there is a parent to draw. *)
Lemma evolve_raises {E : Externals} (s : NE1.NE) :
  (0 < NE1.n_parents (snd s))%Z -> exists e, fst (NE1.evolve s) = Raise e.
Proof.
  intros Hp. unfold NE1.evolve.
  destruct (NE1.select false s) as [[[next_population parents] | e] s1] eqn:Hsel.
  - rewrite (bind_ok_first _ _ _ _ _ Hsel).
    destruct (select_ok false s s1 next_population parents Hsel)
      as (sorted & fittest & probs & _ & _ & _ & _ & _ & Hdraw).
    apply choice_without_replacement in Hdraw as (Hl & _).
    unfold bind at 1. unfold NE1.this at 1.
    destruct (length parents) as [| k] eqn:Hk; [lia |].
    change (Nat.div2 (Datatypes.S (Datatypes.S k))) with (Datatypes.S (Nat.div2 k)).
    destruct (breed_raises (Nat.div2 k) 0 (NE1.population (snd s1)) parents
                next_population s1) as [e He].
    rewrite (bind_raise_first _ _ _ _ _ He). simpl. eauto.
  - rewrite (bind_raise_first _ _ _ _ _ Hsel). simpl. eauto.
Qed.

(** C5 (the code departs from the claim).  With a population of 10 the
    constructor sets 4 winners and 6 parents, and [evolve] raises on every
    such population, whatever the fitnesses and the draws: [crossover] reads
    [parent1.shape], an attribute [Actor] does not have.  On the population
    with fitnesses 1 to 10 the exception is that [AttributeError]; the
    population is left as the sort re-ordered it, the ten individuals it had
    and no child, and the assignment of the next population is not
    reached. *)
Theorem evolve_raises_before_replacement :
  (forall (E : Externals) (w : world) (rate : Q) (initial : list weights)
          (pop : list NE1.Actor),
      let ne := NE1.set_population pop (NE1.NeuroEvolution_init 10 rate initial) in
      NE1.n_winners ne = 4%Z /\ NE1.n_parents ne = 6%Z
      /\ exists e, fst (NE1.evolve (w, ne)) = Raise e)
  /\ NE1.evolve (E := Fixture.externals) (Fixture.world0, Fixture.ne10)
     = (Raise (AttributeError "shape"),
        (Fixture.world0,
         NE1.set_fittest (NE1.mkActor [[[10]]] 10)
           (NE1.set_population (rev Fixture.population10) Fixture.ne10)))
  /\ (forall (parent1 parent2 : NE1.Actor) (s : NE1.NE),
        NE1.crossover (E := Fixture.externals) parent1 parent2 s
        = (Raise (AttributeError "shape"), s)).
Proof.
  split; [| split].
  - intros E w rate initial pop ne.
    split; [reflexivity |]. split; [reflexivity |].
    apply evolve_raises. reflexivity.
  - vm_compute. reflexivity.
  - intros. reflexivity.
Qed.


(** ** What [train] does to the buffer and to the population *)

Lemma clip_by_value_clipped (grads : list (list Q)) :
  clipped (map (fun grad => clip_by_value grad (-10) 10) grads).
Proof.
  unfold clipped, clip_by_value. apply Forall_map, Forall_forall. intros grad _.
  apply Forall_map, Forall_forall. intros v _. split.
  - apply Q.min_glb; [apply Q.le_max_r | discriminate].
  - apply Q.le_min_r.
Qed.

Section TrainFacts.
Context {E : Externals}.

Lemma memory_sample_effect {Sub : Type} (k : Z) (o : object Sub) :
  memory_sample k o =
  (fst (Memory_sample (memory (self o)) k (rng (env o))),
   mkObject (mkWorld (snd (Memory_sample (memory (self o)) k (rng (env o))))
                     (log (env o) ++ [CMemorySample k]))
            (self o) (sub o)).
Proof.
  unfold memory_sample, bind, emit, modify, get, lift. simpl.
  destruct (Memory_sample (memory (self o)) k (rng (env o))) as [r g]. reflexivity.
Qed.

#[local] Instance same_base_preorder : PreOrder same_base.
Proof.
  split.
  - intros o. split; reflexivity.
  - intros a b c [H1 H2] [H3 H4]. split; congruence.
Qed.

#[local] Instance same_log_preorder : PreOrder same_log.
Proof.
  split.
  - intros s. reflexivity.
  - intros a b c H1 H2. unfold same_log in *. congruence.
Qed.

#[local] Instance same_log_blind : BlindToDraws same_log.
Proof. intros s g. reflexivity. Qed.

Lemma assign_field_same_base (f : NE1.fields -> NE1.fields) :
  preserves same_base (NE1.assign_field f).
Proof. intros o. split; reflexivity. Qed.

Lemma actor_set_weights_same_base (arg : NE1.weights_arg) :
  preserves same_base (NE1.actor_set_weights arg).
Proof.
  destruct arg; [apply assign_field_same_base | apply preserves_raise; exact _].
Qed.

Lemma evolve_same_log : preserves same_log NE1.evolve.
Proof.
  unfold NE1.evolve. apply preserves_bind; [exact _ | |].
  - unfold NE1.select. repeat first [frame_step | (intros s; reflexivity)].
  - intros [next_population parents].
    apply preserves_bind; [exact _ | intros s; reflexivity | intros ne].
    apply preserves_bind; [exact _ | |].
    + intros s. rewrite breed_state. reflexivity.
    + intros a s. reflexivity.
Qed.

Lemma on_ne_evolve_same_base : preserves same_base (NE1.on_ne NE1.evolve).
Proof.
  intros s. unfold NE1.on_ne, zoom.
  pose proof (evolve_same_log (env s, NE1.ne (sub s))) as Hl.
  destruct (NE1.evolve (env s, NE1.ne (sub s))) as [r t]. simpl in *.
  split; [reflexivity | exact Hl].
Qed.

Lemma evolution_same_base (states : list feature) :
  preserves same_base (NE1.evolution states).
Proof.
  unfold NE1.evolution.
  repeat first [ apply actor_set_weights_same_base
               | apply assign_field_same_base
               | apply on_ne_evolve_same_base
               | frame_step ].
Qed.

End TrainFacts.

Section TrainEffects.
Context {E : Externals}.

Lemma pg_train_cases (o : NE1.agent) :
  exists r o',
    NE1.train o = (r, o')
    /\ self o' = self o
    /\ (log (env o') = log (env o) ++ [CMemorySample 128]
        \/ exists g, clipped g /\ r = Ok tt
                     /\ log (env o') = log (env o) ++ [CMemorySample 128; CApplyGradients g])
    /\ (NE1.evolution_due (NE1.epoch (sub o)) = false ->
        exists cw, sub o' = NE1.set_critic_w cw (sub o)).
Proof.
  assert (Hid : sub o = NE1.set_critic_w (NE1.critic_w (sub o)) (sub o))
    by (destruct (sub o); reflexivity).
  unfold NE1.train. unfold bind at 1. rewrite memory_sample_effect.
  destruct (Memory_sample (memory (self o)) 128 (rng (env o))) as [[[tree_idx replay] | e] g];
    cbn [fst snd];
    [| eexists _, _; split; [reflexivity |];
       split; [reflexivity | split; [left; reflexivity | eauto]]].
  unfold bind at 1. unfold lift at 1.
  destruct (NE1.actions_of replay) as [actions | e];
    [| eexists _, _; split; [reflexivity |];
       split; [reflexivity | split; [left; reflexivity | eauto]]].
  unfold bind at 1. unfold lift at 1.
  destruct (returns_of replay) as [returns | e];
    [| eexists _, _; split; [reflexivity |];
       split; [reflexivity | split; [left; reflexivity | eauto]]].
  unfold bind at 1. unfold get at 1.
  unfold NE1.critic_predict. cbn [unpack3].
  unfold bind at 1. unfold lift at 1.
  unfold bind at 1. unfold lift at 1.
  destruct (NE1.broadcast Qplus _ _) as [q_pi | e];
    [| eexists _, _; split; [reflexivity |];
       split; [reflexivity | split; [left; reflexivity | eauto]]].
  unfold bind at 1. unfold lift at 1.
  unfold bind at 1. unfold lift at 1.
  unfold bind at 1. unfold lift at 1.
  destruct (NE1.broadcast _ returns _) as [q_backup | e];
    [| eexists _, _; split; [reflexivity |];
       split; [reflexivity | split; [left; reflexivity | eauto]]].
  unfold bind at 1. unfold lift at 1.
  destruct (NE1.broadcast _ q_backup _) as [q1_loss | e];
    [| eexists _, _; split; [reflexivity |];
       split; [reflexivity | split; [left; reflexivity | eauto]]].
  unfold bind at 1. unfold lift at 1.
  destruct (NE1.broadcast _ q_backup _) as [q2_loss | e];
    [| eexists _, _; split; [reflexivity |];
       split; [reflexivity | split; [left; reflexivity | eauto]]].
  cbn [sub self env].
  set (o1 := mkObject (mkWorld g (log (env o) ++ [CMemorySample 128])) (self o) (sub o)).
  set (states := map t_state replay).
  unfold bind at 1.
  assert (Hev : same_base o1
                  (snd ((if NE1.evolution_due (NE1.epoch (sub o))
                         then NE1.evolution states else ret tt) o1))
                /\ (NE1.evolution_due (NE1.epoch (sub o)) = false ->
                    (if NE1.evolution_due (NE1.epoch (sub o))
                     then NE1.evolution states else ret tt) o1 = (Ok tt, o1))).
  { destruct (NE1.evolution_due (NE1.epoch (sub o))).
    - split; [apply evolution_same_base | discriminate].
    - split; [split; reflexivity | reflexivity]. }
  destruct Hev as [[Hself Hlog] Hnot].
  destruct ((if NE1.evolution_due (NE1.epoch (sub o))
             then NE1.evolution states else ret tt) o1) as [[u | e] o2] eqn:Hrun;
    cbn [snd] in Hself, Hlog.
  - unfold bind, get, emit, modify, NE1.assign_field. cbn.
    eexists _, _. split; [reflexivity |]. cbn.
    split; [exact Hself |]. split.
    + right. eexists. split; [apply clip_by_value_clipped |]. split; [reflexivity |].
      rewrite Hlog. unfold o1. cbn. rewrite <- app_assoc. reflexivity.
    + intros Hdue. specialize (Hnot Hdue). injection Hnot as _ Ho2.
      rewrite Ho2. unfold o1. cbn. eexists. reflexivity.
  - eexists _, _. split; [reflexivity |]. cbn.
    split; [exact Hself |]. split.
    + left. rewrite Hlog. reflexivity.
    + intros Hdue. specialize (Hnot Hdue). discriminate.
Qed.

(** What one call of the actor-critic [train] does: the base attributes are
    left as they were, the log gains the sampling of the batch and, when the
    call reaches its end, one application of clipped gradients; and when the
    population search is not due only the critic's weights change. *)
Lemma pg_train_effect (o : NE1.agent) :
  self (snd (NE1.train o)) = self o
  /\ (log (env (snd (NE1.train o))) = log (env o) ++ [CMemorySample 128]
      \/ exists g, clipped g
                   /\ fst (NE1.train o) = Ok tt
                   /\ log (env (snd (NE1.train o)))
                      = log (env o) ++ [CMemorySample 128; CApplyGradients g])
  /\ (NE1.evolution_due (NE1.epoch (sub o)) = false ->
      exists cw, sub (snd (NE1.train o)) = NE1.set_critic_w cw (sub o)).
Proof.
  destruct (pg_train_cases o) as (r & o' & -> & H). exact H.
Qed.

End TrainEffects.

Section DqnTrain.
Context {E : Externals}.

Lemma memory_batch_update_effect {Sub : Type} (tree_idx : list Z) (ae : list Q)
    (o : object Sub) :
  memory_batch_update tree_idx ae o =
  match Memory_batch_update (memory (self o)) tree_idx ae with
  | Ok m =>
      (Ok tt,
       mkObject (mkWorld (rng (env o)) (log (env o) ++ [CMemoryBatchUpdate tree_idx ae]))
                (set_memory m (self o)) (sub o))
  | Raise e =>
      (Raise e,
       mkObject (mkWorld (rng (env o)) (log (env o) ++ [CMemoryBatchUpdate tree_idx ae]))
                (self o) (sub o))
  end.
Proof.
  unfold memory_batch_update, bind, emit, modify, get, lift, set_attr. cbn.
  destruct (Memory_batch_update (memory (self o)) tree_idx ae); reflexivity.
Qed.

Lemma loss_state (states new_states : list feature) (rewards : list Q)
    (actions : list elem) (o : DQN.agent) :
  snd (DQN.loss states new_states rewards actions o) = o.
Proof.
  unfold DQN.loss, bind, get, lift, ret.
  destruct (DQN.backup_loop _ _ _ _ _ _ _); reflexivity.
Qed.

(** A call of the value-based [train] that returns has sampled a batch,
    written the new priorities back with [batch_update] and applied clipped
    gradients, in this order. *)
Lemma dqn_train_ok (o o' : DQN.agent) :
  DQN.train o = (Ok tt, o') ->
  exists tree_idx ae g m',
    log (env o')
    = log (env o) ++ [CMemorySample 128; CMemoryBatchUpdate tree_idx ae; CApplyGradients g]
    /\ clipped g
    /\ Memory_batch_update (memory (self o)) tree_idx ae = Ok m'
    /\ memory (self o') = m'.
Proof.
  unfold DQN.train. intros H.
  bind_inv H. rewrite memory_sample_effect in Hc. injection Hc as Hr <-.
  destruct a as [tree_idx replay]. cbv zeta in H.
  bind_inv H. unfold lift in Hc. injection Hc as Hret <-. rename a into returns.
  bind_inv H. destruct a as [q_backup q].
  pose proof (loss_state (map t_state replay) (map t_next replay) returns
                (map t_action replay)
                (mkObject (mkWorld (snd (Memory_sample (memory (self o)) 128 (rng (env o))))
                                   (log (env o) ++ [CMemorySample 128]))
                          (self o) (sub o))) as Hl.
  rewrite Hc in Hl. cbn [snd] in Hl. subst s.
  bind_inv H. rewrite memory_batch_update_effect in Hc0. cbn [self env sub] in Hc0.
  destruct (Memory_batch_update (memory (self o)) tree_idx
              (map (fun e => e + (1 # 10000000000))%Q (DQN.abs_error q_backup q)))
    as [m | e] eqn:Hm; [| discriminate].
  injection Hc0 as _ <-.
  unfold bind, get, emit, modify in H.
  cbn [get_world set_world object_world env log self sub set_env set_sub rng fst snd] in H.
  injection H as <-. cbn [env log self memory set_memory].
  eexists _, _, _, m. split; [rewrite <- !app_assoc; reflexivity |].
  split; [apply clip_by_value_clipped |]. split; [exact Hm | reflexivity].
Qed.

End DqnTrain.

(** C4 (the code departs from the claim).  Every call of the value-based
    [train] that returns has sampled a batch of 128, written the new
    priorities to the buffer with [batch_update] and applied gradients
    clipped to [-10, 10].  Every call of the actor-critic [train] samples
    the batch and, when it reaches its end, applies clipped gradients, but
    never calls [batch_update]: the buffer is the one the call started with
    and the log of calls gains the sampling and at most the application of
    the gradients.  On a buffer holding one transition the actor-critic
    [train] returns with exactly these two calls. *)
Theorem pg_train_writes_no_priorities :
  (forall (E : Externals) (o : NE1.agent),
      memory (self (snd (NE1.train o))) = memory (self o)
      /\ (log (env (snd (NE1.train o))) = log (env o) ++ [CMemorySample 128]
          \/ exists g, clipped g
                       /\ log (env (snd (NE1.train o)))
                          = log (env o) ++ [CMemorySample 128; CApplyGradients g]))
  /\ (forall (E : Externals) (o : DQN.agent),
        match DQN.train o with
        | (Ok _, o') =>
            exists tree_idx ae g m',
              log (env o')
              = log (env o)
                ++ [CMemorySample 128; CMemoryBatchUpdate tree_idx ae; CApplyGradients g]
              /\ clipped g
              /\ Memory_batch_update (memory (self o)) tree_idx ae = Ok m'
              /\ memory (self o') = m'
        | (Raise _, _) => True
        end)
  /\ (let t := mkTransition [] (RowElem [1; 2]) (PNum 1) [] in
      let o := mkObject (E := Fixture.externals) Fixture.world0
                 (set_memory (E := Fixture.externals) [(t, 1)] (self Fixture.pg_agent))
                 (sub Fixture.pg_agent) in
      fst (NE1.train o) = Ok tt
      /\ log (env (snd (NE1.train o))) = [CMemorySample 128; CApplyGradients [[10; -10; 1 # 2]]]
      /\ memory (self (snd (NE1.train o))) = [(t, 1)]).
Proof.
  split; [| split].
  - intros E o. destruct (pg_train_effect o) as (Hself & Hlog & _).
    split; [rewrite Hself; reflexivity |].
    destruct Hlog as [Hl | (g & Hg & _ & Hl)]; [left; exact Hl | right; eauto].
  - intros E o. destruct (DQN.train o) as [[[] | e] o'] eqn:H; [| exact I].
    apply dqn_train_ok. exact H.
  - vm_compute. repeat split.
Qed.

(** ** The population search is never due *)

Section Epoch.
Context {E : Externals}.

#[local] Instance same_sub_preorder : PreOrder same_sub.
Proof.
  split.
  - intros o. reflexivity.
  - intros a b c H1 H2. unfold same_sub in *. congruence.
Qed.

#[local] Instance same_sub_blind : BlindToDraws same_sub.
Proof. intros s g. reflexivity. Qed.

Lemma policy_same_sub (state : list feature) (i : Z) :
  preserves same_sub (NE1.policy state i).
Proof.
  unfold NE1.policy.
  repeat first [ frame_step | (intros s; reflexivity) ].
Qed.

Lemma sample_same_sub (memory : list transition) : preserves same_sub (NE1.sample memory).
Proof.
  unfold NE1.sample. repeat first [ frame_step | (intros s; reflexivity) ].
Qed.

Lemma same_sub_untouched (o o' : NE1.agent) : same_sub o o' -> untouched o o'.
Proof. unfold same_sub, untouched. intros ->. repeat split. Qed.

Lemma perform_untouched (cfg : config) (c : method_call) (o : NE1.agent) :
  NE1.evolution_due (NE1.epoch (sub o)) = false -> untouched o (perform cfg c o).
Proof.
  intros Hdue. destruct c as [state i | memory | | i | i | i]; unfold perform.
  - apply same_sub_untouched, policy_same_sub.
  - apply same_sub_untouched, sample_same_sub.
  - destruct (pg_train_effect o) as (_ & _ & Hsub). unfold untouched.
    destruct (Hsub Hdue) as [cw ->]. repeat split.
  - repeat split.
  - repeat split.
  - repeat split.
Qed.

Lemma after_calls_untouched (cfg : config) (calls : list method_call) :
  forall o : NE1.agent,
    NE1.epoch (sub o) = 0%Z -> untouched o (after_calls cfg calls o).
Proof.
  induction calls as [| c calls IH]; intros o H0.
  - repeat split.
  - unfold after_calls. cbn [fold_left]. fold (after_calls cfg calls (perform cfg c o)).
    destruct (perform_untouched cfg c o) as (He & Hn & Ha & Hta & Htc).
    { rewrite H0. reflexivity. }
    destruct (IH (perform cfg c o)) as (He' & Hn' & Ha' & Hta' & Htc').
    { rewrite He. exact H0. }
    unfold untouched. repeat split; congruence.
Qed.

(** Were the search due, its first step would raise: the critic has three
    outputs and the loop over the population unpacks two. *)
Lemma evolution_raises (states : list feature) (o : NE1.agent) (first : NE1.Actor)
    (others : list NE1.Actor) :
  (0 < NE1.population_size (NE1.ne (sub o)))%Z ->
  NE1.population (NE1.ne (sub o)) = first :: others ->
  fst (NE1.evolution states o) = Raise ValueError.
Proof.
  intros Hsize Hpop. unfold NE1.evolution. unfold bind at 1. unfold get at 1.
  unfold py_range.
  destruct (Z.to_nat (NE1.population_size (NE1.ne (sub o)) - 0)) as [| k] eqn:Hk; [lia |].
  cbn [seq map for_each].
  unfold bind at 1. unfold bind at 1. unfold bind at 1. unfold get at 1.
  unfold bind at 1. unfold lift at 1. rewrite Hpop. cbn.
  reflexivity.
Qed.

End Epoch.

(** C2 (the code departs from the claim).  [build] sets [self.epoch] to 0
    and no method assigns it again: after any sequence of calls of the
    agent's methods, as many calls of [train] among them as one likes, the
    counter is 0, the guard [epoch >= 50 and epoch % 2 == 0] is false, and
    the population and the target network are those [build] left: no
    generation of the population search is ever run and the target network
    is never updated.  The guard is the one the claim describes (it holds at
    50 and 52 and fails at 49 and 51), and a search started on it would
    raise in its first step. *)
Theorem evolution_never_due :
  (forall (E : Externals) (cfg : config) (population : list weights)
          (actor0 critic0 : weights) (w : world) (a : attrs) (calls : list method_call),
      let o0 := mkObject w a (NE1.build cfg population actor0 critic0) in
      let o := after_calls cfg calls o0 in
      NE1.epoch (sub o) = 0%Z
      /\ NE1.evolution_due (NE1.epoch (sub o)) = false
      /\ NE1.ne (sub o) = NE1.ne (sub o0)
      /\ NE1.actor_w (sub o) = actor0
      /\ NE1.target_actor_w (sub o) = actor0
      /\ NE1.target_critic_w (sub o) = critic0)
  /\ (NE1.evolution_due 49 = false /\ NE1.evolution_due 50 = true
      /\ NE1.evolution_due 51 = false /\ NE1.evolution_due 52 = true)
  /\ (forall (states : list feature) (w : world) (a : attrs) (f : NE1.fields),
        fst (NE1.evolution (E := Fixture.externals) states
               (mkObject w a (NE1.set_ne Fixture.ne10 f)))
        = Raise ValueError).
Proof.
  split; [| split].
  - intros E cfg population actor0 critic0 w a calls o0 o.
    destruct (after_calls_untouched cfg calls o0 eq_refl) as (He & Hn & Ha & Hta & Htc).
    fold o in He, Hn, Ha, Hta, Htc.
    split; [exact He |]. split; [rewrite He; reflexivity |].
    split; [exact Hn |]. split; [exact Ha |]. split; [exact Hta | exact Htc].
  - repeat split.
  - intros states w a f.
    apply (evolution_raises (E := Fixture.externals) states _
             (NE1.mkActor [[[1]]] 1)
             (map (fun k => NE1.mkActor [[[inject_Z k]]] (inject_Z k)) (py_range 2 11))).
    + reflexivity.
    + reflexivity.
Qed.

(** * Further properties of the code *)

(** ** [huber_loss] *)

Lemma Qltb_ge (a b : Q) : Qltb a b = false <-> (b <= a)%Q.
Proof.
  split.
  - intros H. apply Qnot_lt_le. intros Hlt. apply Qltb_lt in Hlt. congruence.
  - intros H. destruct (Qltb a b) eqn:Hlt; [| reflexivity].
    apply Qltb_lt in Hlt. exfalso. exact (Qlt_not_le _ _ Hlt H).
Qed.

Lemma huber_loss_of_error (a b delta : Q) :
  (Qabs (a - b) < delta -> huber_loss a b delta == Qabs (a - b) * Qabs (a - b) * (1 # 2))%Q
  /\ (delta <= Qabs (a - b) ->
      huber_loss a b delta == delta * Qabs (a - b) - (1 # 2) * (delta * delta))%Q.
Proof.
  unfold huber_loss. split; intros H.
  - apply Qltb_lt in H. rewrite H. simpl. ring.
  - apply Qltb_ge in H. rewrite H. simpl. ring.
Qed.

(** X1.  [huber_loss] with a positive [delta] is never negative, does not
    depend on the order of its two arguments, is 0 on equal arguments, grows
    with the absolute error and stays below [delta] times that error. *)
Theorem huber_loss_properties :
  forall (a b c d delta : Q),
    (0 < delta)%Q ->
    (0 <= huber_loss a b delta)%Q
    /\ (huber_loss a b delta == huber_loss b a delta)%Q
    /\ (a == b -> huber_loss a b delta == 0)%Q
    /\ (Qabs (a - b) <= Qabs (c - d) -> huber_loss a b delta <= huber_loss c d delta)%Q
    /\ (huber_loss a b delta <= delta * Qabs (a - b))%Q.
Proof.
  intros a b c d delta Hd.
  assert (Hval : forall u v e, (e == Qabs (u - v))%Q ->
            ((e < delta)%Q /\ (huber_loss u v delta == e * e * (1 # 2))%Q)
            \/ ((delta <= e)%Q /\ (huber_loss u v delta == delta * e - (1 # 2) * (delta * delta))%Q)).
  { intros u v e He. destruct (huber_loss_of_error u v delta) as [H1 H2].
    destruct (Qlt_le_dec e delta) as [Hlt | Hle]; [left | right]; split; try assumption.
    - rewrite H1 by (rewrite <- He; exact Hlt). rewrite <- He. reflexivity.
    - rewrite H2 by (rewrite <- He; exact Hle). rewrite <- He. reflexivity. }
  pose proof (Qabs_nonneg (a - b)) as Hab. pose proof (Qabs_nonneg (c - d)) as Hcd.
  set (e := Qabs (a - b)) in *. set (e' := Qabs (c - d)) in *.
  split; [| split; [| split; [| split]]].
  - destruct (Hval a b e ltac:(reflexivity)) as [[Hlt ->] | [Hle ->]]; nra.
  - assert (e == Qabs (b - a))%Q as Hsym by (unfold e; rewrite Qabs_Qminus; reflexivity).
    destruct (Hval a b e ltac:(reflexivity)) as [[Hlt ->] | [Hle ->]];
      destruct (Hval b a e Hsym) as [[Hlt' ->] | [Hle' ->]]; try reflexivity; lra.
  - intros Heq.
    assert (e == 0)%Q as He0.
    { unfold e. rewrite Heq. setoid_replace (b - b)%Q with 0%Q by ring. reflexivity. }
    destruct (Hval a b e ltac:(reflexivity)) as [[Hlt ->] | [Hle ->]]; [rewrite He0; ring | lra].
  - intros Hee.
    destruct (Hval a b e ltac:(reflexivity)) as [[Hlt ->] | [Hle ->]];
      destruct (Hval c d e' ltac:(reflexivity)) as [[Hlt' ->] | [Hle' ->]]; nra.
  - destruct (Hval a b e ltac:(reflexivity)) as [[Hlt ->] | [Hle ->]]; nra.
Qed.

Lemma huber_loss_properties_witness :
  (0 < 4)%Q /\ (0 <= huber_loss 1 3 4)%Q /\ (huber_loss 1 3 4 == huber_loss 3 1 4)%Q.
Proof.
  split; [reflexivity |].
  destruct (huber_loss_properties 1 3 0 0 4 eq_refl) as (H1 & H2 & _).
  split; [exact H1 | exact H2].
Defined.

(** ** [prob] and [pg_action] *)





Lemma rmap_raises {A B : Type} (f : A -> result B) (e : exn) (l : list A) :
  Forall (fun a => (exists b, f a = Ok b) \/ f a = Raise e) l ->
  Exists (fun a => f a = Raise e) l ->
  rmap f l = Raise e.
Proof.
  induction 1 as [| a l Ha _ IH]; intros Hex; [inversion Hex |].
  simpl. destruct Ha as [[b Hb] | Hr].
  - rewrite Hb. simpl. inversion Hex as [? ? Hbad | ? ? Hrest]; subst; [congruence |].
    rewrite (IH Hrest). reflexivity.
  - rewrite Hr. reflexivity.
Qed.

Lemma Forall2_map_right {A B : Type} (R : A -> B -> Prop) (g : A -> B) (l : list A) :
  (forall a, R a (g a)) -> Forall2 R l (map g l).
Proof. intros H. induction l; simpl; constructor; auto. Qed.

Lemma py_index_out_of_range {A : Type} (l : list A) (k : nat) :
  (length l <= k)%nat -> py_index l (Z.of_nat k) = Raise IndexError.
Proof.
  intros Hk. unfold py_index.
  assert ((Z.of_nat k <? 0) = false)%Z as -> by (apply Z.ltb_ge; lia).
  assert ((Z.of_nat (length l) <=? Z.of_nat k) = true)%Z as -> by (apply Z.leb_le; lia).
  rewrite orb_true_r. reflexivity.
Qed.

(** X3.  On an array of rows with at least two columns [pg_action] returns
    the array itself as [q], one action per row, 0 when the first column is
    above 0.5 and 1 otherwise, and one leverage per row, the second column
    times 2.5 when it is positive and times 0.5 otherwise: a leverage has the
    sign of its column and lies in [-0.5, 2.5] when the column lies in
    [-1, 1]. *)
Theorem pg_action_result :
  forall m : matrix,
    Forall (fun row => (2 <= length row)%nat) m ->
    exists (acts : list Z) (lev : list Q),
      pg_action (Mat m) = Ok [IntVec acts; FloatVec lev; Mat m]
      /\ Forall2 (fun row z =>
                    ((1 # 2 < nth 0 row 0)%Q -> z = 0%Z)
                    /\ ((nth 0 row 0 <= 1 # 2)%Q -> z = 1%Z)) m acts
      /\ Forall2 (fun row l =>
                    ((0 < nth 1 row 0)%Q -> (l == nth 1 row 0 * (5 # 2))%Q /\ (0 < l)%Q)
                    /\ ((nth 1 row 0 <= 0)%Q -> (l == nth 1 row 0 * (1 # 2))%Q /\ (l <= 0)%Q)
                    /\ ((- (1) <= nth 1 row 0)%Q -> (nth 1 row 0 <= 1)%Q ->
                        (- (1 # 2) <= l)%Q /\ (l <= 5 # 2)%Q)) m lev.
Proof.
  intros m Hm. unfold pg_action.
  assert (H0 : column (Mat m) 0 = Ok (map (fun row => nth 0 row 0%Q) m)).
  { apply (column_of_matrix m 0).
    eapply Forall_impl; [| exact Hm]. intros row Hr. cbv beta in Hr. lia. }
  assert (H1 : column (Mat m) 1 = Ok (map (fun row => nth 1 row 0%Q) m)).
  { apply (column_of_matrix m 1).
    eapply Forall_impl; [| exact Hm]. intros row Hr. cbv beta in Hr. lia. }
  rewrite H0, H1. cbn [rbind]. eexists _, _. split; [reflexivity |]. split.
  - rewrite map_map. apply Forall2_map_right. intros row. split; intros H.
    + apply Qltb_lt in H. rewrite H. reflexivity.
    + apply Qltb_ge in H. rewrite H. reflexivity.
  - rewrite map_map. apply Forall2_map_right. intros row.
    destruct (Qltb 0 (nth 1 row 0%Q)) eqn:Hs.
    + apply Qltb_lt in Hs. repeat split; try reflexivity; intros; lra.
    + apply Qltb_ge in Hs. repeat split; try reflexivity; intros; lra.
Qed.

Lemma pg_action_result_witness :
  Forall (fun row : list Q => (2 <= length row)%nat) [[6 # 10; 1]; [0; - (1)]]
  /\ pg_action (Mat [[6 # 10; 1]; [0; - (1)]])
     = Ok [IntVec [0; 1]%Z; FloatVec [1 * (5 # 2); - (1) * (1 # 2)]%Q;
           Mat [[6 # 10; 1]; [0; - (1)]]].
Proof.
  assert (H : Forall (fun row : list Q => (2 <= length row)%nat) [[6 # 10; 1]; [0; - (1)]])
    by (repeat constructor).
  split; [exact H |].
  destruct (pg_action_result _ H) as (acts & lev & Hp & _). reflexivity.
Defined.

(** X4.  [pg_action] raises [IndexError] on an array that has no second
    axis and on a matrix one of whose rows has fewer than two columns. *)
Theorem pg_action_index_error :
  (forall v : list Z, pg_action (IntVec v) = Raise IndexError)
  /\ (forall v : list Q, pg_action (FloatVec v) = Raise IndexError)
  /\ (forall m : matrix,
        Exists (fun row => (length row < 2)%nat) m -> pg_action (Mat m) = Raise IndexError).
Proof.
  split; [reflexivity |]. split; [reflexivity |].
  intros m Hex. unfold pg_action.
  destruct (column (Mat m) 0) as [a0 | e] eqn:H0.
  - cbn [rbind].
    assert (column (Mat m) 1 = Raise IndexError) as ->; [| reflexivity].
    unfold column. apply rmap_raises.
    + apply Forall_forall. intros row _.
      destruct (Nat.lt_ge_cases 1 (length row)) as [Hl | Hl].
      * left. destruct (py_index_in_range row 1%nat Hl) as (v & Hv & _). eauto.
      * right. apply (py_index_out_of_range row 1%nat). lia.
    + eapply Exists_impl; [| exact Hex]. intros row Hr. cbv beta in Hr.
      apply (py_index_out_of_range row 1%nat). lia.
  - unfold column in H0. cbn [rbind].
    assert (rmap (fun row : list Q => py_index row 0) m = Raise IndexError
            \/ exists c, rmap (fun row : list Q => py_index row 0) m = Ok c) as [Hr | [c Hc]].
    { clear. induction m as [| row m IH]; simpl; [right; eauto |].
      destruct row as [| v row]; [left; reflexivity |].
      change (py_index (v :: row) 0) with (Ok (A := Q) v). cbn [rbind].
      destruct IH as [-> | [c ->]]; [left; reflexivity | right; simpl; eauto]. }
    + rewrite Hr in H0. injection H0 as <-. reflexivity.
    + congruence.
Qed.

Lemma pg_action_index_error_witness :
  Exists (fun row : list Q => (length row < 2)%nat) [[1; 2]; [3]]
  /\ pg_action (Mat [[1; 2]; [3]]) = Raise IndexError.
Proof.
  assert (H : Exists (fun row : list Q => (length row < 2)%nat) [[1; 2]; [3]]).
  { right. left. simpl. lia. }
  split; [exact H |].
  exact (proj2 (proj2 pg_action_index_error) [[1; 2]; [3]] H).
Defined.

(** ** The n-step transitions of a window *)

Section Accumulate.
Variables (N : nat) (df : list feature) (q : ndarray) (rewards : list Q).
Hypothesis N_pos : (1 <= N)%nat.

(** The iterations with [t < n - 1] append nothing. *)
Lemma accumulate_skips (k : nat) :
  forall (a : nat) (rest : list Z) (memory : list transition),
    (a + k <= N - 1)%nat ->
    accumulate (map Z.of_nat (seq a k) ++ rest) (Z.of_nat N) df (Some q) rewards memory
    = accumulate rest (Z.of_nat N) df (Some q) rewards memory.
Proof.
  induction k as [| k IH]; intros a rest memory Ha; [reflexivity |].
  cbn [seq map app accumulate].
  assert ((0 <=? Z.of_nat a - Z.of_nat N + 1) = false)%Z as -> by (apply Z.leb_gt; lia).
  apply IH. lia.
Qed.

Lemma accumulate_emits (k : nat) :
  forall (j : nat) (memory : list transition),
    (j + k + N <= length df)%nat ->
    (forall i, (i < j + k)%nat -> exists a, nd_index q (Z.of_nat i) = Ok a) ->
    exists ts,
      accumulate (map Z.of_nat (seq (N - 1 + j) k)) (Z.of_nat N) df (Some q) rewards memory
      = Ok (memory ++ ts)
      /\ length ts = k
      /\ forall i, (i < k)%nat ->
           exists s a s',
             py_index df (Z.of_nat (j + i)) = Ok s
             /\ nd_index q (Z.of_nat (j + i)) = Ok a
             /\ py_index df (Z.of_nat (j + i) + Z.of_nat N) = Ok s'
             /\ nth_error ts i
                = Some (mkTransition s a
                          (nstep (py_slice rewards (Z.of_nat (j + i) + 1)
                                           (Z.of_nat (j + i) + Z.of_nat N))) s').
Proof.
  induction k as [| k IH]; intros j memory Hdf Hq.
  - exists []. rewrite app_nil_r. split; [reflexivity |]. split; [reflexivity |].
    intros i Hi. lia.
  - cbn [seq map accumulate].
    replace (Z.of_nat (N - 1 + j) - Z.of_nat N + 1)%Z with (Z.of_nat j) by lia.
    assert ((0 <=? Z.of_nat j) = true)%Z as -> by (apply Z.leb_le; lia).
    destruct (py_index_in_range df j ltac:(lia)) as (s & Hs & _).
    destruct (Hq j ltac:(lia)) as (a & Ha).
    destruct (py_index_in_range df (j + N) ltac:(lia)) as (s' & Hs' & _).
    rewrite Nat2Z.inj_add in Hs'.
    rewrite Hs, Ha, Hs'. cbn [rbind].
    replace (Datatypes.S (N - 1 + j)) with (N - 1 + Datatypes.S j)%nat by lia.
    destruct (IH (Datatypes.S j)
                (memory ++ [mkTransition s a
                   (nstep (py_slice rewards (Z.of_nat j + 1) (Z.of_nat j + Z.of_nat N))) s'])
                ltac:(lia)) as (ts & Hrun & Hlen & Hall).
    { intros i Hi. apply Hq. lia. }
    rewrite Hrun. rewrite <- app_assoc. eexists. split; [reflexivity |].
    split; [simpl; rewrite Hlen; reflexivity |].
    intros [| i] Hi.
    + rewrite Nat.add_0_r. exists s, a, s'. auto.
    + replace (j + Datatypes.S i)%nat with (Datatypes.S j + i)%nat by lia.
      exact (Hall i ltac:(lia)).
Qed.
End Accumulate.

(** X5.  For n >= 1, on a window of [trend_len] rows with as many feature
    rows and actions, the loop over the window returns exactly
    [trend_len - n] transitions (none when the window is not longer than n),
    in the order of the rows: the j-th has the state [df[j]], the action
    [q[j]], the next state [df[j + n]], n rows ahead, and the return [nstep]
    makes of [rewards[j + 1 : j + n]]. *)
Theorem nstep_transitions_of_window :
  forall (n : Z) (trend_len : nat) (df : list feature) (q : ndarray) (rewards : list Q),
    (1 <= n)%Z ->
    (trend_len <= length df)%nat ->
    (forall i, (i < trend_len)%nat -> exists a, nd_index q (Z.of_nat i) = Ok a) ->
    exists ts,
      nstep_transitions n trend_len df (Some q) rewards = Ok ts
      /\ length ts = (trend_len - Z.to_nat n)%nat
      /\ forall j, (j < trend_len - Z.to_nat n)%nat ->
           exists s a s',
             py_index df (Z.of_nat j) = Ok s
             /\ nd_index q (Z.of_nat j) = Ok a
             /\ py_index df (Z.of_nat j + n) = Ok s'
             /\ nth_error ts j
                = Some (mkTransition s a
                          (nstep (py_slice rewards (Z.of_nat j + 1) (Z.of_nat j + n))) s').
Proof.
  intros n trend_len df q rewards Hn Hdf Hq.
  pose (N := Z.to_nat n). assert (n = Z.of_nat N) as HnN by (unfold N; lia).
  clearbody N. subst n. rewrite Nat2Z.id.
  assert (1 <= N)%nat as HN by lia.
  unfold nstep_transitions.
  destruct (Nat.eq_dec trend_len 0) as [-> | Hpos].
  { exists []. split; [reflexivity |]. split; [reflexivity |]. intros j Hj. lia. }
  assert (Z.of_nat trend_len - 1 = Z.of_nat (trend_len - 1))%Z as -> by lia.
  rewrite py_range_0.
  destruct (Nat.le_gt_cases trend_len N) as [Hshort | Hlong].
  - pose proof (accumulate_skips N df q rewards HN (trend_len - 1)%nat 0%nat [] [] ltac:(lia)) as Hs.
    rewrite app_nil_r in Hs. rewrite Hs. cbn [accumulate].
    exists []. split; [reflexivity |]. split; [simpl; lia |]. intros j Hj. lia.
  - replace (trend_len - 1)%nat with ((N - 1) + (trend_len - N))%nat by lia.
    rewrite seq_app, map_app.
    rewrite (accumulate_skips N df q rewards HN (N - 1)%nat 0%nat _ [] ltac:(lia)).
    replace (0 + (N - 1))%nat with (N - 1 + 0)%nat by lia.
    destruct (accumulate_emits N df q rewards HN (trend_len - N)%nat 0%nat [] ltac:(lia))
      as (ts & Hrun & Hlen & Hall).
    { intros i Hi. apply Hq. lia. }
    rewrite Hrun. exists ts. split; [reflexivity |]. split; [exact Hlen |].
    intros j Hj. exact (Hall j Hj).
Qed.

Lemma nstep_transitions_of_window_witness :
  ((1 <= 3)%Z /\ (5 <= length (repeat [[1; 2]] 5))%nat)
  /\ exists ts,
       nstep_transitions 3 5 (repeat [[1; 2]] 5) (Some (IntVec [0; 1; 2; 0; 1]%Z))
                         [0; 1; 2; 3; 4]
       = Ok ts
       /\ length ts = 2%nat
       /\ nth_error ts 1 = Some (mkTransition [[1; 2]] (IntElem 1) (PNum 3) [[1; 2]]).
Proof.
  split; [split; [lia | simpl; lia] |].
  destruct (nstep_transitions_of_window 3 5 (repeat [[1; 2]] 5)
              (IntVec [0; 1; 2; 0; 1]%Z) [0; 1; 2; 3; 4]
              ltac:(lia) ltac:(simpl; lia)) as (ts & Hrun & Hlen & Hall).
  { intros i Hi.
    do 5 (destruct i as [| i]; [eexists; reflexivity |]). lia. }
  exists ts. split; [exact Hrun |]. split; [exact Hlen |].
  destruct (Hall 1%nat ltac:(simpl; lia)) as (s & a & s' & Hs & Ha & Hs' & Hnth).
  injection Hs as <-. injection Ha as <-. injection Hs' as <-. exact Hnth.
Defined.

(** ** The reward signal of a window *)

Lemma py_setitem_out_of_range {A : Type} (l : list A) (k : nat) (v : A) :
  (length l <= k)%nat -> py_setitem l (Z.of_nat k) v = Raise IndexError.
Proof.
  intros Hk. unfold py_setitem.
  assert ((Z.of_nat k <? 0) = false)%Z as -> by (apply Z.ltb_ge; lia).
  assert ((Z.of_nat (length l) <=? Z.of_nat k) = true)%Z as -> by (apply Z.leb_le; lia).
  rewrite orb_true_r. reflexivity.
Qed.

Lemma Qeq_bool_false (a b : Q) : ~ (a == b)%Q -> Qeq_bool a b = false.
Proof.
  intros H. destruct (Qeq_bool a b) eqn:Hb; [| reflexivity].
  apply Qeq_bool_iff in Hb. contradiction.
Qed.

Lemma Qltb_false (a b : Q) : (b <= a)%Q -> Qltb a b = false.
Proof.
  intros H. destruct (Qltb a b) eqn:Hb; [| reflexivity].
  apply Qltb_lt in Hb. exfalso. exact (Qlt_not_le _ _ Hb H).
Qed.

Lemma last_cons {A : Type} (l : list A) (a d : A) : last (a :: l) d = last l a.
Proof.
  revert a d. induction l as [| b l IH]; intros a d; [reflexivity |].
  change (last (a :: b :: l) d) with (last (b :: l) d). rewrite !IH. reflexivity.
Qed.

Section RewardLoop.
Context {E : Externals}.

(** One round of the loop at an index in range, on a positive ratio. *)
Lemma reward_loop_step (index : nat) (prev r : Q) (rest rewards : list Q) :
  (1 <= index < length rewards)%nat ->
  ~ (prev == 0)%Q -> (0 < r / prev)%Q ->
  reward_loop index prev (r :: rest) rewards
  = reward_loop (Datatypes.S index) r rest
      (replace_nth index (inject_Z (py_int (np_log (r / prev) * 100 * 1000)) * (1 # 100))%Q
                   rewards).
Proof.
  intros [H1 Hlt] Hprev Hpos. cbn [reward_loop].
  assert ((index =? 0)%nat = false) as -> by (apply Nat.eqb_neq; lia).
  unfold py_div. rewrite (Qeq_bool_false _ _ Hprev). cbn [rbind].
  rewrite (py_setitem_in_range rewards index) by lia. cbn [rbind].
  unfold int_of_log. rewrite (Qltb_false (r / prev) 0) by (apply Qlt_le_weak; exact Hpos).
  rewrite Qeq_bool_false by (intros H0; rewrite H0 in Hpos; discriminate Hpos).
  cbn [rbind]. rewrite py_setitem_in_range by (rewrite length_replace_nth; lia).
  cbn [rbind]. f_equal.
  clear. revert index. induction rewards as [| a l IH]; intros [| k]; cbn [replace_nth];
    try reflexivity. rewrite IH. reflexivity.
Qed.

(** The rounds over gains whose ratios are positive. *)
Lemma reward_loop_prefix (good : list Q) :
  forall (index : nat) (prev : Q) (rest rewards : list Q),
    (1 <= index)%nat ->
    (index + length good <= length rewards)%nat ->
    ratios_positive prev good ->
    exists rewards',
      reward_loop index prev (good ++ rest) rewards
      = reward_loop (index + length good) (last good prev) rest rewards'
      /\ length rewards' = length rewards
      /\ (forall k, (k < index \/ index + length good <= k)%nat ->
            nth_error rewards' k = nth_error rewards k)
      /\ (forall j r, nth_error good j = Some r ->
            nth_error rewards' (index + j)
            = Some (inject_Z (py_int (np_log (r / nth j (prev :: good) 0) * 100 * 1000))
                    * (1 # 100))%Q).
Proof.
  induction good as [| r good IH]; intros index prev rest rewards H1 Hlen Hgood.
  - exists rewards. cbn [app length last]. rewrite Nat.add_0_r.
    split; [reflexivity |]. split; [reflexivity |]. split; [reflexivity |].
    intros [| j] r H; discriminate.
  - cbn [length] in Hlen. destruct Hgood as [[Hprev Hpos] Hgood].
    cbn [app]. rewrite (reward_loop_step index prev r) by (try lia; assumption).
    set (v := (inject_Z (py_int (np_log (r / prev) * 100 * 1000)) * (1 # 100))%Q).
    destruct (IH (Datatypes.S index) r rest (replace_nth index v rewards))
      as (rewards' & Hrun & Hl & Hout & Hin); [lia | rewrite length_replace_nth; lia | exact Hgood |].
    exists rewards'. rewrite last_cons. cbn [length].
    replace (index + Datatypes.S (length good))%nat
      with (Datatypes.S index + length good)%nat by lia.
    split; [exact Hrun |].
    split; [rewrite Hl; apply length_replace_nth |]. split.
    + intros k Hk. rewrite Hout by lia. apply nth_error_replace_nth_other. lia.
    + intros [| j] r' Hr'.
      * injection Hr' as <-. rewrite Nat.add_0_r.
        rewrite Hout by lia. rewrite nth_error_replace_nth_same by lia. reflexivity.
      * replace (index + Datatypes.S j)%nat with (Datatypes.S index + j)%nat by lia.
        rewrite (Hin j r' Hr'). reflexivity.
Qed.

(** The first round: [rewards[0] = 0]. *)
Lemma reward_signal_first (n : nat) (g0 : Q) (rest : list Q) :
  (0 < n)%nat ->
  reward_signal (repeat 0%Q n) (g0 :: rest) = reward_loop 1 g0 rest (repeat 0%Q n).
Proof.
  intros Hn. unfold reward_signal. rewrite repeat_length. cbn [reward_loop Nat.eqb].
  rewrite (py_setitem_in_range (repeat 0%Q n) 0) by (rewrite repeat_length; exact Hn).
  cbn [rbind]. destruct n as [| n]; [lia |]. reflexivity.
Qed.
End RewardLoop.

(** X6.  When every ratio total_gain[k] / total_gain[k - 1] is a positive
    number, the reward signal has one entry per entry of [growth_rate]:
    entry 0 is 0, entry k (for 0 < k < len(total_gain)) is
    int(log(total_gain[k] / total_gain[k - 1]) * 100 * 1000) / 100, a whole
    number of hundredths, and the entries past [total_gain] stay 0; when
    [total_gain] is the longer list, the assignment past the end raises
    [IndexError].  At the first ratio that is not a positive number (with
    room for it in the signal) the loop raises: [ZeroDivisionError] when the
    gain before is 0, else [ValueError] when the ratio is negative ([int] of
    NaN) and [OverflowError] when the gain is 0 ([int] of minus
    infinity). *)
Theorem reward_signal_entries :
  forall (E : Externals) (growth_rate total_gain : list Q),
    (positive_ratios total_gain ->
     (length total_gain <= length growth_rate)%nat ->
     exists rewards,
       reward_signal growth_rate total_gain = Ok rewards
       /\ length rewards = length growth_rate
       /\ (forall k, (k < length growth_rate)%nat ->
             (k = 0%nat \/ length total_gain <= k)%nat -> nth_error rewards k = Some 0%Q)
       /\ (forall k r prev,
             nth_error total_gain (Datatypes.S k) = Some r ->
             nth_error total_gain k = Some prev ->
             nth_error rewards (Datatypes.S k)
             = Some (inject_Z (py_int (np_log (r / prev) * 100 * 1000)) * (1 # 100))%Q))
    /\ (positive_ratios total_gain ->
        (length growth_rate < length total_gain)%nat ->
        reward_signal growth_rate total_gain = Raise IndexError)
    /\ (forall (pre : list Q) (prev r : Q) (post : list Q),
          total_gain = pre ++ prev :: r :: post ->
          positive_ratios (pre ++ [prev]) ->
          (length pre + 2 <= length growth_rate)%nat ->
          ((prev == 0)%Q -> reward_signal growth_rate total_gain = Raise ZeroDivisionError)
          /\ (~ (prev == 0)%Q -> (r / prev < 0)%Q ->
              reward_signal growth_rate total_gain = Raise ValueError)
          /\ (~ (prev == 0)%Q -> (r == 0)%Q ->
              reward_signal growth_rate total_gain = Raise OverflowError)).
Proof.
  intros E growth_rate total_gain.
  assert (Hsig : forall l, reward_signal growth_rate l
                           = reward_signal (repeat 0%Q (length growth_rate)) l).
  { intros l. unfold reward_signal. rewrite repeat_length. reflexivity. }
  set (n := length growth_rate) in *.
  split; [| split].
  - intros Hgood Hlen. rewrite Hsig.
    destruct total_gain as [| g0 rest].
    { exists (repeat 0%Q n).
      split; [unfold reward_signal; rewrite repeat_length; reflexivity |].
      split; [apply repeat_length |]. split.
      - intros k Hk _. apply nth_error_repeat. exact Hk.
      - intros k r prev H. destruct k; discriminate. }
    cbn [length] in Hlen. rewrite reward_signal_first by lia.
    destruct (reward_loop_prefix rest 1%nat g0 [] (repeat 0%Q n) ltac:(lia)
                ltac:(rewrite repeat_length; lia) Hgood)
      as (rewards & Hrun & Hl & Hout & Hin).
    rewrite repeat_length in Hl. rewrite app_nil_r in Hrun.
    exists rewards. split; [exact Hrun |]. split; [exact Hl |]. split.
    + intros k Hk Hcase. cbn [length] in Hcase. rewrite Hout by lia.
      apply nth_error_repeat. exact Hk.
    + intros k r prev Hr Hprev. cbn [nth_error] in Hr.
      pose proof (Hin k r Hr) as Hk. cbn [Nat.add] in Hk.
      rewrite (nth_error_nth _ _ 0%Q Hprev) in Hk. exact Hk.
  - intros Hgood Hlen. rewrite Hsig.
    destruct total_gain as [| g0 rest]; [cbn [length] in Hlen; lia |].
    cbn [length] in Hlen.
    destruct (Nat.eq_dec n 0) as [Hn | Hn].
    { rewrite Hn. reflexivity. }
    rewrite reward_signal_first by lia.
    rewrite <- (firstn_skipn (n - 1) rest) in Hgood |- *.
    assert (Hfl : length (firstn (n - 1) rest) = (n - 1)%nat)
      by (apply firstn_length_le; lia).
    destruct (skipn (n - 1) rest) as [| r post] eqn:Hskip.
    { apply (f_equal (@length Q)) in Hskip. rewrite length_skipn in Hskip.
      cbn [length] in Hskip. lia. }
    assert (Hsplit : ratios_positive g0 (firstn (n - 1) rest)
                     /\ ~ (last (firstn (n - 1) rest) g0 == 0)%Q).
    { clear - Hgood. revert g0 Hgood.
      induction (firstn (n - 1) rest) as [| a l IH]; intros g0 Hgood.
      - destruct Hgood as [[Hp _] _]. split; [exact I | exact Hp].
      - destruct Hgood as [Ha Hgood]. destruct (IH a Hgood) as [Hl Hlast].
        rewrite last_cons. split; [split; assumption | exact Hlast]. }
    destruct Hsplit as [Hpre Hlast].
    destruct (reward_loop_prefix (firstn (n - 1) rest) 1%nat g0 (r :: post) (repeat 0%Q n)
                ltac:(lia) ltac:(rewrite repeat_length; lia) Hpre)
      as (rewards & Hrun & Hl & _ & _).
    rewrite Hrun. rewrite Hfl. rewrite repeat_length in Hl.
    cbn [reward_loop].
    assert ((1 + (n - 1) =? 0)%nat = false) as -> by (apply Nat.eqb_neq; lia).
    unfold py_div. rewrite (Qeq_bool_false _ _ Hlast). cbn [rbind].
    rewrite py_setitem_out_of_range by lia. reflexivity.
  - intros pre prev r post Htg Hgood Hlen. subst total_gain. rewrite !Hsig.
    assert (Hrun : exists rewards,
               length rewards = n
               /\ reward_signal (repeat 0%Q n) (pre ++ prev :: r :: post)
                  = reward_loop (Datatypes.S (length pre)) prev (r :: post) rewards).
    { destruct pre as [| g0 pre].
      - exists (repeat 0%Q n). split; [apply repeat_length |].
        cbn [app length]. apply reward_signal_first. cbn [length] in Hlen. lia.
      - cbn [app length] in *. rewrite reward_signal_first by lia.
        assert (Hpre : ratios_positive g0 (pre ++ [prev])) by exact Hgood.
        destruct (reward_loop_prefix (pre ++ [prev]) 1%nat g0 (r :: post) (repeat 0%Q n)
                    ltac:(lia) ltac:(rewrite repeat_length, length_app; cbn [length]; lia)
                    Hpre)
          as (rewards & Hrun & Hl & _ & _).
        exists rewards. rewrite repeat_length in Hl. split; [exact Hl |].
        rewrite <- app_assoc in Hrun. cbn [app] in Hrun. rewrite Hrun.
        rewrite length_app, last_last. cbn [length].
        replace (1 + (length pre + 1))%nat with (Datatypes.S (Datatypes.S (length pre))) by lia.
        reflexivity. }
    destruct Hrun as (rewards & Hl & ->).
    cbn [reward_loop Nat.eqb]. unfold py_div.
    split; [| split].
    + intros H0. apply Qeq_bool_iff in H0. rewrite H0. reflexivity.
    + intros Hprev Hneg. rewrite (Qeq_bool_false _ _ Hprev). cbn [rbind].
      rewrite (py_setitem_in_range rewards (Datatypes.S (length pre))) by lia. cbn [rbind].
      unfold int_of_log. apply Qltb_lt in Hneg. rewrite Hneg. reflexivity.
    + intros Hprev Hr. rewrite (Qeq_bool_false _ _ Hprev). cbn [rbind].
      rewrite (py_setitem_in_range rewards (Datatypes.S (length pre))) by lia. cbn [rbind].
      unfold int_of_log.
      assert (Hzero : (r / prev == 0)%Q) by (rewrite Hr; unfold Qdiv; ring).
      rewrite (Qltb_false (r / prev) 0) by (rewrite Hzero; apply Qle_refl).
      apply Qeq_bool_iff in Hzero. rewrite Hzero. reflexivity.
Qed.

Lemma reward_signal_entries_witness :
  (positive_ratios [1; 2; 4] /\ (length [1; 2; 4] <= length [0; 0; 0; 0])%nat)
  /\ (exists rewards,
        reward_signal (E := Fixture.externals) [0; 0; 0; 0] [1; 2; 4] = Ok rewards
        /\ length rewards = 4%nat
        /\ nth_error rewards 0 = Some 0%Q
        /\ nth_error rewards 3 = Some 0%Q)
  /\ reward_signal (E := Fixture.externals) [0; 0; 0] [1; - (1); 2] = Raise ValueError.
Proof.
  assert (H1 : positive_ratios [1; 2; 4]).
  { repeat split; try (intros H; discriminate H). }
  assert (H2 : (length [1; 2; 4] <= length [0; 0; 0; 0])%nat) by (simpl; lia).
  destruct (reward_signal_entries Fixture.externals [0; 0; 0; 0] [1; 2; 4]) as [Hok _].
  destruct (Hok H1 H2) as (rewards & Hrun & Hl & Hz & _).
  split; [split; [exact H1 | exact H2] |]. split.
  - exists rewards. split; [exact Hrun |]. split; [exact Hl |].
    split; apply Hz; simpl; lia.
  - destruct (reward_signal_entries Fixture.externals [0; 0; 0] [1; - (1); 2])
      as (_ & _ & Hbad).
    destruct (Hbad [] 1 (- (1)) [2] eq_refl I ltac:(simpl; lia)) as (_ & Hneg & _).
    apply Hneg; [intros H; discriminate H | reflexivity].
Defined.

(** ** The windows of the loop *)

Section Randint.
Context {S : Type} {HW : HasWorld S}.

Lemma randint_in_range (lo hi : Z) (s : S) :
  (lo < hi)%Z ->
  exists h g,
    np_random_randint lo hi s = (Ok h, set_world (mkWorld g (log (get_world s))) s)
    /\ (lo <= h < hi)%Z.
Proof.
  intros Hlt. unfold np_random_randint, with_rng.
  assert ((hi <=? lo) = false)%Z as -> by (apply Z.leb_gt; lia).
  destruct (pop 0%Z (ints (rng (get_world s)))) as [z rest].
  eexists _, _. split; [reflexivity |].
  pose proof (Z.mod_pos_bound z (hi - lo) ltac:(lia)). lia.
Qed.

Lemma randint_empty (lo hi : Z) (s : S) :
  (hi <= lo)%Z -> np_random_randint lo hi s = (Raise ValueError, s).
Proof.
  intros Hle. unfold np_random_randint.
  assert ((hi <=? lo) = true)%Z as -> by (apply Z.leb_le; lia). reflexivity.
Qed.
End Randint.

(** [int] of the bound of the training rows: four fifths of the rows,
    rounded down. *)
Lemma py_int_train_rows (cfg : config) :
  py_int (train_rows cfg) = (4 * Z.of_nat (length (x cfg)) / 5)%Z.
Proof.
  unfold py_int, train_rows.
  set (r := Z.of_nat (length (x cfg))). assert (0 <= r)%Z by (unfold r; lia).
  change (Qnum (inject_Z r - inject_Z r * (2 # 10))) with (r * 10 + - (r * 2) * 1)%Z.
  change (Qden (inject_Z r - inject_Z r * (2 # 10))) with 10%positive.
  Z.to_euclidean_division_equations. lia.
Qed.

Lemma py_int_train_rows_less (cfg : config) (s : Z) :
  let split := (4 * Z.of_nat (length (x cfg)) / 5)%Z in
  ((s < split)%Z -> py_int (train_rows cfg - inject_Z s) = (split - s)%Z)
  /\ ((split <= s)%Z -> (py_int (train_rows cfg - inject_Z s) <= 0)%Z).
Proof.
  unfold py_int, train_rows.
  set (r := Z.of_nat (length (x cfg))). assert (0 <= r)%Z by (unfold r; lia).
  change (Qnum (inject_Z r - inject_Z r * (2 # 10) - inject_Z s))
    with ((r * 10 + - (r * 2) * 1) * 1 + - s * 10)%Z.
  change (Qden (inject_Z r - inject_Z r * (2 # 10) - inject_Z s)) with 10%positive.
  split; intros Hs; Z.to_euclidean_division_equations; lia.
Qed.

(** X7.  The window start [h] of an iteration.  With [split] four fifths
    of the number of rows, rounded down: an evaluation iteration
    ((i + 1) % 5 == 0) draws [h] with split <= h and h + 5 * step_size below
    the number of rows, and raises [ValueError] when there is no such [h];
    an iteration with i % 5 in 1, 2, 3 draws [h] with 0 <= h and
    h + step_size < split, so that its window ends before any evaluation
    window starts, and raises [ValueError] when split <= step_size; an
    iteration with i % 5 == 0 draws nothing and keeps the [h] of the
    iteration before.  A draw changes the random source and nothing else. *)
Theorem window_start_ranges :
  forall (E : Externals) (Sub : Type) (cfg : config) (i h : Z) (o : object Sub),
    let rows := Z.of_nat (length (x cfg)) in
    let split := (4 * rows / 5)%Z in
    let step := step_size cfg in
    (((i + 1) mod 5 = 0)%Z ->
       ((split + 5 * step < rows)%Z ->
          exists h' g,
            choose_h cfg i h o = (Ok h', set_env (mkWorld g (log (env o))) o)
            /\ (split <= h')%Z /\ (h' + 5 * step < rows)%Z)
       /\ ((rows <= split + 5 * step)%Z -> choose_h cfg i h o = (Raise ValueError, o)))
    /\ (((i + 1) mod 5 <> 0)%Z -> (i mod 5 <> 0)%Z ->
          ((step < split)%Z ->
             exists h' g,
               choose_h cfg i h o = (Ok h', set_env (mkWorld g (log (env o))) o)
               /\ (0 <= h')%Z /\ (h' + step < split)%Z)
          /\ ((split <= step)%Z -> choose_h cfg i h o = (Raise ValueError, o)))
    /\ ((i mod 5 = 0)%Z -> choose_h cfg i h o = (Ok h, o)).
Proof.
  intros E Sub cfg i h o rows split step.
  split; [| split].
  - intros Hi. unfold choose_h. apply Z.eqb_eq in Hi. rewrite Hi.
    rewrite py_int_train_rows. fold rows split step. split; intros Hb.
    + destruct (randint_in_range split (rows - step * 5) o ltac:(lia)) as (h' & g & Hr & Hh).
      exists h', g. split; [exact Hr |]. lia.
    + apply randint_empty. lia.
  - intros Hi1 Hi0. unfold choose_h.
    apply Z.eqb_neq in Hi1. apply Z.eqb_neq in Hi0. rewrite Hi1, Hi0. cbn [negb].
    destruct (py_int_train_rows_less cfg step) as [Hlt Hge]. fold rows split in Hlt, Hge.
    fold step. split; intros Hb.
    + rewrite (Hlt Hb).
      destruct (randint_in_range 0 (split - step) o ltac:(lia)) as (h' & g & Hr & Hh).
      exists h', g. split; [exact Hr |]. lia.
    + apply randint_empty. exact (Hge Hb).
  - intros Hi0. unfold choose_h.
    assert (((i + 1) mod 5 =? 0) = false)%Z as ->.
    { apply Z.eqb_neq. Z.to_euclidean_division_equations. lia. }
    apply Z.eqb_eq in Hi0. rewrite Hi0. reflexivity.
Qed.

Lemma window_start_ranges_witness :
  let cfg := Fixture.cfg_of (Some "DQN"%string) in
  (((4 + 1) mod 5 = 0)%Z
   /\ (4 * Z.of_nat (length (x cfg)) / 5 + 5 * step_size cfg < Z.of_nat (length (x cfg)))%Z)
  /\ exists h' g,
       choose_h (E := Fixture.externals) cfg 4 0 Fixture.dqn_agent
       = (Ok h', set_env (mkWorld g (log (env Fixture.dqn_agent))) Fixture.dqn_agent)
       /\ (128 <= h')%Z /\ (h' < 130)%Z.
Proof.
  intros cfg.
  assert (H1 : ((4 + 1) mod 5 = 0)%Z) by reflexivity.
  assert (H2 : (4 * Z.of_nat (length (x cfg)) / 5 + 5 * step_size cfg
                < Z.of_nat (length (x cfg)))%Z) by (vm_compute; reflexivity).
  split; [split; [exact H1 | exact H2] |].
  destruct (window_start_ranges Fixture.externals DQN.fields cfg 4 0 Fixture.dqn_agent)
    as [Heval _].
  destruct (Heval H1) as [Hdraw _].
  destruct (Hdraw H2) as (h' & g & Hrun & Hlo & Hhi).
  exists h', g. split; [exact Hrun |].
  change (4 * Z.of_nat (length (x cfg)) / 5)%Z with 128%Z in Hlo, Hhi.
  change (step_size cfg) with 6%Z in Hhi.
  change (Z.of_nat (length (x cfg))) with 160%Z in Hhi. lia.
Defined.

Section Iteration.
Context {E : Externals} {Sub : Type}.
Variable M : methods Sub.
Variable cfg : config.

(** The [h] an iteration hands on is the one its window started at. *)
Lemma run_iter_window (i reset h reset' h' : Z) (o o' : object Sub) :
  run_iter M cfg i (reset, h) o = (Ok (reset', h'), o') ->
  exists o1, choose_h cfg i h o = (Ok h', o1).
Proof.
  unfold run_iter. intros H.
  bind_inv H. exists s. rewrite Hc. bind_inv H. destruct a0 as [action q].
  do 8 bind_inv H. unfold ret in H. inversion H. reflexivity.
Qed.
End Iteration.

(** X8.  When an evaluation iteration i ((i + 1) % 5 == 0) and the
    iteration after it both return, they ran on the same window, and that
    window starts at or after [split], in the rows the evaluation draws
    from: iteration i + 1 is not an evaluation iteration (its transitions go
    to the replay buffer), draws no window of its own and keeps the [h] of
    iteration i. *)
Theorem evaluation_window_used_by_next_iteration :
  forall (E : Externals) (Sub : Type) (M : methods Sub) (cfg : config)
         (i reset h reset2 h2 : Z) (o o2 : object Sub),
    ((i + 1) mod 5 = 0)%Z ->
    run_loop M cfg [i; (i + 1)%Z] (reset, h) o = (Ok (reset2, h2), o2) ->
    exists (reset1 : Z) (o1 : object Sub),
      run_iter M cfg i (reset, h) o = (Ok (reset1, h2), o1)
      /\ run_iter M cfg (i + 1) (reset1, h2) o1 = (Ok (reset2, h2), o2)
      /\ choose_h cfg (i + 1) h2 o1 = (Ok h2, o1)
      /\ (((i + 1) + 1) mod 5 <> 0)%Z
      /\ (4 * Z.of_nat (length (x cfg)) / 5 <= h2)%Z
      /\ (h2 + 5 * step_size cfg < Z.of_nat (length (x cfg)))%Z.
Proof.
  intros E Sub M cfg i reset h reset2 h2 o o2 Hi H.
  cbn [run_loop] in H. bind_inv H. destruct a as [reset1 h1]. rename s into o1.
  bind_inv H. destruct a as [r2 h2']. unfold ret in H. injection H as -> -> ->.
  assert (Hreuse : forall o' : object Sub, choose_h cfg (i + 1) h1 o' = (Ok h1, o')).
  { intros o'. unfold choose_h.
    assert (((i + 1 + 1) mod 5 =? 0) = false)%Z as ->.
    { apply Z.eqb_neq. Z.to_euclidean_division_equations. lia. }
    apply Z.eqb_eq in Hi. rewrite Hi. reflexivity. }
  destruct (run_iter_window M cfg _ _ _ _ _ _ _ Hc0) as [o' Hch].
  rewrite Hreuse in Hch. injection Hch as <- _.
  exists reset1, o1. split; [exact Hc |]. split; [exact Hc0 |]. split; [apply Hreuse |].
  split; [Z.to_euclidean_division_equations; lia |].
  destruct (run_iter_window M cfg _ _ _ _ _ _ _ Hc) as [o'' Hch].
  unfold choose_h in Hch. pose proof Hi as Hi'. apply Z.eqb_eq in Hi'. rewrite Hi' in Hch.
  rewrite py_int_train_rows in Hch.
  set (split := (4 * Z.of_nat (length (x cfg)) / 5)%Z) in *.
  set (hi := (Z.of_nat (length (x cfg)) - step_size cfg * 5)%Z) in *.
  destruct (Z_lt_le_dec split hi) as [Hlt | Hle].
  - destruct (randint_in_range split hi o Hlt) as (h' & g & Hr & Hh).
    rewrite Hr in Hch. injection Hch as <- _. unfold hi in Hh. lia.
  - rewrite (randint_empty split hi o Hle) in Hch. discriminate.
Qed.

Lemma evaluation_window_used_by_next_iteration_witness :
  let cfg := Fixture.cfg_of (Some "DQN"%string) in
  ((4 + 1) mod 5 = 0)%Z
  /\ exists (reset1 reset2 h2 : Z) (o1 o2 : DQN.agent),
       run_iter (E := Fixture.externals) (DQN.Agent cfg) cfg 4 (0%Z, 0%Z) Fixture.dqn_agent
       = (Ok (reset1, h2), o1)
       /\ run_iter (E := Fixture.externals) (DQN.Agent cfg) cfg 5 (reset1, h2) o1
          = (Ok (reset2, h2), o2)
       /\ (128 <= h2)%Z.
Proof.
  intros cfg. split; [reflexivity |].
  destruct (run_loop (E := Fixture.externals) (DQN.Agent cfg) cfg [4; 5]%Z (0%Z, 0%Z)
              Fixture.dqn_agent) as [[[reset2 h2] | e] o2] eqn:Hrun;
    [| vm_compute in Hrun; discriminate Hrun].
  destruct (evaluation_window_used_by_next_iteration Fixture.externals _ (DQN.Agent cfg) cfg
              4 0 0 reset2 h2 Fixture.dqn_agent o2 eq_refl Hrun)
    as (reset1 & o1 & H1 & H2 & _ & _ & Hlo & _).
  exists reset1, reset2, h2, o1, o2. split; [exact H1 |]. split; [exact H2 |]. exact Hlo.
Defined.

(** ** The iterations before the first training step *)

Lemma bind_ext_on {S A B : Type} (c : py S A) (k k' : A -> py S B) (s : S) :
  (forall a s1, c s = (Ok a, s1) -> k a s1 = k' a s1) -> bind c k s = bind c k' s.
Proof.
  intros H. unfold bind. destruct (c s) as [[a | e] s1]; [apply H |]; reflexivity.
Qed.

Section WarmUp.
Context {E : Externals} {Sub : Type}.
Variable M : methods Sub.
Variable train' : py (object Sub) unit.
Variable cfg : config.

Lemma run_iter_without_train (i reset h : Z) (o : object Sub) :
  (reset <= 50)%Z \/ rebuild_due reset = true ->
  run_iter M cfg i (reset, h) o
  = run_iter (mkMethods (policy M) (sample M) train' (lr_decay M) (gamma_updae M) (save M))
             cfg i (reset, h) o.
Proof.
  intros Hr. unfold run_iter. cbv iota beta.
  apply bind_ext_on. intros h1 o1 _.
  apply bind_ext_on. intros [action q] o2 _.
  apply bind_ext_on. intros r1 o3 Hreb.
  apply bind_ext_on. intros [] o4 _.
  assert ((50 <? r1) = false)%Z as ->; [| reflexivity].
  apply Z.ltb_ge. rewrite rebuild_effect in Hreb.
  destruct (rebuild_due reset); injection Hreb as <- _; [lia |].
  destruct Hr as [Hr | Hr]; [exact Hr | discriminate].
Qed.

Lemma run_loop_without_train (iters : list Z) :
  forall (reset h : Z) (o : object Sub),
    (0 <= reset)%Z -> (reset + Z.of_nat (length iters) <= 51)%Z ->
    run_loop M cfg iters (reset, h) o
    = run_loop (mkMethods (policy M) (sample M) train' (lr_decay M) (gamma_updae M) (save M))
               cfg iters (reset, h) o.
Proof.
  induction iters as [| i iters IH]; intros reset h o H0 Hlen; [reflexivity |].
  cbn [run_loop length] in *.
  unfold bind. rewrite <- run_iter_without_train by lia.
  destruct (run_iter M cfg i (reset, h) o) as [[[reset1 h1] | e] o1] eqn:Hit; [| reflexivity].
  apply run_iter_next_reset in Hit. subst reset1.
  assert (next_reset reset = reset + 1)%Z as ->.
  { unfold next_reset, rebuild_due.
    assert (((reset + 1) mod 10000 =? 0) = false)%Z as ->; [| reflexivity].
    apply Z.eqb_neq. rewrite Z.mod_small; lia. }
  apply IH; lia.
Qed.
End WarmUp.

(** X9.  [train] is not called in an iteration that starts with the local
    [reset] at most 50 or that rebuilds the buffer: such an iteration runs
    the same with any other [train] in its place.  So the first 51
    iterations of a loop started at [reset = 0], whatever their numbers,
    never train. *)
Theorem no_training_before_51_iterations :
  forall (E : Externals) (Sub : Type) (M : methods Sub) (train' : py (object Sub) unit)
         (cfg : config),
    let M' := mkMethods (policy M) (sample M) train' (lr_decay M) (gamma_updae M) (save M) in
    (forall (i reset h : Z) (o : object Sub),
        (reset <= 50)%Z \/ rebuild_due reset = true ->
        run_iter M cfg i (reset, h) o = run_iter M' cfg i (reset, h) o)
    /\ (forall (iters : list Z) (h : Z) (o : object Sub),
          (length iters <= 51)%nat ->
          run_loop M cfg iters (0%Z, h) o = run_loop M' cfg iters (0%Z, h) o).
Proof.
  intros E Sub M train' cfg M'. split.
  - intros i reset h o Hr. apply run_iter_without_train. exact Hr.
  - intros iters h o Hlen. apply run_loop_without_train; lia.
Qed.

Lemma no_training_before_51_iterations_witness :
  let cfg := Fixture.cfg_of (Some "DQN"%string) in
  ((50 <= 50)%Z \/ rebuild_due 50 = true)
  /\ run_iter (E := Fixture.externals) (DQN.Agent cfg) cfg 50 (50%Z, 0%Z) Fixture.dqn_agent
     = run_iter (E := Fixture.externals)
         (mkMethods DQN.policy DQN.sample (raise TypeError) (DQN.lr_decay cfg)
                    DQN.gamma_updae DQN.save)
         cfg 50 (50%Z, 0%Z) Fixture.dqn_agent.
Proof.
  intros cfg.
  assert (H : (50 <= 50)%Z \/ rebuild_due 50 = true) by (left; lia).
  split; [exact H |].
  exact (proj1 (no_training_before_51_iterations Fixture.externals _ (DQN.Agent cfg)
                  (raise TypeError) cfg) 50%Z 50%Z 0%Z Fixture.dqn_agent H).
Defined.

(** ** The value-based agent: priorities *)

Lemma returns_of_scalars (memory : list transition) :
  Forall (fun t => exists r, t_return t = PNum r) memory ->
  exists rewards,
    returns_of memory = Ok rewards
    /\ length rewards = length memory
    /\ forall i t r, nth_error memory i = Some t -> t_return t = PNum r ->
                     nth_error rewards i = Some r.
Proof.
  intros Hmem.
  assert (H : exists rewards,
             scalars (map t_return memory) = Some rewards
             /\ length rewards = length memory
             /\ forall i t r, nth_error memory i = Some t -> t_return t = PNum r ->
                              nth_error rewards i = Some r).
  { induction Hmem as [| t memory [r Hr] _ (rewards & Hs & Hl & Hn)].
    - exists []. split; [reflexivity |]. split; [reflexivity |].
      intros [| i] t r H; discriminate.
    - exists (r :: rewards). cbn [map scalars]. rewrite Hr, Hs. split; [reflexivity |].
      split; [cbn [length]; rewrite Hl; reflexivity |].
      intros [| i] t' r' Ht' Hr'; cbn [nth_error] in *.
      + injection Ht' as <-. congruence.
      + apply (Hn i t' r' Ht' Hr'). }
  destruct H as (rewards & Hs & Hl & Hn). exists rewards.
  unfold returns_of. rewrite Hs. auto.
Qed.

Lemma abs_sum_self (row : list Q) :
  (fold_right Qplus 0 (map (fun ab => Qabs (fst ab - snd ab)) (combine row row)) == 0)%Q.
Proof.
  induction row as [| v row IH]; cbn [combine map fold_right fst snd]; [reflexivity |].
  rewrite IH. setoid_replace (v - v)%Q with 0%Q by ring. reflexivity.
Qed.

(** The row sum of |q_backup - q| on a row that differs in one entry. *)
Lemma abs_sum_replaced (old : list Q) :
  forall (a : nat) (v qv : Q),
    nth_error old a = Some qv ->
    (fold_right Qplus 0
       (map (fun ab => Qabs (fst ab - snd ab)) (combine (replace_nth a v old) old))
     == Qabs (v - qv))%Q.
Proof.
  induction old as [| u old IH]; intros [| a] v qv Hn; try discriminate;
    cbn [replace_nth combine map fold_right fst snd nth_error] in *.
  - injection Hn as <-. rewrite abs_sum_self. ring.
  - rewrite (IH a v qv Hn). setoid_replace (u - u)%Q with 0%Q by ring.
    change (Qabs 0) with 0%Q. ring.
Qed.

Lemma nth_error_abs_error (q_backup q : matrix) :
  forall (i : nat) (row old : list Q),
    nth_error q_backup i = Some row -> nth_error q i = Some old ->
    nth_error (DQN.abs_error q_backup q) i
    = Some (fold_right Qplus 0%Q (map (fun ab => Qabs (fst ab - snd ab)) (combine row old))).
Proof.
  unfold DQN.abs_error. revert q.
  induction q_backup as [| r qb IH]; intros [| u q] [| i] row old Hb Hq; try discriminate;
    cbn [combine map nth_error fst snd] in *.
  - injection Hb as <-. injection Hq as <-. reflexivity.
  - apply IH; assumption.
Qed.

(** X10.  The priority the value-based [sample] computes for a transition
    is the absolute temporal-difference error of the action taken:
    | r + gamma * target_q[i, argmax(arg_q[i])] - q[i, a] |, with [q] the
    online network's values on the state, [arg_q] its values on the next
    state and [target_q] the target network's values there; one priority per
    transition, and the agent is left as it was. *)
Theorem dqn_sample_td_error :
  forall (E : Externals) (memory : list transition) (o : DQN.agent) (cols : nat),
    let q := dqn_forward (DQN.model (sub o)) (map t_state memory) in
    let target_q := dqn_forward (DQN.target_model (sub o)) (map t_next memory) in
    let arg_q := dqn_forward (DQN.model (sub o)) (map t_next memory) in
    (0 < cols)%nat ->
    length q = length memory ->
    length target_q = length memory ->
    length arg_q = length memory ->
    Forall (fun row => length row = cols) q ->
    Forall (fun row => length row = cols) target_q ->
    Forall (fun row => length row = cols) arg_q ->
    Forall (fun t => (exists r, t_return t = PNum r)
                     /\ exists k, t_action t = IntElem (Z.of_nat k) /\ (k < cols)%nat) memory ->
    exists ae,
      DQN.sample memory o = (Ok ae, o)
      /\ length ae = length memory
      /\ forall i t, nth_error memory i = Some t ->
           exists (r qv tv e : Q) (a best : nat) (qrow arow trow : list Q),
             t_return t = PNum r /\ t_action t = IntElem (Z.of_nat a)
             /\ nth_error q i = Some qrow /\ nth_error qrow a = Some qv
             /\ nth_error arg_q i = Some arow /\ argmax arow = Ok (Z.of_nat best)
             /\ nth_error target_q i = Some trow /\ nth_error trow best = Some tv
             /\ nth_error ae i = Some e
             /\ (e == Qabs (r + gamma (self o) * tv - qv))%Q.
Proof.
  intros E memory o cols q target_q arg_q Hcols Hq Ht Ha Hqc Htc Hac Hmem.
  destruct (returns_of_scalars memory) as (rewards & Hret & Hrl & Hrn).
  { eapply Forall_impl; [| exact Hmem]. intros t [Hr _]. exact Hr. }
  assert (Hrange : Forall (fun a => exists k, a = IntElem (Z.of_nat k) /\ (k < cols)%nat)
                          (map t_action memory)).
  { apply Forall_map. eapply Forall_impl; [| exact Hmem]. intros t [_ Hk]. exact Hk. }
  destruct (backup_loop_spec (gamma (self o)) rewards (map t_action memory)
              target_q arg_q cols Hcols ltac:(congruence) ltac:(congruence)
              ltac:(rewrite length_map; congruence) Htc Hac Hrange
              (length rewards) 0%nat q ltac:(lia) ltac:(congruence) Hqc)
    as (qb & Hrun & Hlen & _ & _ & Hin).
  exists (DQN.abs_error qb q). split; [| split].
  - unfold DQN.sample, DQN.loss, bind, get, lift, ret. rewrite Hret, py_range_0.
    fold q target_q arg_q. rewrite Hrun. reflexivity.
  - unfold DQN.abs_error. rewrite length_map, length_combine. lia.
  - intros i t Hnth.
    assert (i < length memory)%nat as Hi by (apply nth_error_Some; congruence).
    destruct (Hin i ltac:(lia))
      as (old & row & Hold & Hrow & r & tv & a & best & arow & trow
          & H1 & H2 & H3 & H4 & H5 & H6 & H7 & ->).
    pose proof (Forall_nth_error _ _ _ _ Hmem Hnth) as [[r' Hr'] _].
    rewrite (Hrn i t r' Hnth Hr') in H1. injection H1 as <-.
    rewrite (map_nth_error t_action i memory Hnth) in H2. injection H2 as Hact.
    destruct (nth_error old a) as [qv |] eqn:Hqv; [| apply nth_error_None in Hqv; lia].
    eexists r', qv, tv, _, a, best, old, arow, trow.
    split; [exact Hr' |]. split; [exact Hact |]. split; [exact Hold |].
    split; [exact Hqv |]. split; [exact H3 |]. split; [exact H4 |].
    split; [exact H5 |]. split; [exact H6 |].
    split; [apply (nth_error_abs_error qb q i _ old Hrow Hold) |].
    apply abs_sum_replaced. exact Hqv.
Qed.

Lemma dqn_sample_td_error_witness :
  let o := Fixture.dqn_agent_double in
  let t := mkTransition [[1; 2]; [3; 4]] (IntElem 0) (PNum 1) [[1; 2]; [3; 4]] in
  ((0 < 3)%nat
   /\ Forall (fun t => (exists r, t_return t = PNum r)
                       /\ exists k, t_action t = IntElem (Z.of_nat k) /\ (k < 3)%nat) [t])
  /\ exists ae e,
       DQN.sample (E := Fixture.externals) [t] o = (Ok ae, o)
       /\ nth_error ae 0 = Some e
       /\ (e == Qabs (1 + (4 # 10) * 2 - 0))%Q.
Proof.
  intros o t.
  assert (Hmem : Forall (fun t => (exists r, t_return t = PNum r)
                       /\ exists k, t_action t = IntElem (Z.of_nat k) /\ (k < 3)%nat) [t]).
  { constructor; [| constructor]. split; [exists 1%Q; reflexivity |].
    exists 0%nat. split; [reflexivity | lia]. }
  split; [split; [lia | exact Hmem] |].
  destruct (dqn_sample_td_error Fixture.externals [t] o 3%nat
              ltac:(lia) eq_refl eq_refl eq_refl
              ltac:(repeat constructor) ltac:(repeat constructor) ltac:(repeat constructor)
              Hmem)
    as (ae & Hrun & _ & Hall).
  destruct (Hall 0%nat t eq_refl)
    as (r & qv & tv & e & a & best & qrow & arow & trow
        & H1 & H2 & H3 & H4 & H5 & H6 & H7 & H8 & H9 & H10).
  cbn in H1, H2, H3, H5, H7.
  injection H1 as <-. injection H3 as <-. injection H5 as <-. injection H7 as <-.
  injection H2 as Ha.
  assert (a = 0%nat) by lia. subst a. clear Ha.
  change (Ok (A := Z) 1%Z = Ok (Z.of_nat best)) in H6. injection H6 as Hb.
  assert (best = 1%nat) by lia. subst best. clear Hb.
  cbn in H4, H8. injection H4 as <-. injection H8 as <-.
  exists ae, e. split; [exact Hrun |]. split; [exact H9 | exact H10].
Defined.




(** ** The value-based agent: what no method assigns *)

Section DqnFrame.
Context {E : Externals}.

#[local] Instance same_target_preorder : PreOrder same_target.
Proof.
  split.
  - intros o. split; reflexivity.
  - intros a b c [H1 H2] [H3 H4]. split; congruence.
Qed.

#[local] Instance same_target_blind : BlindToDraws same_target.
Proof. intros s g. split; reflexivity. Qed.

Lemma dqn_policy_same_target (state : list feature) (i : Z) :
  preserves same_target (DQN.policy state i).
Proof.
  unfold DQN.policy. repeat first [ frame_step | (intros s; split; reflexivity) ].
Qed.

Lemma dqn_loss_same_target (states new_states : list feature) (rewards : list Q)
    (actions : list elem) :
  preserves same_target (DQN.loss states new_states rewards actions).
Proof. intros o. rewrite loss_state. reflexivity. Qed.

Lemma dqn_sample_same_target (memory : list transition) :
  preserves same_target (DQN.sample memory).
Proof.
  unfold DQN.sample.
  repeat first [ apply dqn_loss_same_target | frame_step | (intros s; split; reflexivity) ].
Qed.

Lemma dqn_train_same_target : preserves same_target DQN.train.
Proof.
  unfold DQN.train.
  apply preserves_bind; [exact _ | |].
  { intros o. rewrite memory_sample_effect. split; reflexivity. }
  intros [tree_idx replay]. cbv zeta.
  apply preserves_bind; [exact _ | apply preserves_lift; exact _ |].
  intros returns.
  apply preserves_bind; [exact _ | apply dqn_loss_same_target |].
  intros [q_backup q].
  apply preserves_bind; [exact _ | |].
  { intros o. rewrite memory_batch_update_effect.
    destruct (Memory_batch_update _ _ _); split; reflexivity. }
  intros _.
  repeat first [ frame_step | (intros s; split; reflexivity) ].
Qed.

Lemma dqn_perform_same_target (cfg : config) (c : method_call) (o : DQN.agent) :
  same_target o (dqn_perform cfg c o).
Proof.
  destruct c as [state i | memory | | i | i | i]; unfold dqn_perform.
  - apply dqn_policy_same_target.
  - apply dqn_sample_same_target.
  - apply dqn_train_same_target.
  - split; reflexivity.
  - split; reflexivity.
  - unfold DQN.save.
    repeat first [ frame_step | (intros s; split; reflexivity) ].
Qed.

Lemma dqn_after_calls_same_target (cfg : config) (calls : list method_call) :
  forall o : DQN.agent, same_target o (dqn_after_calls cfg calls o).
Proof.
  induction calls as [| c calls IH]; intros o.
  - reflexivity.
  - unfold dqn_after_calls. cbn [fold_left].
    fold (dqn_after_calls cfg calls (dqn_perform cfg c o)).
    etransitivity; [apply dqn_perform_same_target | apply IH].
Qed.
End DqnFrame.

(** X12.  No method of the value-based agent assigns the target network
    or the discount: after any sequence of calls of [policy], [sample],
    [train], [lr_decay], [gamma_updae] and [save], returning or raising, the
    target network holds the weights it had, those [build] copied from the
    first online network, and [gamma] is what it was. *)
Theorem dqn_target_network_never_updated :
  forall (E : Externals) (cfg : config) (calls : list method_call),
    (forall o : DQN.agent,
        DQN.target_model (sub (dqn_after_calls cfg calls o)) = DQN.target_model (sub o)
        /\ gamma (self (dqn_after_calls cfg calls o)) = gamma (self o))
    /\ (forall (w0 : weights) (adam_lr : Q) (w : world) (a : attrs),
          DQN.target_model (sub (dqn_after_calls cfg calls (mkObject w a (DQN.build w0 adam_lr))))
          = w0).
Proof.
  intros E cfg calls. split.
  - intros o. apply dqn_after_calls_same_target.
  - intros w0 adam_lr w a.
    destruct (dqn_after_calls_same_target cfg calls (mkObject w a (DQN.build w0 adam_lr)))
      as [Ht _].
    rewrite Ht. reflexivity.
Qed.

(** ** Comprehensions that cannot raise *)

Section Comprehension.
Context {S A B : Type} (I : S -> S -> Prop) {HI : PreOrder I} (P : A -> B -> Prop).

Lemma comprehension_spec (xs : list A) (f : A -> py S B) :
  Forall (fun a => forall s, exists b s', f a s = (Ok b, s') /\ P a b /\ I s s') xs ->
  forall s, exists l s', comprehension xs f s = (Ok l, s') /\ Forall2 P xs l /\ I s s'.
Proof.
  induction 1 as [| a xs Ha _ IH]; intros s; cbn [comprehension].
  - exists [], s. split; [reflexivity |]. split; [constructor | reflexivity].
  - destruct (Ha s) as (b & s1 & Hb & Hp & Hi).
    destruct (IH s1) as (l & s2 & Hl & Hps & Hi2).
    exists (b :: l), s2. unfold bind. rewrite Hb, Hl. split; [reflexivity |].
    split; [constructor; assumption | etransitivity; eassumption].
Qed.
End Comprehension.

Lemma rmap_Forall2 {A B : Type} (P : A -> B -> Prop) (f : A -> result B) (xs : list A) :
  Forall (fun a => exists b, f a = Ok b /\ P a b) xs ->
  exists l, rmap f xs = Ok l /\ Forall2 P xs l.
Proof.
  induction 1 as [| a xs (b & Hb & Hp) _ (l & Hl & Hps)]; cbn [rmap].
  - exists []. split; [reflexivity | constructor].
  - exists (b :: l). rewrite Hb, Hl. split; [reflexivity | constructor; assumption].
Qed.

#[export] Instance drew_preorder {E : Externals} {Sub : Type} : PreOrder (drew (Sub := Sub)).
Proof.
  split.
  - intros [w a s]. exists (rng w). destruct w. reflexivity.
  - intros a b c [g1 ->] [g2 ->]. exists g2. reflexivity.
Qed.

Section Drew.
Context {E : Externals} {Sub : Type}.

Lemma with_rng_drew {A : Type} (f : RNG -> A * RNG) (o : object Sub) :
  exists a o', with_rng f o = (Ok a, o') /\ drew o o'
               /\ a = fst (f (rng (env o))).
Proof.
  unfold with_rng. cbn [get_world object_world].
  destruct (f (rng (env o))) as [a g].
  exists a, (set_env (mkWorld g (log (env o))) o).
  split; [reflexivity |]. split; [exists g; reflexivity | reflexivity].
Qed.

Lemma randint_drew (lo hi : Z) (o : object Sub) :
  (lo < hi)%Z ->
  exists h o', np_random_randint lo hi o = (Ok h, o') /\ drew o o' /\ (lo <= h < hi)%Z.
Proof.
  intros Hlt. destruct (randint_in_range lo hi o Hlt) as (h & g & Hr & Hh).
  exists h, (set_env (mkWorld g (log (env o))) o).
  split; [exact Hr |]. split; [exists g; reflexivity | exact Hh].
Qed.
End Drew.

(** X13.  When the online network gives three values per state (as the
    [Dense(3)] head of [build_model] does), the value-based [policy] returns
    one action per state and every action is 0, 1 or 2, on the exploring
    iterations as on the evaluation ones; the call moves the random sources
    and nothing else of the agent. *)
Theorem dqn_policy_actions :
  forall (E : Externals) (state : list feature) (i : Z) (o : DQN.agent),
    let q := dqn_forward (DQN.model (sub o)) state in
    Forall (fun row => length row = 3%nat) q ->
    exists (acts : list Z) (o' : DQN.agent),
      DQN.policy state i o = (Ok (IntVec acts), o')
      /\ length acts = length q
      /\ Forall (fun a => (0 <= a < 3)%Z) acts
      /\ drew o o'.
Proof.
  intros E state i o q Hq.
  assert (Hargmax : forall row, length row = 3%nat ->
                      exists a, argmax row = Ok a /\ (0 <= a < 3)%Z).
  { intros row Hrow. destruct (argmax_in_row row ltac:(lia)) as (best & Hb & Hl).
    exists (Z.of_nat best). split; [exact Hb | lia]. }
  assert (Hrange : forall acts, Forall2 (fun (_ : list Q) a => (0 <= a < 3)%Z) q acts ->
                     length acts = length q /\ Forall (fun a => (0 <= a < 3)%Z) acts).
  { intros acts H. split; [symmetry; eapply Forall2_length; exact H |].
    clear - H. induction H; constructor; assumption. }
  unfold DQN.policy.
  rewrite (bind_ok_first _ _ _ _ _ (eq_refl : get o = (Ok o, o))). fold q.
  destruct ((i + 1) mod 5 =? 0)%Z; cbn [negb].
  - destruct (rmap_Forall2 (fun (_ : list Q) a => (0 <= a < 3)%Z) argmax q) as (acts & Hr & Hall).
    { eapply Forall_impl; [| exact Hq]. intros row Hrow. apply Hargmax. exact Hrow. }
    exists acts, o. unfold bind, lift, ret. rewrite Hr.
    split; [reflexivity |]. destruct (Hrange acts Hall) as [Hl Hf].
    split; [exact Hl |]. split; [exact Hf | reflexivity].
  - destruct (comprehension_spec (drew (Sub := DQN.fields))
                (fun (_ : list Q) a => (0 <= a < 3)%Z) q
                (fun row => u <- np_random_rand ;;
                            if Qltb (1 # 10) u then lift (argmax row)
                            else np_random_randint 0 3)) with (s := o)
      as (acts & o' & Hr & Hall & Hd).
    { eapply Forall_impl; [| exact Hq]. intros row Hrow s. cbv beta in Hrow.
      unfold bind, np_random_rand.
      destruct (with_rng_drew
                  (fun g => let '(u, rest) := pop 0%Q (uniforms g) in
                            (u, mkRNG (ints g) rest (normals g) (boxes g) (picks g))) s)
        as (u & s1 & Hu & Hd1 & _).
      rewrite Hu.
      destruct (Qltb (1 # 10) u).
      - destruct (Hargmax row Hrow) as (a & Ha & Hr).
        exists a, s1. unfold lift. rewrite Ha. split; [reflexivity |]. split; assumption.
      - destruct (randint_drew 0 3 s1 ltac:(lia)) as (h & s2 & Hh & Hd2 & Hr).
        exists h, s2. split; [exact Hh |]. split; [exact Hr |].
        etransitivity; eassumption. }
    exists acts, o'. rewrite (bind_ok_first _ _ _ _ _ Hr). unfold ret.
    split; [reflexivity |]. destruct (Hrange acts Hall) as [Hl Hf].
    split; [exact Hl |]. split; [exact Hf | exact Hd].
Qed.

Lemma dqn_policy_actions_witness :
  Forall (fun row : list Q => length row = 3%nat)
         (dqn_forward (Externals := Fixture.externals)
            (DQN.model (sub Fixture.dqn_agent)) [[[1; 2]]; [[3; 4]]])
  /\ exists acts o',
       DQN.policy (E := Fixture.externals) [[[1; 2]]; [[3; 4]]] 3 Fixture.dqn_agent
       = (Ok (IntVec acts), o')
       /\ length acts = 2%nat
       /\ Forall (fun a => (0 <= a < 3)%Z) acts.
Proof.
  assert (H : Forall (fun row : list Q => length row = 3%nat)
                (dqn_forward (Externals := Fixture.externals)
                   (DQN.model (sub Fixture.dqn_agent)) [[[1; 2]]; [[3; 4]]]))
    by (repeat constructor).
  split; [exact H |].
  destruct (dqn_policy_actions Fixture.externals [[[1; 2]]; [[3; 4]]] 3 Fixture.dqn_agent H)
    as (acts & o' & Hrun & Hl & Hf & _).
  exists acts, o'. split; [exact Hrun |]. split; [exact Hl | exact Hf].
Defined.

(** ** The value-based agent: the learning rate *)

Lemma decay_factor (i j : Z) :
  (0 <= i <= j)%Z ->
  let fi := (1 / (1 + (1 # 1000000) * inject_Z i))%Q in
  let fj := (1 / (1 + (1 # 1000000) * inject_Z j))%Q in
  (0 < fj /\ fj <= fi /\ fi <= 1)%Q.
Proof.
  intros [Hi Hij] fi fj.
  assert (0 <= inject_Z i)%Q as Hi' by (change 0%Q with (inject_Z 0); rewrite <- Zle_Qle; lia).
  assert (inject_Z i <= inject_Z j)%Q as Hij' by (rewrite <- Zle_Qle; lia).
  set (a := (1 + (1 # 1000000) * inject_Z i)%Q) in *.
  set (b := (1 + (1 # 1000000) * inject_Z j)%Q) in *.
  assert (1 <= a)%Q as Ha by (unfold a; lra).
  assert (a <= b)%Q as Hab by (unfold a, b; lra).
  assert (fi * a == 1)%Q as Hfi by (unfold fi; field; lra).
  assert (fj * b == 1)%Q as Hfj by (unfold fj; field; lra).
  assert (0 < fi)%Q as Hpi by (unfold fi; apply Qlt_shift_div_l; lra).
  assert (0 < fj)%Q as Hpj by (unfold fj; apply Qlt_shift_div_l; lra).
  split; [exact Hpj |]. split.
  - assert (fi - fj == (b - a) * (fi * fj))%Q as Hd.
    { transitivity ((fj * b) * fi - (fi * a) * fj)%Q; [rewrite Hfi, Hfj; ring | ring]. }
    assert (0 <= (b - a) * (fi * fj))%Q.
    { apply Qmult_le_0_compat; [lra |]. apply Qmult_le_0_compat; lra. }
    lra.
  - assert (1 - fi == (a - 1) * fi)%Q as Hd.
    { transitivity (fi * a - fi)%Q; [rewrite Hfi; ring | ring]. }
    assert (0 <= (a - 1) * fi)%Q by (apply Qmult_le_0_compat; lra).
    lra.
Qed.

(** X14.  [lr_decay(i)] sets the optimizer's rate to lr / (1 + 1e-6 * i),
    computed from the agent's [lr] and [i] alone: calls do not compound.
    For 0 <= i <= j the rate after [lr_decay(j)] has the sign of [lr] and is
    no larger in absolute value than the rate after [lr_decay(i)], which is
    no larger than |lr|.  The networks are left as they were. *)
Theorem dqn_lr_decay_rate :
  forall (E : Externals) (cfg : config) (i j : Z) (o : DQN.agent),
    (0 <= i <= j)%Z ->
    let o1 := snd (DQN.lr_decay cfg i o) in
    let o2 := snd (DQN.lr_decay cfg j o1) in
    (DQN.optimizer_lr (sub o2) == lr cfg / (1 + (1 # 1000000) * inject_Z j))%Q
    /\ o2 = snd (DQN.lr_decay cfg j o)
    /\ (Qabs (DQN.optimizer_lr (sub o2)) <= Qabs (DQN.optimizer_lr (sub o1)))%Q
    /\ (Qabs (DQN.optimizer_lr (sub o1)) <= Qabs (lr cfg))%Q
    /\ ((0 < lr cfg)%Q -> (0 < DQN.optimizer_lr (sub o2))%Q)
    /\ ((lr cfg < 0)%Q -> (DQN.optimizer_lr (sub o2) < 0)%Q)
    /\ DQN.model (sub o2) = DQN.model (sub o)
    /\ DQN.target_model (sub o2) = DQN.target_model (sub o).
Proof.
  intros E cfg i j o Hij o1 o2.
  destruct (decay_factor i j Hij) as (Hpj & Hji & Hi1).
  set (fi := (1 / (1 + (1 # 1000000) * inject_Z i))%Q) in *.
  set (fj := (1 / (1 + (1 # 1000000) * inject_Z j))%Q) in *.
  assert (0 < fi)%Q as Hpi by lra.
  change (DQN.optimizer_lr (sub o2)) with (lr cfg * fj)%Q.
  change (DQN.optimizer_lr (sub o1)) with (lr cfg * fi)%Q.
  split; [unfold fj, Qdiv; ring |]. split; [reflexivity |].
  split; [| split; [| split; [| split; [| split; reflexivity]]]].
  - rewrite !Qabs_Qmult. rewrite (Qabs_pos fi), (Qabs_pos fj) by lra.
    pose proof (Qabs_nonneg (lr cfg)) as Hl.
    assert (0 <= Qabs (lr cfg) * (fi - fj))%Q by (apply Qmult_le_0_compat; lra).
    lra.
  - rewrite Qabs_Qmult. rewrite (Qabs_pos fi) by lra.
    pose proof (Qabs_nonneg (lr cfg)) as Hl.
    assert (0 <= Qabs (lr cfg) * (1 - fi))%Q by (apply Qmult_le_0_compat; lra).
    lra.
  - intros Hl. apply Qmult_lt_0_compat; assumption.
  - intros Hl. assert (0 < (- lr cfg) * fj)%Q by (apply Qmult_lt_0_compat; lra). lra.
Qed.

Lemma dqn_lr_decay_rate_witness :
  (0 <= 0 <= 1000000)%Z
  /\ (DQN.optimizer_lr
        (sub (snd (DQN.lr_decay (E := Fixture.externals) (Fixture.cfg_of None) 1000000
                     (snd (DQN.lr_decay (Fixture.cfg_of None) 0 Fixture.dqn_agent)))))
      == lr (Fixture.cfg_of None) / (1 + (1 # 1000000) * inject_Z 1000000))%Q.
Proof.
  split; [lia |].
  exact (proj1 (dqn_lr_decay_rate Fixture.externals (Fixture.cfg_of None) 0 1000000
                  Fixture.dqn_agent ltac:(lia))).
Defined.

(** ** [softmax] *)

Lemma Qsum_scaled (s : Q) (l : list Q) :
  (Qsum (map (fun e => e / s) l) == Qsum l / s)%Q.
Proof.
  unfold Qsum, Qdiv. induction l as [| e l IH]; cbn [map fold_right]; [ring |].
  rewrite IH. ring.
Qed.

Lemma Qsum_positive (l : list Q) :
  Forall (fun e => 0 < e)%Q l ->
  (0 <= Qsum l)%Q /\ Forall (fun e => e <= Qsum l)%Q l /\ (l <> [] -> (0 < Qsum l)%Q).
Proof.
  unfold Qsum. induction 1 as [| e l He _ (IH0 & IHle & _)]; cbn [fold_right].
  - split; [discriminate |]. split; [constructor | congruence].
  - split; [lra |]. split; [| intros _; lra].
    constructor; [lra |]. eapply Forall_impl; [| exact IHle].
    intros a Ha. cbv beta in Ha. lra.
Qed.

(** X15.  Provided [np.exp] is positive, [softmax] of a vector that is not
    empty returns a probability vector of the same length: every entry is
    positive and at most 1, and the entries add up to 1.  On the empty
    vector it raises [ValueError] ([np.max] of an empty array). *)
Theorem softmax_is_a_distribution :
  forall (E : Externals),
    (forall v, 0 < np_exp v)%Q ->
    NE1.softmax [] = Raise ValueError
    /\ forall v : list Q,
         v <> [] ->
         exists p,
           NE1.softmax v = Ok p
           /\ length p = length v
           /\ Forall (fun x => 0 < x /\ x <= 1)%Q p
           /\ (Qsum p == 1)%Q.
Proof.
  intros E Hexp. split; [reflexivity |].
  intros v Hv. unfold NE1.softmax.
  destruct v as [| a rest]; [congruence |].
  cbn [NE1.np_max rbind].
  set (m := fold_left (fun m b => if Qltb m b then b else m) rest a).
  set (e_x := map (fun a => np_exp (a - m)) (a :: rest)).
  assert (Hpos : Forall (fun e => 0 < e)%Q e_x).
  { unfold e_x. apply Forall_map, Forall_forall. intros x _. apply Hexp. }
  destruct (Qsum_positive e_x Hpos) as (_ & Hle & Hsum).
  specialize (Hsum ltac:(unfold e_x; discriminate)).
  eexists. split; [reflexivity |]. split; [unfold e_x; rewrite !length_map; reflexivity |].
  split.
  - apply Forall_map. rewrite Forall_forall in Hpos, Hle. apply Forall_forall.
    intros e He. specialize (Hpos e He). specialize (Hle e He). cbv beta in *. split.
    + apply Qlt_shift_div_l; lra.
    + apply Qle_shift_div_r; lra.
  - rewrite Qsum_scaled. field. lra.
Qed.

Lemma softmax_is_a_distribution_witness :
  (forall v, 0 < np_exp (Externals := Fixture.externals) v)%Q
  /\ exists p, NE1.softmax (E := Fixture.externals) [1; 3; 2] = Ok p /\ (Qsum p == 1)%Q.
Proof.
  assert (H : (forall v, 0 < np_exp (Externals := Fixture.externals) v)%Q).
  { intros v. apply Qpower_0_lt. reflexivity. }
  split; [exact H |].
  destruct (proj2 (softmax_is_a_distribution Fixture.externals H) [1; 3; 2] ltac:(discriminate))
    as (p & Hp & _ & _ & Hsum).
  exists p. split; [exact Hp | exact Hsum].
Defined.

(** ** One generation of the population search: what it leaves behind *)

Section Generation.
Context {E : Externals}.

Lemma choice_effect (len : nat) (size : Z) (replace : bool) (p : list Q) (s : NE1.NE) :
  exists r g,
    np_random_choice len size replace p s = (r, (mkWorld g (log (fst s)), snd s))
    /\ forall l, r = Ok l -> length l = Z.to_nat size \/ replace = true.
Proof.
  destruct s as [[g0 l0] ne].
  destruct (np_random_choice len size replace p (mkWorld g0 l0, ne)) as [r s'] eqn:Hrun.
  pose proof (choice_keeps_object len size replace p (mkWorld g0 l0, ne)) as Hobj.
  assert (Hlog : log (fst s') = l0).
  { assert (PreOrder (fun a b : NE1.NE => log (fst b) = log (fst a))) as HI.
    { split; [intros a; reflexivity | intros a b c H1 H2; congruence]. }
    assert (BlindToDraws (HW := pair_world NE1.NeuroEvolution)
              (fun a b : NE1.NE => log (fst b) = log (fst a))) as HB.
    { intros a g. reflexivity. }
    pose proof (preserves_choice (fun a b : NE1.NE => log (fst b) = log (fst a))
                  len size replace p (mkWorld g0 l0, ne)) as H.
    cbv beta in H. unfold NE1.NE in H. rewrite Hrun in H. exact H. }
  rewrite Hrun in Hobj. cbn [snd fst log] in *.
  destruct s' as [[g1 l1] ne1]. cbn [snd fst log] in *. subst l1 ne1.
  exists r, g1. split; [exact Hrun |].
  intros l ->. destruct replace; [right; reflexivity | left].
  apply choice_without_replacement in Hrun as [Hl _]. exact Hl.
Qed.

Lemma softmax_returns (v : list Q) : v <> [] -> exists p, NE1.softmax v = Ok p.
Proof.
  destruct v as [| a rest]; [congruence |]. intros _. unfold NE1.softmax.
  cbn [NE1.np_max rbind]. eauto.
Qed.

Lemma rmap_index_in_range {A : Type} (l : list A) (idx : list nat) :
  Forall (fun i => (i < length l)%nat) idx ->
  exists l', rmap (fun i => py_index l (Z.of_nat i)) idx = Ok l'.
Proof.
  intros H. apply rmap_ok. eapply Forall_impl; [| exact H].
  intros i Hi. cbv beta in Hi. destruct (py_index_in_range l i Hi) as (v & Hv & _). eauto.
Qed.

(** The selection, whether it returns or raises: the population re-ordered
    and the fittest individual recorded. *)
Lemma select_sorts (replace : bool) (s : NE1.NE) :
  NE1.population (snd s) <> [] ->
  exists r g sorted fittest,
    NE1.select replace s
    = (r, (mkWorld g (log (fst s)),
           NE1.set_fittest fittest (NE1.set_population sorted (snd s))))
    /\ rmap (fun i => py_index (NE1.population (snd s)) (Z.of_nat i))
            (rev (NE1.argsort (map NE1.fitness (NE1.population (snd s))))) = Ok sorted
    /\ py_index sorted 0 = Ok fittest
    /\ (NE1.has_nan (map NE1.fitness (NE1.population (snd s))) = true -> r = Raise ValueError)
    /\ (forall np ps, r = Ok (np, ps) ->
          replace = false -> length ps = Z.to_nat (NE1.n_parents (snd s))).
Proof.
  intros Hpop. destruct s as [[g0 l0] ne]. cbn [fst snd log] in *.
  set (pop := NE1.population ne) in *. set (fitnesses := map NE1.fitness pop).
  destruct (rmap_index_in_range pop (rev (NE1.argsort fitnesses))) as [sorted Hsorted].
  { apply Forall_rev.
    destruct (argsort_sorted fitnesses) as [_ Hp].
    apply Forall_forall. intros i Hi. apply (Permutation_in _ Hp) in Hi.
    apply in_seq in Hi. unfold fitnesses in Hi. rewrite length_map in Hi. lia. }
  assert (Hlen : length sorted = length pop).
  { apply rmap_length in Hsorted.
    rewrite Hsorted, length_rev, argsort_length. apply length_map. }
  assert (0 < length pop)%nat as Hpos by (destruct pop; [congruence | simpl; lia]).
  destruct (py_index_in_range sorted 0%nat ltac:(lia)) as (fittest & Hfit & _).
  destruct (softmax_returns (NE1.signed_scores fitnesses)) as [probs Hprobs].
  { unfold NE1.signed_scores, fitnesses. destruct pop; [congruence | discriminate]. }
  change (Z.of_nat 0) with 0%Z in Hfit.
  set (s0 := (mkWorld g0 l0, ne) : NE1.NE).
  set (s1 := (mkWorld g0 l0, NE1.set_population sorted ne) : NE1.NE).
  set (s2 := (mkWorld g0 l0, NE1.set_fittest fittest (NE1.set_population sorted ne)) : NE1.NE).
  assert (H1 : lift (rmap (fun i => py_index pop (Z.of_nat i)) (rev (NE1.argsort fitnesses))) s0
               = (Ok sorted, s0)) by (unfold lift; rewrite Hsorted; reflexivity).
  assert (H2 : lift (py_index sorted 0) s1 = (Ok fittest, s1))
    by (unfold lift; rewrite Hfit; reflexivity).
  assert (H3 : lift (NE1.softmax (NE1.signed_scores fitnesses)) s2 = (Ok probs, s2))
    by (unfold lift; rewrite Hprobs; reflexivity).
  assert (Hsel : NE1.select replace s0
                 = (parents <- (if NE1.has_nan fitnesses then raise ValueError
                                else np_random_choice (length sorted) (NE1.n_parents ne)
                                                      replace probs) ;;
                    ret (py_slice sorted 0 (NE1.n_winners ne), parents)) s2).
  { unfold NE1.select.
    etransitivity;
      [apply (bind_ok_first _ _ _ _ _ (eq_refl : NE1.this s0 = (Ok ne, s0))) | cbv beta].
    etransitivity; [apply (bind_ok_first _ _ _ _ _ H1) | cbv beta].
    etransitivity;
      [apply (bind_ok_first _ _ _ _ _
                (eq_refl : NE1.assign (NE1.set_population sorted) s0 = (Ok tt, s1))) | cbv beta].
    etransitivity; [apply (bind_ok_first _ _ _ _ _ H2) | cbv beta].
    etransitivity;
      [apply (bind_ok_first _ _ _ _ _
                (eq_refl : NE1.assign (NE1.set_fittest fittest) s1 = (Ok tt, s2))) | cbv beta].
    etransitivity; [apply (bind_ok_first _ _ _ _ _ H3) | cbv beta].
    reflexivity. }
  fold s0. rewrite Hsel.
  destruct (NE1.has_nan fitnesses) eqn:Hnan.
  - exists (Raise ValueError), g0, sorted, fittest.
    split; [reflexivity |]. split; [exact Hsorted |]. split; [exact Hfit |].
    split; [reflexivity |]. intros np ps H. discriminate.
  - destruct (choice_effect (length sorted) (NE1.n_parents ne) replace probs s2)
      as (r & g & Hrun & Hr).
    exists (match r with
            | Ok ps => Ok (py_slice sorted 0 (NE1.n_winners ne), ps)
            | Raise e => Raise e
            end), g, sorted, fittest.
    split; [| split; [exact Hsorted | split; [exact Hfit | split; [discriminate |]]]].
    + destruct r as [ps | e].
      * rewrite (bind_ok_first _ _ _ _ _ Hrun). reflexivity.
      * rewrite (bind_raise_first _ _ _ _ _ Hrun). reflexivity.
    + intros np ps H Hrep. destruct r as [ps' | e]; [| discriminate].
      injection H as _ <-. destruct (Hr ps' eq_refl) as [Hl | Hl]; [exact Hl | congruence].
Qed.
End Generation.

Lemma has_nan_zero {E : Externals} (pop : list NE1.Actor) :
  Exists (fun a => (NE1.fitness a == 0)%Q) pop ->
  NE1.has_nan (map NE1.fitness pop) = true.
Proof.
  intros H. unfold NE1.has_nan. apply existsb_exists.
  apply Exists_exists in H as (a & Ha & H0).
  exists (NE1.fitness a). split; [apply in_map; exact Ha | apply Qeq_bool_iff; exact H0].
Qed.

(** A fitness of 0 makes the weights of the draw NaN. *)
Lemma evolve_zero_fitness {E : Externals} (s : NE1.NE) :
  NE1.population (snd s) <> [] ->
  Exists (fun a => (NE1.fitness a == 0)%Q) (NE1.population (snd s)) ->
  fst (NE1.evolve s) = Raise ValueError.
Proof.
  intros Hpop Hz.
  destruct (select_sorts false s Hpop) as (r & g & sorted & fittest & Hsel & _ & _ & Hnan & _).
  rewrite (Hnan (has_nan_zero _ Hz)) in Hsel.
  unfold NE1.evolve. rewrite (bind_raise_first _ _ _ _ _ Hsel). reflexivity.
Qed.

(** X16.  On a population that is not empty, with at least one parent to
    draw, [evolve] always raises, and all it has done by then is to re-order
    the population and record the fittest individual: the population is a
    permutation of the one it had, in descending order of fitness, with no
    child in it; [fittest_individual] is its first element and no individual
    is fitter.  When an individual has fitness 0 (every individual of a new
    population has) the exception is the [ValueError] of the draw, whose
    probabilities are NaN. *)
Theorem evolve_only_reorders :
  forall (E : Externals) (s : NE1.NE),
    NE1.population (snd s) <> [] ->
    (0 < NE1.n_parents (snd s))%Z ->
    exists e g sorted fittest,
      NE1.evolve s
      = (Raise e, (mkWorld g (log (fst s)),
                   NE1.set_fittest fittest (NE1.set_population sorted (snd s))))
      /\ Permutation sorted (NE1.population (snd s))
      /\ StronglySorted (fun a b => (NE1.fitness b <= NE1.fitness a)%Q) sorted
      /\ hd_error sorted = Some fittest
      /\ Forall (fun a => (NE1.fitness a <= NE1.fitness fittest)%Q) (NE1.population (snd s))
      /\ (Exists (fun a => (NE1.fitness a == 0)%Q) (NE1.population (snd s)) ->
          e = ValueError).
Proof.
  intros E s Hpop Hpar.
  destruct (select_sorts false s Hpop) as (r & g & sorted & fittest & Hsel & Hsorted & Hfit
                                           & Hnan & Hlen).
  destruct (sorted_population _ _ Hsorted) as [Hss Hperm].
  apply (py_index_ok_nat sorted 0%nat) in Hfit.
  destruct sorted as [| first rest]; [discriminate |]. injection Hfit as ->.
  set (s1 := (mkWorld g (log (fst s)),
              NE1.set_fittest fittest (NE1.set_population (fittest :: rest) (snd s))) : NE1.NE)
    in *.
  assert (Hraise : exists e, NE1.evolve s = (Raise e, s1)
                             /\ (r = Raise ValueError -> e = ValueError)).
  { unfold NE1.evolve. destruct r as [[np ps] | e].
    - rewrite (bind_ok_first _ _ _ _ _ Hsel).
      rewrite (bind_ok_first _ _ _ _ _ (eq_refl : NE1.this s1 = (Ok (snd s1), s1))).
      specialize (Hlen np ps eq_refl eq_refl).
      destruct (length ps) as [| k] eqn:Hk; [lia |].
      change (Nat.div2 (Datatypes.S (Datatypes.S k))) with (Datatypes.S (Nat.div2 k)).
      destruct (breed_raises (Nat.div2 k) 0 (NE1.population (snd s1)) ps np s1) as [e He].
      rewrite (bind_raise_first _ _ _ _ _ He). exists e. split; [reflexivity | discriminate].
    - rewrite (bind_raise_first _ _ _ _ _ Hsel). exists e.
      split; [reflexivity | congruence]. }
  destruct Hraise as (e & Hrun & He).
  exists e, g, (fittest :: rest), fittest.
  split; [exact Hrun |]. split; [exact Hperm |]. split; [exact Hss |].
  split; [reflexivity |]. split.
  - eapply Permutation_Forall; [exact Hperm |].
    inversion Hss as [| ? ? _ Hall]; subst.
    constructor; [apply Qle_refl | exact Hall].
  - intros Hz. apply He, Hnan, has_nan_zero. exact Hz.
Qed.

Lemma evolve_only_reorders_witness :
  (NE1.population (snd (Fixture.world0, Fixture.ne10)) <> []
   /\ (0 < NE1.n_parents (snd (Fixture.world0, Fixture.ne10)))%Z)
  /\ exists e g sorted fittest,
       NE1.evolve (E := Fixture.externals) (Fixture.world0, Fixture.ne10)
       = (Raise e, (mkWorld g [],
                    NE1.set_fittest fittest (NE1.set_population sorted Fixture.ne10)))
       /\ Permutation sorted Fixture.population10
       /\ hd_error sorted = Some fittest.
Proof.
  assert (H1 : NE1.population (snd (Fixture.world0, Fixture.ne10)) <> []) by discriminate.
  assert (H2 : (0 < NE1.n_parents (snd (Fixture.world0, Fixture.ne10)))%Z) by reflexivity.
  split; [split; [exact H1 | exact H2] |].
  destruct (evolve_only_reorders Fixture.externals (Fixture.world0, Fixture.ne10) H1 H2)
    as (e & g & sorted & fittest & Hrun & Hperm & _ & Hhd & _).
  exists e, g, sorted, fittest. split; [exact Hrun |]. split; [exact Hperm | exact Hhd].
Defined.

(** X17.  [NeuroEvolution(population_size)] keeps two fifths of the
    population, rounded down, as winners and replaces the rest: the two
    numbers add up to the population size, there are at least as many
    parents as winners, and at least one parent when the size is positive.
    Every individual starts with fitness 0 and no fittest individual is
    recorded; so the first [evolve] of a new population that is not empty
    raises [ValueError] at the draw of the parents. *)
Theorem new_population_split :
  forall (E : Externals) (size : Z) (rate : Q) (initial : list weights) (w : world),
    (0 <= size)%Z ->
    let ne := NE1.NeuroEvolution_init size rate initial in
    NE1.n_winners ne = (2 * size / 5)%Z
    /\ (NE1.n_winners ne + NE1.n_parents ne = size)%Z
    /\ (0 <= NE1.n_winners ne <= NE1.n_parents ne)%Z
    /\ ((0 < size)%Z -> (0 < NE1.n_parents ne)%Z)
    /\ map NE1.w (NE1.population ne) = initial
    /\ Forall (fun a => NE1.fitness a = 0%Q) (NE1.population ne)
    /\ NE1.fittest_individual ne = None
    /\ (initial <> [] -> fst (NE1.evolve (w, ne)) = Raise ValueError).
Proof.
  intros E size rate initial w Hsize ne.
  assert (Hw : NE1.n_winners ne = (2 * size / 5)%Z).
  { cbn [ne NE1.NeuroEvolution_init NE1.n_winners]. unfold py_int.
    change (Qnum (inject_Z size * (4 # 10))) with (size * 4)%Z.
    change (Qden (inject_Z size * (4 # 10))) with 10%positive.
    Z.to_euclidean_division_equations. lia. }
  assert (Hp : NE1.n_parents ne = (size - NE1.n_winners ne)%Z) by reflexivity.
  split; [exact Hw |]. split; [lia |].
  split; [rewrite Hp, Hw; Z.to_euclidean_division_equations; lia |].
  split; [intros H; rewrite Hp, Hw; Z.to_euclidean_division_equations; lia |].
  split.
  { cbn [ne NE1.NeuroEvolution_init NE1.population]. rewrite map_map. cbn [NE1.w].
    apply map_id. }
  split.
  { cbn [ne NE1.NeuroEvolution_init NE1.population]. apply Forall_map, Forall_forall.
    intros v _. reflexivity. }
  split; [reflexivity |].
  intros Hne.
  assert (Hpop : NE1.population (snd (w, ne)) <> []).
  { cbn [snd ne NE1.NeuroEvolution_init NE1.population]. destruct initial; [congruence |].
    discriminate. }
  apply (evolve_zero_fitness (w, ne) Hpop).
  cbn [snd ne NE1.NeuroEvolution_init NE1.population].
  destruct initial as [| v rest]; [congruence |]. left. reflexivity.
Qed.

Lemma new_population_split_witness :
  (0 <= 100)%Z
  /\ NE1.n_winners (NE1.NeuroEvolution_init 100 (1 # 10) (repeat [] 100)) = 40%Z
  /\ NE1.n_parents (NE1.NeuroEvolution_init 100 (1 # 10) (repeat [] 100)) = 60%Z
  /\ fst (NE1.evolve (E := Fixture.externals)
            (Fixture.world0, NE1.NeuroEvolution_init 100 (1 # 10) (repeat [] 100)))
     = Raise ValueError.
Proof.
  split; [lia |].
  destruct (new_population_split Fixture.externals 100 (1 # 10) (repeat [] 100) Fixture.world0
              ltac:(lia))
    as (Hw & Hsum & _ & _ & _ & _ & _ & Hev).
  assert (Hw' : NE1.n_winners (NE1.NeuroEvolution_init 100 (1 # 10) (repeat [] 100)) = 40%Z)
    by exact Hw.
  split; [exact Hw' |]. split; [cbv zeta in Hsum; lia |].
  apply Hev. discriminate.
Defined.

(** ** The actor-critic agent: priorities *)

Lemma huber_loss_nonneg (a b delta : Q) : (0 < delta)%Q -> (0 <= huber_loss a b delta)%Q.
Proof.
  intros Hd. destruct (huber_loss_of_error a b delta) as [H1 H2].
  pose proof (Qabs_nonneg (a - b)) as He.
  destruct (Qlt_le_dec (Qabs (a - b)) delta) as [Hlt | Hle].
  - rewrite (H1 Hlt). nra.
  - rewrite (H2 Hle). nra.
Qed.

Lemma actions_of_map {E : Externals} (memory : list transition) :
  NE1.actions_of memory
  = NE1.pairs (flat_map (fun a => match a with
                                  | IntElem z => [inject_Z z]
                                  | FloatElem v => [v]
                                  | RowElem r => r
                                  end) (map t_action memory)).
Proof.
  unfold NE1.actions_of. f_equal.
  induction memory as [| t memory IH]; cbn [flat_map map]; [reflexivity |].
  rewrite IH. reflexivity.
Qed.

Lemma pairs_raises {E : Externals} (flat : list Q) (e : exn) :
  NE1.pairs flat = Raise e -> e = ValueError.
Proof.
  revert e. induction flat as [flat IH] using (well_founded_induction
    (well_founded_ltof _ (@length Q))). intros e.
  destruct flat as [| a [| b rest]]; cbn [NE1.pairs].
  - discriminate.
  - congruence.
  - destruct (NE1.pairs rest) as [m | e'] eqn:Hp; [discriminate |].
    intros [= <-]. apply (IH rest); [unfold ltof; cbn [length]; lia | exact Hp].
Qed.

Lemma scalars_with_array (rs : list pyr) (a : list Q) : In (PArr a) rs -> scalars rs = None.
Proof.
  induction rs as [| [b | x] rs IH]; cbn [In scalars]; [tauto | reflexivity |].
  intros [H | H]; [discriminate |]. rewrite (IH H). reflexivity.
Qed.

Lemma arrays_with_number (rs : list pyr) (x : Q) : In (PNum x) rs -> arrays rs = None.
Proof.
  induction rs as [| [b | y] rs IH]; cbn [In arrays]; [tauto | | reflexivity].
  intros [H | H]; [discriminate |]. rewrite (IH H). reflexivity.
Qed.

Lemma returns_of_raises (memory : list transition) (e : exn) :
  returns_of memory = Raise e -> e = ValueError.
Proof.
  unfold returns_of. destruct (scalars _); [discriminate |].
  destruct (arrays _) as [[| a rest] |]; try congruence.
  destruct (forallb _ rest); congruence.
Qed.

(** Numbers mixed with arrays are refused. *)
Lemma returns_of_mixed (memory : list transition) (x : Q) (a : list Q) :
  In (PNum x) (map t_return memory) -> In (PArr a) (map t_return memory) ->
  returns_of memory = Raise ValueError.
Proof.
  intros Hx Ha. unfold returns_of.
  rewrite (scalars_with_array _ _ Ha), (arrays_with_number _ _ Hx). reflexivity.
Qed.

Section Broadcast.
Context {E : Externals}.

Lemma broadcast_same_shape (f : Q -> Q -> Q) (a b : list Q) :
  length a = length b -> NE1.broadcast f a b = Ok (NE1.zip_with f a b).
Proof. intros H. unfold NE1.broadcast. rewrite H, Nat.eqb_refl. reflexivity. Qed.

Lemma broadcast_other_shapes (f : Q -> Q -> Q) (a b : list Q) :
  length a <> length b -> length a <> 1%nat -> length b <> 1%nat ->
  NE1.broadcast f a b = Raise shape_error.
Proof.
  intros Hab Ha Hb. unfold NE1.broadcast.
  destruct (Nat.eqb_spec (length a) (length b)) as [Heq | _]; [contradiction |].
  destruct a as [| u [| u' a]]; [| cbn [length] in Ha; lia |];
    (destruct b as [| v [| v' b]]; [| cbn [length] in Hb; lia |]); reflexivity.
Qed.

Lemma broadcast_Forall (P : Q -> Prop) (f : Q -> Q -> Q) (a b c : list Q) :
  (forall x y, P (f x y)) -> NE1.broadcast f a b = Ok c -> Forall P c.
Proof.
  intros Hf. unfold NE1.broadcast.
  assert (Hz : Forall P (NE1.zip_with f a b)).
  { unfold NE1.zip_with. apply Forall_map, Forall_forall. intros ab _. apply Hf. }
  assert (Hl : forall u, Forall P (map (f u) b)).
  { intros u. apply Forall_map, Forall_forall. intros y _. apply Hf. }
  assert (Hr : forall v, Forall P (map (fun u => f u v) a)).
  { intros v. apply Forall_map, Forall_forall. intros y _. apply Hf. }
  destruct (length a =? length b)%nat; [intros [= <-]; exact Hz |].
  destruct a as [| u [| u' a]]; destruct b as [| v [| v' b]]; cbv iota beta;
    first [ discriminate | intros [= <-]; first [ apply Hl | apply Hr | constructor ] ].
Qed.

Lemma zip_with_length (f : Q -> Q -> Q) (a b : list Q) :
  length a = length b -> length (NE1.zip_with f a b) = length a.
Proof. intros H. unfold NE1.zip_with. rewrite length_map, length_combine. lia. Qed.

Lemma nth_error_zip_with (f : Q -> Q -> Q) (a b : list Q) (k : nat) (x y : Q) :
  nth_error a k = Some x -> nth_error b k = Some y ->
  nth_error (NE1.zip_with f a b) k = Some (f x y).
Proof.
  revert b k. induction a as [| u a IH]; intros [| v b] [| k]; cbn [nth_error];
    try discriminate.
  - intros [= <-] [= <-]. reflexivity.
  - intros Ha Hb. apply (IH b k Ha Hb).
Qed.

(** What [sample] comes to: the agent is only read. *)
Lemma pg_sample_runs (memory : list transition) (o : NE1.agent) :
  NE1.sample memory o
  = (let? actions := NE1.actions_of memory in
     let? rewards := returns_of memory in
     let? q := NE1.broadcast (fun a b => (a + b) / 2)%Q
                 (critic_q1 (NE1.critic_w (sub o)) (map t_state memory) actions)
                 (critic_q2 (NE1.critic_w (sub o)) (map t_state memory) actions) in
     let? q_backup := NE1.broadcast (fun r v => r + gamma (self o) * v)%Q rewards
                        (critic_v (NE1.target_critic_w (sub o)) (map t_state memory) actions) in
     NE1.broadcast (fun b a => huber_loss b a 4) q_backup q, o).
Proof.
  unfold NE1.sample, bind, lift, get, ret, rbind.
  destruct (NE1.actions_of memory) as [actions | e]; [| reflexivity].
  destruct (returns_of memory) as [rewards | e]; [| reflexivity].
  cbn [NE1.critic_predict unpack3]. cbv beta iota zeta.
  destruct (NE1.broadcast _ (critic_q1 _ _ _) _) as [q | e]; [| reflexivity].
  cbv beta iota zeta.
  destruct (NE1.broadcast _ rewards _) as [q_backup | e]; [| reflexivity].
  cbv beta iota zeta.
  destruct (NE1.broadcast _ q_backup q); reflexivity.
Qed.
End Broadcast.

(** X18.  The actor-critic [sample] leaves the agent as it was, and its
    result does not depend on the next states of the transitions: the
    target critic is asked for the value of the states themselves.  When
    the actions reshape into rows of two, the returns are all numbers (or
    all arrays of one length) and the three outputs of the critics have one
    row per return, it returns one priority per return: the Huber loss with
    delta 4 between r + gamma * v and (q1 + q2) / 2, never negative; and
    whatever it returns holds no negative entry.  It raises [ValueError]
    when the actions do not reshape, and when the returns are refused by
    [np.array] (numbers mixed with arrays, for one); and it raises the
    error of a shape mismatch when two operands differ in their numbers of
    rows and neither has a single row: q1 and q2, the returns and the
    target values, or the backup and q. *)
Theorem pg_sample_priorities :
  forall (E : Externals) (memory memory' : list transition) (o : NE1.agent),
    snd (NE1.sample memory o) = o
    /\ (map t_state memory' = map t_state memory ->
        map t_action memory' = map t_action memory ->
        map t_return memory' = map t_return memory ->
        NE1.sample memory' o = NE1.sample memory o)
    /\ (forall ae, fst (NE1.sample memory o) = Ok ae -> Forall (fun p => (0 <= p)%Q) ae)
    /\ (forall e, NE1.actions_of memory = Raise e ->
          e = ValueError /\ fst (NE1.sample memory o) = Raise ValueError)
    /\ (forall actions,
          NE1.actions_of memory = Ok actions ->
          (forall e, returns_of memory = Raise e ->
             e = ValueError /\ fst (NE1.sample memory o) = Raise ValueError)
          /\ (forall x a, In (PNum x) (map t_return memory) ->
                          In (PArr a) (map t_return memory) ->
                fst (NE1.sample memory o) = Raise ValueError)
          /\ forall rewards,
               returns_of memory = Ok rewards ->
               let q1 := critic_q1 (NE1.critic_w (sub o)) (map t_state memory) actions in
               let q2 := critic_q2 (NE1.critic_w (sub o)) (map t_state memory) actions in
               let v := critic_v (NE1.target_critic_w (sub o)) (map t_state memory) actions in
               (length q1 = length rewards -> length q2 = length rewards ->
                length v = length rewards ->
                exists ae,
                  fst (NE1.sample memory o) = Ok ae
                  /\ length ae = length rewards
                  /\ forall k r a b t,
                       nth_error rewards k = Some r -> nth_error q1 k = Some a ->
                       nth_error q2 k = Some b -> nth_error v k = Some t ->
                       nth_error ae k
                       = Some (huber_loss (r + gamma (self o) * t) ((a + b) / 2) 4))
               /\ (length q1 <> length q2 -> length q1 <> 1%nat -> length q2 <> 1%nat ->
                   fst (NE1.sample memory o) = Raise shape_error)
               /\ (length q1 = length q2 ->
                   length rewards <> length v -> length rewards <> 1%nat ->
                   length v <> 1%nat ->
                   fst (NE1.sample memory o) = Raise shape_error)
               /\ (length q1 = length q2 -> length rewards = length v ->
                   length rewards <> length q1 -> length rewards <> 1%nat ->
                   length q1 <> 1%nat ->
                   fst (NE1.sample memory o) = Raise shape_error)).
Proof.
  intros E memory memory' o.
  split; [rewrite pg_sample_runs; reflexivity |]. split; [| split; [| split]].
  - intros Hs Ha Hr. rewrite !pg_sample_runs, !actions_of_map. unfold returns_of.
    rewrite Hs, Ha, Hr. reflexivity.
  - intros ae. rewrite pg_sample_runs. cbn [fst].
    unfold rbind.
    destruct (NE1.actions_of memory) as [actions |]; [| discriminate].
    destruct (returns_of memory) as [rewards |]; [| discriminate].
    destruct (NE1.broadcast _ (critic_q1 _ _ _) _) as [q |]; [| discriminate].
    destruct (NE1.broadcast _ rewards _) as [q_backup |]; [| discriminate].
    apply broadcast_Forall. intros x y. apply huber_loss_nonneg. reflexivity.
  - intros e Hact. rewrite pg_sample_runs, Hact. cbn [fst].
    rewrite actions_of_map in Hact. rewrite (pairs_raises _ _ Hact). split; reflexivity.
  - intros actions Hact. split; [| split].
    + intros e Hret. rewrite pg_sample_runs, Hact, Hret. cbn [fst].
      rewrite (returns_of_raises _ _ Hret). split; reflexivity.
    + intros x a Hx Ha.
      rewrite pg_sample_runs, Hact, (returns_of_mixed memory x a Hx Ha). reflexivity.
    + intros rewards Hret q1 q2 v. rewrite pg_sample_runs, Hact, Hret.
      cbn [fst rbind]. fold q1 q2 v. split; [| split; [| split]].
      * intros H1 H2 Hv.
        rewrite (broadcast_same_shape _ q1 q2) by congruence.
        rewrite (broadcast_same_shape _ rewards v) by congruence.
        cbn [rbind].
        pose proof (zip_with_length (fun a b => (a + b) / 2)%Q q1 q2 ltac:(congruence)) as Hq.
        pose proof (zip_with_length (fun r t => r + gamma (self o) * t)%Q rewards v
                      ltac:(congruence)) as Hb.
        rewrite broadcast_same_shape by congruence.
        eexists. split; [reflexivity |].
        split; [rewrite zip_with_length; congruence |].
        intros k r a b t Hr Ha Hb' Ht.
        apply (nth_error_zip_with (fun b a => huber_loss b a 4) _ _ k
                 (r + gamma (self o) * t)%Q ((a + b) / 2)%Q).
        -- apply (nth_error_zip_with (fun r t => r + gamma (self o) * t)%Q _ _ k r t Hr Ht).
        -- apply (nth_error_zip_with (fun a b => (a + b) / 2)%Q _ _ k a b Ha Hb').
      * intros H12 H1 H2. rewrite (broadcast_other_shapes _ q1 q2 H12 H1 H2). reflexivity.
      * intros H12 Hrv Hr Hv. rewrite (broadcast_same_shape _ q1 q2 H12).
        rewrite (broadcast_other_shapes _ rewards v Hrv Hr Hv). reflexivity.
      * intros H12 Hrv Hrq Hr Hq'. rewrite (broadcast_same_shape _ q1 q2 H12).
        rewrite (broadcast_same_shape _ rewards v Hrv).
        cbn [rbind].
        pose proof (zip_with_length (fun a b => (a + b) / 2)%Q q1 q2 H12) as Hq.
        pose proof (zip_with_length (fun r t => r + gamma (self o) * t)%Q rewards v Hrv)
          as Hb.
        rewrite broadcast_other_shapes by congruence.
        reflexivity.
Qed.

Lemma pg_sample_priorities_witness :
  let t := mkTransition [[1; 2]] (RowElem [1; 2]) (PNum 1) [[3; 4]] in
  let t' := mkTransition [[1; 2]] (RowElem [1; 2]) (PNum 1) [[7; 7]] in
  let u := mkTransition [[1; 2]] (RowElem [1; 2]) (PArr [1]) [[3; 4]] in
  let o := Fixture.pg_agent in
  (map t_state [t'] = map t_state [t] /\ map t_action [t'] = map t_action [t]
   /\ map t_return [t'] = map t_return [t])
  /\ NE1.sample (E := Fixture.externals) [t'] o = NE1.sample (E := Fixture.externals) [t] o
  /\ (exists ae, fst (NE1.sample (E := Fixture.externals) [t] o) = Ok ae
                 /\ nth_error ae 0 = Some (huber_loss (1 + gamma (self o) * 2) ((1 + 3) / 2) 4))
  /\ NE1.actions_of [t; u] = Ok [[1; 2]; [1; 2]]
  /\ In (PNum 1) (map t_return [t; u]) /\ In (PArr [1]) (map t_return [t; u])
  /\ fst (NE1.sample (E := Fixture.externals) [t; u] o) = Raise ValueError.
Proof.
  intros t t' u o. split; [repeat split |].
  pose proof (pg_sample_priorities Fixture.externals [t] [t'] o)
    as (_ & Hsame & _ & _ & Hok).
  pose proof (pg_sample_priorities Fixture.externals [t; u] [] o)
    as (_ & _ & _ & _ & Hmixed).
  split; [exact (Hsame eq_refl eq_refl eq_refl) |].
  destruct (Hok [[1; 2]] eq_refl) as (_ & _ & Hlen).
  destruct (Hlen [1] eq_refl) as (Hsome & _).
  destruct (Hsome eq_refl eq_refl eq_refl) as (ae & Hae & _ & Hk).
  split; [exists ae; split; [exact Hae | exact (Hk 0%nat 1 1 3 2 eq_refl eq_refl eq_refl eq_refl)] |].
  split; [reflexivity |].
  assert (Hx : In (PNum 1) (map t_return [t; u])) by (left; reflexivity).
  assert (Ha : In (PArr [1]) (map t_return [t; u])) by (right; left; reflexivity).
  split; [exact Hx |]. split; [exact Ha |].
  exact (proj1 (proj2 (Hmixed [[1; 2]; [1; 2]] eq_refl)) 1 [1] Hx Ha).
Defined.

(** ** The actor-critic agent: the discount and the actions *)

(** X19.  [gamma_updae(i)] sets the discount to 0.2 * (1 - exp(-1e-5 * i)),
    whatever it was before, and changes nothing else.  Where the
    exponential there lies in (0, 1], as it does for i >= 0, the discount
    lies in [0, 0.2): it never reaches 0.2. *)
Theorem pg_discount_schedule :
  forall (E : Externals) (i : Z) (o : NE1.agent),
    let o' := snd (NE1.gamma_updae i o) in
    let e := np_exp (- (1 # 100000) * inject_Z i) in
    fst (NE1.gamma_updae i o) = Ok tt
    /\ (gamma (self o') == (2 # 10) * (1 - e))%Q
    /\ ((0 < e)%Q -> (e <= 1)%Q -> (0 <= gamma (self o'))%Q /\ (gamma (self o') < 2 # 10)%Q)
    /\ o' = set_self (set_gamma (gamma (self o')) (self o)) o.
Proof.
  intros E i o o' e.
  change (gamma (self o')) with (1 - ((8 # 10) + (1 - (8 # 10)) * e))%Q.
  split; [reflexivity |]. split; [ring |]. split; [| reflexivity].
  intros H0 H1. split; lra.
Qed.

Lemma pg_discount_schedule_witness :
  let e := np_exp (Externals := Fixture.externals) (- (1 # 100000) * inject_Z 5) in
  ((0 < e)%Q /\ (e <= 1)%Q)
  /\ (0 <= gamma (self (snd (NE1.gamma_updae (E := Fixture.externals) 5 Fixture.pg_agent))))%Q
  /\ (gamma (self (snd (NE1.gamma_updae (E := Fixture.externals) 5 Fixture.pg_agent)))
      < 2 # 10)%Q.
Proof.
  intros e.
  assert (H0 : (0 < e)%Q) by reflexivity.
  assert (H1 : (e <= 1)%Q) by discriminate.
  split; [split; [exact H0 | exact H1] |].
  exact (proj1 (proj2 (proj2 (pg_discount_schedule Fixture.externals 5 Fixture.pg_agent)))
           H0 H1).
Defined.

Section DrewMore.
Context {E : Externals} {Sub : Type}.





End DrewMore.




(** ** [run(train=False)] *)

Lemma run_loop_single {E : Externals} {Sub : Type} (M : methods Sub) (cfg : config)
    (i : Z) (loc : Z * Z) (o : object Sub) :
  run_loop M cfg [i] loc o = run_iter M cfg i loc o.
Proof.
  cbn [run_loop]. unfold bind.
  destruct (run_iter M cfg i loc o) as [[loc' | e] o']; reflexivity.
Qed.

(** X21.  [run(train=False)] runs exactly one iteration, number 5, whatever
    iteration a restored agent was saved at.  That iteration is not an
    evaluation iteration ((5 + 1) % 5 != 0): it draws no window of its own
    and runs on the window drawn before the loop, which ends before [split],
    four fifths of the rows; so [policy] is called with i = 5 and the
    storage phase is not skipped.  When [split] is not above [step_size] the
    draw before the loop raises [ValueError]; a restored agent that has no
    [i] raises [AttributeError]. *)
Theorem evaluation_run_is_one_training_iteration :
  forall (E : Externals) (Sub : Type) (M : methods Sub) (cfg : config) (o : object Sub),
    let split := (4 * Z.of_nat (length (x cfg)) / 5)%Z in
    (restore (self o) = false \/ saved_i (self o) <> None ->
     ((step_size cfg < split)%Z ->
        exists h g,
          run M cfg false o
          = run_iter M cfg 5 (0%Z, h) (set_env (mkWorld g (log (env o))) o)
          /\ (0 <= h)%Z /\ (h + step_size cfg < split)%Z
          /\ forall o1 : object Sub, choose_h cfg 5 h o1 = (Ok h, o1))
     /\ ((split <= step_size cfg)%Z -> run M cfg false o = (Raise ValueError, o)))
    /\ (restore (self o) = true -> saved_i (self o) = None ->
        run M cfg false o = (Raise (AttributeError "i"), o)).
Proof.
  intros E Sub M cfg o split.
  destruct (py_int_train_rows_less cfg (step_size cfg)) as [Hlt Hge]. fold split in Hlt, Hge.
  split.
  - intros Hstart.
    assert (Hrun : run M cfg false o
                   = (h <- np_random_randint 0
                             (py_int (train_rows cfg - inject_Z (step_size cfg))) ;;
                      run_loop M cfg [5%Z] (0%Z, h)) o).
    { unfold run. rewrite (bind_ok_first _ _ _ _ _ (eq_refl : get o = (Ok o, o))).
      destruct (restore (self o)); cbn [negb].
      - destruct (saved_i (self o)) as [k |] eqn:Hk; [reflexivity |].
        destruct Hstart; congruence.
      - reflexivity. }
    rewrite Hrun. split; intros Hb.
    + rewrite (Hlt Hb).
      destruct (randint_in_range 0 (split - step_size cfg) o ltac:(lia)) as (h & g & Hr & Hh).
      exists h, g. rewrite (bind_ok_first _ _ _ _ _ Hr).
      split; [apply run_loop_single |]. split; [lia |]. split; [lia |].
      intros o1. reflexivity.
    + rewrite (bind_raise_first _ _ _ _ _
                 (randint_empty 0 (py_int (train_rows cfg - inject_Z (step_size cfg))) o
                    (Hge Hb))).
      reflexivity.
  - intros Hr Hs. unfold run, bind, get. rewrite Hr, Hs. reflexivity.
Qed.

Lemma evaluation_run_is_one_training_iteration_witness :
  let cfg := Fixture.cfg_of (Some "DQN"%string) in
  (restore (E := Fixture.externals) (self Fixture.dqn_agent) = false
   \/ saved_i (E := Fixture.externals) (self Fixture.dqn_agent) <> None)
  /\ (step_size cfg < 4 * Z.of_nat (length (x cfg)) / 5)%Z
  /\ exists h g,
       run (E := Fixture.externals) (DQN.Agent cfg) cfg false Fixture.dqn_agent
       = run_iter (DQN.Agent cfg) cfg 5 (0%Z, h)
           (set_env (mkWorld g (log (env Fixture.dqn_agent))) Fixture.dqn_agent)
       /\ (h + 6 < 128)%Z.
Proof.
  intros cfg.
  assert (H1 : restore (E := Fixture.externals) (self Fixture.dqn_agent) = false
               \/ saved_i (E := Fixture.externals) (self Fixture.dqn_agent) <> None)
    by (left; reflexivity).
  assert (H2 : (step_size cfg < 4 * Z.of_nat (length (x cfg)) / 5)%Z) by reflexivity.
  split; [exact H1 |]. split; [exact H2 |].
  destruct (proj1 (proj1 (evaluation_run_is_one_training_iteration Fixture.externals _
                            (DQN.Agent cfg) cfg Fixture.dqn_agent) H1) H2)
    as (h & g & Hrun & _ & Hh & _).
  exists h, g. split; [exact Hrun | exact Hh].
Defined.

(** ** The storage phase of an iteration *)

Section Storage.
Context {E : Externals} {Sub : Type}.

Lemma store_effect (t : transition) (p : Q) (o : object Sub) :
  store t p o =
  match Memory_store (memory (self o)) t p with
  | Ok m =>
      (Ok tt,
       mkObject (mkWorld (rng (env o)) (log (env o) ++ [CMemoryStore t p]))
                (set_memory m (self o)) (sub o))
  | Raise e =>
      (Raise e,
       mkObject (mkWorld (rng (env o)) (log (env o) ++ [CMemoryStore t p]))
                (self o) (sub o))
  end.
Proof.
  unfold store, bind, emit, modify, get, lift, set_attr. cbn.
  destruct (Memory_store (memory (self o)) t p); reflexivity.
Qed.

(** The loop that stores the sampled transitions, when it returns. *)
Lemma store_all (ts : list transition) (ae : list Q) (d : transition) (k : nat) :
  forall (a : nat) (o o' : object Sub),
    for_each (map Z.of_nat (seq a k))
             (fun e => t <- lift (py_index ts e) ;; p <- lift (py_index ae e) ;; store t p) o
    = (Ok tt, o') ->
    (k = 0%nat \/ a + k <= length ts)%nat
    /\ exists m,
         o' = mkObject
                (mkWorld (rng (env o))
                   (log (env o)
                    ++ map (fun e => CMemoryStore (nth e ts d) (nth e ae 0%Q)) (seq a k)))
                (set_memory m (self o)) (sub o).
Proof.
  induction k as [| k IH]; intros a o o' H.
  - cbn in H. injection H as <-. split; [left; reflexivity |].
    exists (memory (self o)). cbn [seq map]. rewrite app_nil_r.
    destruct o as [[g l] [] s]. reflexivity.
  - cbn [seq map for_each] in H.
    bind_inv H. rename s into o1.
    bind_inv Hc. unfold lift in Hc0. injection Hc0 as Ht <-.
    bind_inv Hc. unfold lift in Hc0. injection Hc0 as Hp <-.
    apply py_index_ok_nat in Ht, Hp.
    rewrite store_effect in Hc.
    destruct (Memory_store (memory (self o)) a1 a2) as [m |] eqn:Hm; [| discriminate].
    injection Hc as Ho1.
    destruct (IH (Datatypes.S a) _ _ H) as [Hlen [m' ->]]. subst o1.
    assert (a < length ts)%nat as Hlt by (apply nth_error_Some; congruence).
    split.
    + right. destruct Hlen as [-> | Hlen]; lia.
    + exists m'. cbn [env self sub rng log set_memory memory gamma random restore saved_i rewards].
      rewrite <- app_assoc. cbn [seq map app].
      rewrite (nth_error_nth _ _ d Ht), (nth_error_nth _ _ 0%Q Hp).
      destruct o as [[g l] [] s]. reflexivity.
Qed.

Lemma map_seq_combine {A B C : Type} (f : A -> B -> C) (dA : A) (dB : B) (bs : list B) :
  forall (a_s : list A),
    (length bs <= length a_s)%nat ->
    map (fun e => f (nth e a_s dA) (nth e bs dB)) (seq 0 (length bs))
    = map (fun ab => f (fst ab) (snd ab)) (combine a_s bs).
Proof.
  induction bs as [| b bs IH]; intros [| a a_s] Hlen; cbn [length] in *;
    try reflexivity; try lia.
  cbn [seq map combine fst snd nth]. f_equal.
  rewrite <- seq_shift, map_map. cbn [nth]. apply IH. lia.
Qed.

(** What [random.sample] returns: elements at pairwise distinct positions. *)
Lemma random_sample_distinct {A : Type} (population : list A) (k : Z) (o o' : object Sub)
    (l : list A) :
  random_sample population k o = (Ok l, o') ->
  drew o o'
  /\ length l = Z.to_nat k
  /\ exists ps, NoDup ps /\ Forall2 (fun p a => nth_error population p = Some a) ps l.
Proof.
  unfold random_sample. intros H.
  destruct ((k <? 0) || (Z.of_nat (length population) <? k))%Z eqn:Hk; [discriminate |].
  apply orb_false_elim in Hk as [Hk0 Hk1]. apply Z.ltb_ge in Hk0, Hk1.
  destruct (draw_without_replacement (length population) (Z.to_nat k) (fun _ => true) o)
    as (ps & o1 & Hd & Hl & Hn & Hf).
  { assert (Hall : forall xs : list nat, filter (fun _ => true) xs = xs)
      by (intros xs; induction xs as [| n xs IHxs]; simpl; [| rewrite IHxs]; reflexivity).
    rewrite Hall, length_seq. lia. }
  rewrite (bind_ok_first _ _ _ _ _ Hd) in H. unfold lift in H. injection H as Hr <-.
  split; [| split].
  - unfold draw_positions in Hd.
    match type of Hd with
    | with_rng ?f o = _ => destruct (with_rng_drew f o) as (a & o2 & H2 & Hd2 & _)
    end.
    rewrite H2 in Hd. injection Hd as _ <-. exact Hd2.
  - apply rmap_length in Hr. congruence.
  - exists ps. split; [exact Hn |]. clear - Hr. revert l Hr.
    induction ps as [| p ps IH]; cbn [rmap]; intros l Hr.
    + injection Hr as <-. constructor.
    + apply rbind_ok in Hr as (v & Hv & Hr). apply rbind_ok in Hr as (vs & Hvs & Hr).
      injection Hr as <-. constructor; [apply py_index_ok_nat; exact Hv | apply IH; exact Hvs].
Qed.
End Storage.

(** X22.  When the storage phase of an iteration that is not an evaluation
    iteration returns, with the reward engine holding growth rates: it has
    built the reward signal and the n-step transitions of the window, drawn
    int(step_size * 0.5) of them at pairwise distinct positions, asked
    [sample] for their priorities and stored the transitions, in the order
    drawn, each with the priority at its position; the calls of [store] are
    all it adds to what [sample] left, and the buffer is the only attribute
    they change. *)
Theorem storage_phase_stores_the_sample :
  forall (E : Externals) (Sub : Type) (M : methods Sub) (cfg : config) (i : Z)
         (q : option ndarray) (df : list feature) (trend : list Q) (o o' : object Sub),
    ((i + 1) mod 5 <> 0)%Z ->
    Reward_growth_rate (rewards (self o)) <> [] ->
    memory_append M cfg i q df trend o = (Ok tt, o') ->
    exists (signal : list Q) (window ts : list transition) (o1 : object Sub)
           (ae : list Q) (o2 : object Sub) (m : Memory),
      reward_signal (Reward_growth_rate (rewards (self o)))
                    (Reward_total_gain (rewards (self o))) = Ok signal
      /\ nstep_transitions (n cfg) (length trend) df q signal = Ok window
      /\ random_sample window (py_int (inject_Z (step_size cfg) * (1 # 2))) o = (Ok ts, o1)
      /\ length ts = Z.to_nat (py_int (inject_Z (step_size cfg) * (1 # 2)))
      /\ (exists ps, NoDup ps /\ Forall2 (fun p t => nth_error window p = Some t) ps ts)
      /\ drew o o1
      /\ sample M ts o1 = (Ok ae, o2)
      /\ (length ae <= length ts)%nat
      /\ o' = mkObject
                (mkWorld (rng (env o2))
                   (log (env o2)
                    ++ map (fun tp => CMemoryStore (fst tp) (snd tp)) (combine ts ae)))
                (set_memory m (self o2)) (sub o2).
Proof.
  intros E Sub M cfg i q df trend o o' Hi Hg H.
  unfold memory_append in H.
  rewrite (bind_ok_first _ _ _ _ _ (eq_refl : get o = (Ok o, o))) in H.
  apply Z.eqb_neq in Hi. rewrite Hi in H.
  assert ((length (Reward_growth_rate (rewards (self o))) =? 0)%nat = false) as Hg'.
  { apply Nat.eqb_neq. destruct (Reward_growth_rate (rewards (self o))); [congruence |].
    discriminate. }
  rewrite Hg' in H. cbn [negb andb] in H.
  bind_inv H. unfold lift in Hc. injection Hc as Hsignal <-. rename a into signal.
  bind_inv H. unfold lift in Hc. injection Hc as Hwindow <-. rename a into window.
  bind_inv H. rename a into ts. rename s into o1.
  bind_inv H. rename a into ae. rename s into o2.
  destruct (random_sample_distinct _ _ _ _ _ Hc) as (Hd & Hl & Hps).
  rewrite py_range_0 in H.
  destruct (store_all ts ae (mkTransition [] (IntElem 0) (PNum 0) []) _ _ _ _ H)
    as [Hlen [m ->]].
  exists signal, window, ts, o1, ae, o2, m.
  assert (length ae <= length ts)%nat as Hle by (destruct Hlen as [-> | Hlen]; lia).
  repeat (split; [assumption |]).
  rewrite (map_seq_combine CMemoryStore _ _ ae ts Hle). reflexivity.
Qed.

Lemma storage_phase_stores_the_sample_witness :
  let cfg := Fixture.cfg_of (Some "DQN"%string) in
  (((3 + 1) mod 5 <> 0)%Z
   /\ Reward_growth_rate (Externals := Fixture.externals)
        (rewards (self Fixture.dqn_agent_rewarded)) <> [])
  /\ exists (o' : DQN.agent) (ts : list transition) (ae : list Q) (m : Fixture.buffer),
       memory_append (E := Fixture.externals) (DQN.Agent cfg) cfg 3
         (Some (IntVec [1; 1; 1; 1; 1; 1]%Z)) (repeat [[1; 2]; [3; 4]] 6) (repeat 1 6)
         Fixture.dqn_agent_rewarded
       = (Ok tt, o')
       /\ length ts = 3%nat
       /\ log (env o') = map (fun tp => CMemoryStore (fst tp) (snd tp)) (combine ts ae)
       /\ memory (self o') = m.
Proof.
  intros cfg.
  assert (H1 : ((3 + 1) mod 5 <> 0)%Z) by discriminate.
  assert (H2 : Reward_growth_rate (Externals := Fixture.externals)
                 (rewards (self Fixture.dqn_agent_rewarded)) <> []) by discriminate.
  split; [split; [exact H1 | exact H2] |].
  destruct (memory_append (E := Fixture.externals) (DQN.Agent cfg) cfg 3
              (Some (IntVec [1; 1; 1; 1; 1; 1]%Z)) (repeat [[1; 2]; [3; 4]] 6) (repeat 1 6)
              Fixture.dqn_agent_rewarded) as [[[] | e] o'] eqn:Hrun;
    [| vm_compute in Hrun; discriminate Hrun].
  destruct (storage_phase_stores_the_sample Fixture.externals _ (DQN.Agent cfg) cfg 3 _ _ _ _ _
              H1 H2 Hrun)
    as (signal & window & ts & o1 & ae & o2 & m & _ & _ & _ & Hl & _ & [g1 Hd] & Hs & _ & Ho').
  exists o', ts, ae, m. split; [reflexivity |]. split; [exact Hl |].
  assert (Ho2 : o2 = o1).
  { change (sample (DQN.Agent cfg) ts o1) with (DQN.sample ts o1) in Hs.
    unfold DQN.sample in Hs. unfold bind, lift in Hs.
    destruct (returns_of ts) as [returns | e]; [| discriminate].
    pose proof (loss_state (E := Fixture.externals) (map t_state ts) (map t_next ts)
                  returns (map t_action ts) o1) as Hls.
    destruct (DQN.loss (map t_state ts) (map t_next ts) returns (map t_action ts) o1)
      as [[[qb qq] | e] o3]; cbn [snd] in Hls; [| discriminate].
    unfold ret in Hs. injection Hs as _ <-. exact Hls. }
  rewrite Ho'. rewrite Ho2, Hd. split; reflexivity.
Defined.

(** ** The soft update of the target network *)




(** ** Saving and resuming *)

Section Saving.
Context {E : Externals} {Sub : Type}.
Variable M : methods Sub.
Variable cfg : config.

(** Where the test of line 192 fails, the iteration does not depend on
    [save]. *)
Lemma run_iter_without_save (save' : Z -> py (object Sub) unit) (i : Z) (loc : Z * Z)
    (o : object Sub) :
  ((i + 1) mod 500 <> 0)%Z ->
  run_iter M cfg i loc o = run_iter (with_save M save') cfg i loc o.
Proof.
  intros Hi. destruct loc as [reset h]. unfold run_iter. cbv iota beta.
  apply Z.eqb_neq in Hi. rewrite Hi. reflexivity.
Qed.

Lemma saved_before_reset_bind {A : Type} (i : Z) (c : py (object Sub) A)
    (k k' : A -> py (object Sub) (Z * Z)) (o : object Sub) :
  (forall a o1, c o = (Ok a, o1) -> saved_before_reset M i (k a o1) (k' a o1)) ->
  saved_before_reset M i (bind c k o) (bind c k' o).
Proof.
  intros H. unfold bind. destruct (c o) as [[a | e] o1]; [apply H |]; reflexivity.
Qed.

(** Where it holds, the iteration is the one without [save] up to the
    reset of the reward engine, with [save(i)] called just before it. *)
Lemma run_iter_with_save (i reset h : Z) (o : object Sub) :
  ((i + 1) mod 500 = 0)%Z ->
  saved_before_reset M i (run_iter (with_save M (fun _ => ret tt)) cfg i (reset, h) o)
                       (run_iter M cfg i (reset, h) o).
Proof.
  intros Hi. apply Z.eqb_eq in Hi. unfold run_iter. cbv iota beta. rewrite Hi.
  change (act (with_save M (fun _ => ret tt)) cfg) with (act M cfg).
  change (memory_append (with_save M (fun _ => ret tt)) cfg) with (memory_append M cfg).
  cbn [with_save Base.train Base.lr_decay Base.gamma_updae Base.save].
  apply saved_before_reset_bind. intros h1 o1 _.
  apply saved_before_reset_bind. intros [action q] o2 _.
  apply saved_before_reset_bind. intros r1 o3 _.
  apply saved_before_reset_bind. intros [] o4 _.
  apply saved_before_reset_bind. intros [] o5 _.
  apply saved_before_reset_bind. intros [] o6 _.
  apply saved_before_reset_bind. intros [] o7 _.
  exists o7. split; [reflexivity |].
  unfold bind at 1. destruct (Base.save M i o7) as [[[] | e] o8]; reflexivity.
Qed.
End Saving.

(** X24.  [save(i)] sets [restore] and [i] and writes its files, and then
    copies them to the drive: the attributes are set whether the copies
    return or raise, and the call returns or raises as the copies do
    (outside /content they raise).  The loop calls [save] exactly when
    (i + 1) % 500 == 0: on any other iteration the outcome is the same with
    any other [save]; on such an iteration the outcome is that of the
    iteration without [save], with [save(i)] called on the state reached
    just before [self.rewards.reset()], so that a [save] that raises ends
    the iteration with its exception.  A training run of an agent with
    [restore] set and [i] stored starts its loop at iteration [i], with the
    local [reset] back at 0 and a fresh window; an agent that was never
    saved nor restored starts at 0.  So after an iteration of the
    value-based agent that saved and returned, a new training run starts at
    that same iteration, which is an evaluation iteration: the window is
    drawn from the test rows and nothing is stored. *)
Theorem saved_agent_resumes_at_saved_iteration :
  forall (E : Externals) (cfg : config) (i : Z),
    (forall o : DQN.agent,
        snd (DQN.save i o) = saved i o
        /\ fst (DQN.save i o)
           = (let? _ := shutil_copy "/content/dqn.h5" "/content/drive/My Drive" in
              shutil_copy "/content/dqn_epoch.npy" "/content/drive/My Drive"))
    /\ (forall o : NE1.agent,
          snd (NE1.save i o) = saved i o
          /\ fst (NE1.save i o) = copy_tree "/content/ne1" "/content/drive/My Drive")
    /\ (forall (Sub : Type) (M : methods Sub) (save' : Z -> py (object Sub) unit)
               (loc : Z * Z) (o : object Sub),
          ((i + 1) mod 500 <> 0)%Z ->
          run_iter M cfg i loc o = run_iter (with_save M save') cfg i loc o)
    /\ (forall (Sub : Type) (M : methods Sub) (reset h : Z) (o : object Sub),
          ((i + 1) mod 500 = 0)%Z ->
          match run_iter (with_save M (fun _ => ret tt)) cfg i (reset, h) o with
          | (Ok loc', o_skip) =>
              exists o1,
                o_skip = rewards_reset o1
                /\ run_iter M cfg i (reset, h) o
                   = match save M i o1 with
                     | (Ok _, o2) => (Ok loc', rewards_reset o2)
                     | (Raise e, o2) => (Raise e, o2)
                     end
          | (Raise e, o_e) => run_iter M cfg i (reset, h) o = (Raise e, o_e)
          end)
    /\ (forall (Sub : Type) (M : methods Sub) (o : object Sub),
          restore (self o) = true -> saved_i (self o) = Some i ->
          run M cfg true o
          = (h <- np_random_randint 0 (py_int (train_rows cfg - inject_Z (step_size cfg))) ;;
             run_loop M cfg (py_range i 10000000) (0%Z, h)) o)
    /\ (forall (Sub : Type) (M : methods Sub) (o : object Sub),
          restore (self o) = false ->
          run M cfg true o
          = (h <- np_random_randint 0 (py_int (train_rows cfg - inject_Z (step_size cfg))) ;;
             run_loop M cfg (py_range 0 10000000) (0%Z, h)) o)
    /\ (forall (reset h : Z) (o o' : DQN.agent) (loc' : Z * Z),
          ((i + 1) mod 500 = 0)%Z ->
          run_iter (DQN.Agent cfg) cfg i (reset, h) o = (Ok loc', o') ->
          restore (self o') = true
          /\ saved_i (self o') = Some i
          /\ (exists l, log (env o') = l ++ [CSave i; CRewardReset])
          /\ run (DQN.Agent cfg) cfg true o'
             = (h <- np_random_randint 0
                       (py_int (train_rows cfg - inject_Z (step_size cfg))) ;;
                run_loop (DQN.Agent cfg) cfg (py_range i 10000000) (0%Z, h)) o')
    /\ (forall (Sub : Type) (M : methods Sub) (h : Z) (q : option ndarray)
               (df : list feature) (trend : list Q) (o : object Sub),
          ((i + 1) mod 500 = 0)%Z ->
          choose_h cfg i h o
          = np_random_randint (py_int (train_rows cfg))
              (Z.of_nat (length (x cfg)) - step_size cfg * 5) o
          /\ memory_append M cfg i q df trend o = (Ok tt, o)).
Proof.
  intros E cfg i.
  assert (Hresume : forall (Sub : Type) (M : methods Sub) (o : object Sub),
             restore (self o) = true -> saved_i (self o) = Some i ->
             run M cfg true o
             = (h <- np_random_randint 0
                       (py_int (train_rows cfg - inject_Z (step_size cfg))) ;;
                run_loop M cfg (py_range i 10000000) (0%Z, h)) o).
  { intros Sub M o Hr Hs.
    unfold run. rewrite (bind_ok_first _ _ _ _ _ (eq_refl : get o = (Ok o, o))).
    rewrite Hr, Hs. reflexivity. }
  assert (Hdqn : forall o : DQN.agent,
             snd (DQN.save i o) = saved i o
             /\ fst (DQN.save i o)
                = (let? _ := shutil_copy "/content/dqn.h5" "/content/drive/My Drive" in
                   shutil_copy "/content/dqn_epoch.npy" "/content/drive/My Drive")).
  { intros o. unfold DQN.save, bind, modify, emit, lift, rbind.
    cbn [get_world set_world object_world fst snd].
    destruct (shutil_copy "/content/dqn.h5" _) as [[] | e]; [| split; reflexivity].
    destruct (shutil_copy "/content/dqn_epoch.npy" _) as [[] | e]; split; reflexivity. }
  split; [exact Hdqn |]. split; [| split; [| split; [| split; [| split; [| split]]]]].
  - intros o. unfold NE1.save, bind, modify, emit, lift.
    cbn [get_world set_world object_world fst snd].
    destruct (copy_tree "/content/ne1" _) as [[] | e]; split; reflexivity.
  - intros Sub M save' loc o Hi. apply run_iter_without_save. exact Hi.
  - intros Sub M reset h o Hi. apply (run_iter_with_save M cfg i reset h o Hi).
  - exact Hresume.
  - intros Sub M o Hr.
    unfold run. rewrite (bind_ok_first _ _ _ _ _ (eq_refl : get o = (Ok o, o))).
    rewrite Hr. reflexivity.
  - intros reset h o o' loc' Hi Hrun.
    pose proof (run_iter_with_save (DQN.Agent cfg) cfg i reset h o Hi) as Hw.
    unfold saved_before_reset in Hw.
    destruct (run_iter (with_save (DQN.Agent cfg) (fun _ => ret tt)) cfg i (reset, h) o)
      as [[loc1 | e] o_skip]; [| congruence].
    destruct Hw as (o1 & _ & Hw). rewrite Hrun in Hw.
    change (save (DQN.Agent cfg) i o1) with (DQN.save i o1) in Hw.
    destruct (Hdqn o1) as [Hs _].
    destruct (DQN.save i o1) as [[[] | e] o2]; [| discriminate].
    cbn [snd] in Hs. injection Hw as _ ->. subst o2.
    assert (Hr : restore (self (rewards_reset (saved i o1))) = true) by reflexivity.
    assert (Hsv : saved_i (self (rewards_reset (saved i o1))) = Some i) by reflexivity.
    split; [exact Hr |]. split; [exact Hsv |]. split.
    + exists (log (env o1)). unfold rewards_reset, saved. cbn [env log].
      rewrite <- app_assoc. reflexivity.
    + apply (Hresume _ (DQN.Agent cfg) _ Hr Hsv).
  - intros Sub M h q df trend o Hi.
    assert (H5 : ((i + 1) mod 5 =? 0)%Z = true).
    { apply Z.eqb_eq. Z.to_euclidean_division_equations. lia. }
    unfold choose_h, memory_append. rewrite H5. split; reflexivity.
Qed.

Lemma saved_agent_resumes_at_saved_iteration_witness :
  let cfg := Fixture.cfg_of (Some "DQN"%string) in
  (restore (E := Fixture.externals) (self Fixture.dqn_agent) = false
   /\ run (E := Fixture.externals) (DQN.Agent cfg) cfg true Fixture.dqn_agent
      = (h <- np_random_randint 0 (py_int (train_rows cfg - inject_Z (step_size cfg))) ;;
         run_loop (DQN.Agent cfg) cfg (py_range 0 10000000) (0%Z, h)) Fixture.dqn_agent)
  /\ ((499 + 1) mod 500 = 0)%Z
  /\ exists (loc' : Z * Z) (o' : DQN.agent),
       run_iter (E := Fixture.externals) (DQN.Agent cfg) cfg 499 (0%Z, 0%Z) Fixture.dqn_agent
       = (Ok loc', o')
       /\ restore (self o') = true
       /\ saved_i (self o') = Some 499%Z.
Proof.
  intros cfg.
  pose proof (saved_agent_resumes_at_saved_iteration Fixture.externals cfg 0)
    as (_ & _ & _ & _ & _ & Hfresh & _).
  pose proof (saved_agent_resumes_at_saved_iteration Fixture.externals cfg 499)
    as (_ & _ & _ & _ & _ & _ & Hsaved & _).
  split; [split; [reflexivity | exact (Hfresh _ (DQN.Agent cfg) Fixture.dqn_agent eq_refl)] |].
  split; [reflexivity |].
  destruct (run_iter (E := Fixture.externals) (DQN.Agent cfg) cfg 499 (0%Z, 0%Z)
              Fixture.dqn_agent) as [[loc' | e] o'] eqn:Hrun;
    [| vm_compute in Hrun; discriminate Hrun].
  destruct (Hsaved 0%Z 0%Z Fixture.dqn_agent o' loc' eq_refl Hrun) as (Hr & Hs & _).
  exists loc', o'. split; [reflexivity |]. split; [exact Hr | exact Hs].
Defined.
